(** * A shallow embedding of the contact directory of [main.py]

    The development follows the layout of the program: Python strings and
    the two character predicates the validators rely on, exceptions, the
    part of [datetime.date] that the birthday report uses, the [Field]
    classes, [Record], [AddressBook], and the two weekend helpers.  The
    theorems come after the definitions. *)

From Stdlib Require Import String Ascii ZArith NArith Bool Lia List.
Import ListNotations.
Open Scope Z_scope.

(* ================================================================== *)
(** ** Python strings *)

(** A [str] is a sequence of Unicode code points. *)
Definition char := N.
Definition str := list char.

(** A literal of the source, written as a Rocq string of ASCII characters. *)
Definition pystr (s : string) : str := map N_of_ascii (list_ascii_of_string s).

Definition len {A : Type} (l : list A) : Z := Z.of_nat (List.length l).

Fixpoint str_eqb (a b : str) : bool :=
  match a, b with
  | [], [] => true
  | x :: a', y :: b' => N.eqb x y && str_eqb a' b'
  | _, _ => false
  end.

(** Code points of general category Nd come in runs of ten, the digits
    zero to nine in order; these are the first code points of the runs
    (Unicode 14.0, the database of CPython 3.11). *)
Definition nd_block_starts : list N :=
  [48; 1632; 1776; 1984; 2406; 2534; 2662; 2790; 2918; 3046; 3174; 3302;
   3430; 3558; 3664; 3792; 3872; 4160; 4240; 6112; 6160; 6470; 6608; 6784;
   6800; 6992; 7088; 7232; 7248; 42528; 43216; 43264; 43472; 43504; 43600;
   44016; 65296; 66720; 68912; 69734; 69872; 69942; 70096; 70384; 70736;
   70864; 71248; 71360; 71472; 71904; 72016; 72784; 73040; 73120; 92768;
   92864; 93008; 120782; 120792; 120802; 120812; 120822; 123200; 123632;
   125264; 130032]%N.

(** Code points with Numeric_Type=Digit that are not decimal: superscripts,
    subscripts, circled and parenthesised digits and the like. *)
Definition digit_only_ranges : list (N * N) :=
  [(178, 179); (185, 185); (4969, 4977); (6618, 6618); (8304, 8304);
   (8308, 8313); (8320, 8329); (9312, 9320); (9332, 9340); (9352, 9360);
   (9450, 9450); (9461, 9469); (9471, 9471); (10102, 10110);
   (10112, 10120); (10122, 10130); (68160, 68163); (69216, 69224);
   (69714, 69722); (127232, 127242)]%N.

Definition in_range (c : char) (r : N * N) : bool :=
  (N.leb (fst r) c && N.leb c (snd r))%N.

(** [unicodedata.decimal]: the value of a decimal digit, if [c] is one. *)
Definition decimal_value (c : char) : option Z :=
  match find (fun lo => in_range c (lo, lo + 9)%N) nd_block_starts with
  | Some lo => Some (Z.of_N (c - lo))
  | None => None
  end.

(** [c.isdecimal()], also what the regular expression [\d] matches. *)
Definition isdecimal_char (c : char) : bool :=
  match decimal_value c with Some _ => true | None => false end.

(** [c.isdigit()]: Numeric_Type is Digit or Decimal. *)
Definition isdigit_char (c : char) : bool :=
  isdecimal_char c || existsb (in_range c) digit_only_ranges.

(** [s.isdigit()]: at least one character, and all of them digits. *)
Definition isdigit (s : str) : bool :=
  match s with
  | [] => false
  | _ => forallb isdigit_char s
  end.

(** The ten ASCII digits, the decimal digits of the specification. *)
Definition ascii_digit (c : char) : bool := (N.leb 48 c && N.leb c 57)%N.

Definition digit_char (n : Z) : char := Z.to_N (48 + n).

Fixpoint digits_of (fuel : nat) (n : Z) (acc : str) : str :=
  match fuel with
  | O => acc
  | S fuel' =>
      let acc' := digit_char (n mod 10) :: acc in
      if n <? 10 then acc' else digits_of fuel' (n / 10) acc'
  end.

(** [str(n)]: the decimal digits, behind a minus sign when [n] is negative.
    A number has no more decimal digits than binary ones. *)
Definition str_of_int (n : Z) : str :=
  if n <? 0 then 45%N :: digits_of (S (Z.to_nat (Z.log2 (- n)))) (- n) []
  else digits_of (S (Z.to_nat (Z.log2 n))) n [].

(** [int(s)] on the text of a strptime group: [int] strips white space,
    of which a group has at most a leading blank; what is left must be
    decimal digits, at least one. *)
Fixpoint int_digits (s : str) (acc : Z) : option Z :=
  match s with
  | [] => Some acc
  | c :: s' =>
      match decimal_value c with
      | Some v => int_digits s' (10 * acc + v)
      | None => None
      end
  end.

Definition SPACE : char := 32%N.
Definition DOT : char := 46%N.

Fixpoint lstrip (s : str) : str :=
  match s with
  | c :: s' => if N.eqb c SPACE then lstrip s' else s
  | [] => []
  end.

Definition int_of_str (s : str) : option Z :=
  match lstrip s with
  | [] => None
  | t => int_digits t 0
  end.

(* ================================================================== *)
(** ** Exceptions *)

Inductive exn : Type :=
| ValueError (msg : str)
| OverflowError (msg : str)
| AttributeError (msg : str).

Inductive outcome (A : Type) : Type :=
| Return (a : A)
| Raise (e : exn).
Arguments Return {A} a.
Arguments Raise {A} e.

Definition bind {A B : Type} (m : outcome A) (k : A -> outcome B) : outcome B :=
  match m with
  | Return a => k a
  | Raise e => Raise e
  end.

Notation "x <- m ;; k" := (bind m (fun x => k))
  (at level 61, m at next level, right associativity).
Notation "' pat <- m ;; k" := (bind m (fun x => match x with pat => k end))
  (at level 61, pat pattern, m at next level, right associativity).

(* ================================================================== *)
(** ** [datetime.date] *)

Module datetime.

Definition MINYEAR : Z := 1.
Definition MAXYEAR : Z := 9999.
Definition _MAXORDINAL : Z := 3652059.

Definition _DAYS_IN_MONTH : list Z :=
  [-1; 31; 28; 31; 30; 31; 30; 31; 31; 30; 31; 30; 31].

(** Built by the module's start-up loop: a running sum of the months. *)
Definition _DAYS_BEFORE_MONTH : list Z :=
  Eval cbv in
    fst (fold_left (fun '(acc, dbm) dim => (acc ++ [dbm], dbm + dim))
                   (tl _DAYS_IN_MONTH) ([-1], 0)).

Definition index (l : list Z) (i : Z) : Z := nth (Z.to_nat i) l 0.

Definition _is_leap (year : Z) : bool :=
  (year mod 4 =? 0) && (negb (year mod 100 =? 0) || (year mod 400 =? 0)).

Definition _days_before_year (year : Z) : Z :=
  let y := year - 1 in
  y * 365 + y / 4 - y / 100 + y / 400.

Definition _days_in_month (year month : Z) : Z :=
  if (month =? 2) && _is_leap year then 29 else index _DAYS_IN_MONTH month.

Definition b2z (b : bool) : Z := if b then 1 else 0.

Definition _days_before_month (year month : Z) : Z :=
  index _DAYS_BEFORE_MONTH month + b2z ((2 <? month) && _is_leap year).

Definition _ymd2ord (year month day : Z) : Z :=
  _days_before_year year + _days_before_month year month + day.

Definition _DI400Y : Z := Eval cbv in _days_before_year 401.
Definition _DI100Y : Z := Eval cbv in _days_before_year 101.
Definition _DI4Y : Z := Eval cbv in _days_before_year 5.

Definition _ord2ymd (n : Z) : Z * Z * Z :=
  let n := n - 1 in
  let n400 := n / _DI400Y in
  let n := n mod _DI400Y in
  let year := n400 * 400 + 1 in
  let n100 := n / _DI100Y in
  let n := n mod _DI100Y in
  let n4 := n / _DI4Y in
  let n := n mod _DI4Y in
  let n1 := n / 365 in
  let n := n mod 365 in
  let year := year + (n100 * 100 + n4 * 4 + n1) in
  if (n1 =? 4) || (n100 =? 4) then (year - 1, 12, 31)
  else
    let leapyear := (n1 =? 3) && (negb (n4 =? 24) || (n100 =? 3)) in
    let month := Z.shiftr (n + 50) 5 in
    let preceding := index _DAYS_BEFORE_MONTH month + b2z ((2 <? month) && leapyear) in
    let '(month, preceding) :=
      if n <? preceding
      then (month - 1,
            preceding - (index _DAYS_IN_MONTH (month - 1)
                         + b2z ((month - 1 =? 2) && leapyear)))
      else (month, preceding) in
    (year, month, n - preceding + 1).

Record date : Type := mkdate { year : Z; month : Z; day : Z }.

(** [_check_date_fields], with the messages of the C implementation. *)
Definition _check_date_fields (year month day : Z) : outcome (Z * Z * Z) :=
  if negb ((MINYEAR <=? year) && (year <=? MAXYEAR)) then
    Raise (ValueError (pystr "year " ++ str_of_int year ++ pystr " is out of range"))
  else if negb ((1 <=? month) && (month <=? 12)) then
    Raise (ValueError (pystr "month must be in 1..12"))
  else if negb ((1 <=? day) && (day <=? _days_in_month year month)) then
    Raise (ValueError (pystr "day is out of range for month"))
  else Return (year, month, day).

(** [date(year, month, day)]. *)
Definition new (year month day : Z) : outcome date :=
  '(y, m, d) <- _check_date_fields year month day ;;
  Return (mkdate y m d).

Definition toordinal (self : date) : Z :=
  _ymd2ord (year self) (month self) (day self).

Definition fromordinal (n : Z) : outcome date :=
  let '(y, m, d) := _ord2ymd n in new y m d.

(** [self.replace(year=y)]. *)
Definition replace_year (self : date) (y : Z) : outcome date :=
  new y (month self) (day self).

(** [self < other]: the (year, month, day) triples, compared in order. *)
Definition lt (self other : date) : bool :=
  (year self <? year other)
  || ((year self =? year other)
      && ((month self <? month other)
          || ((month self =? month other) && (day self <? day other)))).

(** [(self - other).days]. *)
Definition sub_days (self other : date) : Z := toordinal self - toordinal other.

(** [self + timedelta(days=n)]. *)
Definition add_days (self : date) (n : Z) : outcome date :=
  let o := toordinal self + n in
  if (0 <? o) && (o <=? _MAXORDINAL) then fromordinal o
  else Raise (OverflowError (pystr "date value out of range")).

(** Monday is 0, Sunday is 6. *)
Definition weekday (self : date) : Z := (toordinal self + 6) mod 7.

Definition fmt_02d (n : Z) : str :=
  if n <? 10 then digit_char 0 :: str_of_int n else str_of_int n.

(** [self.strftime('%d.%m.%Y')], as the C library of Linux formats the
    fields: day and month padded to two digits, the year in plain
    decimal. *)
Definition strftime_dmY (self : date) : str :=
  fmt_02d (day self) ++ [DOT] ++ fmt_02d (month self) ++ [DOT]
  ++ str_of_int (year self).

(** *** [datetime.strptime(data_string, '%d.%m.%Y')]

    [_strptime] turns the format into a regular expression, one named
    group per directive, and matches it at the start of the data:
    [(?P<d>3[0-1]|[1-2]\d|0[1-9]|[1-9]| [1-9])\.(?P<m>1[0-2]|0[1-9]|[1-9])\.(?P<Y>\d\d\d\d)].
    Every alternative is a fixed sequence of character classes; the
    alternatives of a group are tried in order, with backtracking. *)

Definition char_class := char -> bool.
Definition alternative := list char_class.

Definition one (c : char) : char_class := N.eqb c.
Definition between (lo hi : char) : char_class :=
  fun c => (N.leb lo c && N.leb c hi)%N.

Definition regex_d : list alternative :=
  [ [one 51; between 48 49];
    [between 49 50; isdecimal_char];
    [one 48; between 49 57];
    [between 49 57];
    [one SPACE; between 49 57] ]%N.

Definition regex_m : list alternative :=
  [ [one 49; between 48 50];
    [one 48; between 49 57];
    [between 49 57] ]%N.

Definition regex_Y : list alternative :=
  [ [isdecimal_char; isdecimal_char; isdecimal_char; isdecimal_char] ].

Definition regex_dot : list alternative := [ [one DOT] ].

Definition format_regex : list (list alternative) :=
  [regex_d; regex_dot; regex_m; regex_dot; regex_Y].

(** The text an alternative consumes at the head of [s], and what is left. *)
Fixpoint match_alternative (a : alternative) (s : str) : option (str * str) :=
  match a, s with
  | [], _ => Some ([], s)
  | cls :: a', c :: s' =>
      if cls c then
        match match_alternative a' s' with
        | Some (m, rest) => Some (c :: m, rest)
        | None => None
        end
      else None
  | _ :: _, [] => None
  end.

(** The first way, in the order of the alternatives, to match all the
    groups in sequence: the texts of the groups and the unread rest. *)
Fixpoint regex_match (groups : list (list alternative)) (s : str)
  : option (list str * str) :=
  match groups with
  | [] => Some ([], s)
  | g :: groups' =>
      (fix try (alts : list alternative) : option (list str * str) :=
         match alts with
         | [] => None
         | a :: alts' =>
             match match_alternative a s with
             | Some (m, s') =>
                 match regex_match groups' s' with
                 | Some (ms, rest) => Some (m :: ms, rest)
                 | None => try alts'
                 end
             | None => try alts'
             end
         end) g
  end.

(** The messages of the two format errors interpolate [repr(data_string)]
    and the format; the model keeps their fixed text. *)
Definition strptime_dmY (data_string : str) : outcome date :=
  match regex_match format_regex data_string with
  | None => Raise (ValueError (pystr "time data does not match format"))
  | Some (found, rest) =>
      match rest with
      | _ :: _ => Raise (ValueError (pystr "unconverted data remains: " ++ rest))
      | [] =>
          match found with
          | [d; _; m; _; Y] =>
              match int_of_str Y, int_of_str m, int_of_str d with
              | Some year, Some month, Some day => new year month day
              | _, _, _ => Raise (ValueError (pystr "invalid literal for int() with base 10"))
              end
          | _ => Raise (ValueError (pystr "time data does not match format"))
          end
      end
  end.

End datetime.

(* ================================================================== *)
(** ** The fields: [Name], [Phone], [Birthday] *)

Module Name.
Record t : Type := mk { value : str }.
End Name.

Module Phone.
(** A phone is an object of its own: [oid] is its identity, [value] the
    attribute set by [Field.__init__]. *)
Record t : Type := mk { oid : nat; value : str }.

Definition init (oid : nat) (value : str) : outcome t :=
  if isdigit value && (len value =? 10) then Return (mk oid value)
  else Raise (ValueError (pystr "Phone must be 10 digits.")).

(** [Phone] defines no [__eq__]: [==] between phones is identity.  An
    object of the model is its identity together with its state. *)
Definition is_ (a b : t) : bool :=
  Nat.eqb (oid a) (oid b) && str_eqb (value a) (value b).
End Phone.

Module Birthday.
Record t : Type := mk { value : str }.

Definition init (value : str) : outcome t :=
  match datetime.strptime_dmY value with
  | Return _ => Return (mk value)
  | Raise (ValueError _) =>
      Raise (ValueError (pystr "Invalid date format. Use DD.MM.YYYY."))
  | Raise e => Raise e
  end.
End Birthday.

(* ================================================================== *)
(** ** Lists of objects *)

(** [l.remove(x)]: the first item equal to [x] goes; [ValueError] when
    there is none.  [x] is a phone or [None], and [None] equals no phone. *)
Fixpoint list_remove (x : option Phone.t) (l : list Phone.t)
  : outcome (list Phone.t) :=
  match l with
  | [] => Raise (ValueError (pystr "list.remove(x): x not in list"))
  | item :: l' =>
      if match x with Some p => Phone.is_ item p | None => false end
      then Return l'
      else l'' <- list_remove x l' ;; Return (item :: l'')
  end.

(** Truth value of [x] where [x] is an object without [__bool__] or [None]. *)
Definition truthy {A : Type} (x : option A) : bool :=
  match x with Some _ => true | None => false end.

(* ================================================================== *)
(** ** [Record] *)

Module Record_.

Record t : Type := mk {
  name : Name.t;
  phones : list Phone.t;
  birthday : option Birthday.t
}.

(** A method runs on [self] and leaves it in some state, also when it
    raises. *)
Definition method (A : Type) : Type := t -> outcome A * t.

Definition seq {A B : Type} (m : method A) (k : method B) : method B :=
  fun self =>
    match m self with
    | (Return _, self') => k self'
    | (Raise e, self') => (Raise e, self')
    end.

Definition init (name : str) : t := mk (Name.mk name) [] None.

(** An identity no phone of the record has. *)
Definition fresh_oid (self : t) : nat :=
  S (fold_right Nat.max O (map Phone.oid (phones self))).

Definition add_phone (phone_number : str) : method unit :=
  fun self =>
    match Phone.init (fresh_oid self) phone_number with
    | Return phone =>
        (Return tt, mk (name self) (phones self ++ [phone]) (birthday self))
    | Raise e => (Raise e, self)
    end.

Definition find_phone (self : t) (phone_number : str) : option Phone.t :=
  find (fun phone => str_eqb (Phone.value phone) phone_number) (phones self).

Definition remove_phone (phone_number : str) : method unit :=
  fun self =>
    let phone := find_phone self phone_number in
    match list_remove phone (phones self) with
    | Return phones' => (Return tt, mk (name self) phones' (birthday self))
    | Raise e => (Raise e, self)
    end.

Definition edit_phone (old_number new_number : str) : method unit :=
  fun self =>
    let phone := find_phone self old_number in
    if truthy phone then
      seq (add_phone new_number) (remove_phone old_number) self
    else
      (Raise (ValueError (pystr "Phone number " ++ old_number
                          ++ pystr " not found.")), self).

Definition add_birthday (new_birthday : str) : method unit :=
  fun self =>
    match Birthday.init new_birthday with
    | Return birthday => (Return tt, mk (name self) (phones self) (Some birthday))
    | Raise e => (Raise e, self)
    end.

End Record_.

(* ================================================================== *)
(** ** The weekend helpers *)

Definition find_next_weekday (start_date : datetime.date) (weekday : Z)
  : outcome datetime.date :=
  let days_ahead := weekday - datetime.weekday start_date in
  let days_ahead := if days_ahead <=? 0 then days_ahead + 7 else days_ahead in
  datetime.add_days start_date days_ahead.

Definition adjust_for_weekend (birthday : datetime.date) : outcome datetime.date :=
  if 5 <=? datetime.weekday birthday then find_next_weekday birthday 0
  else Return birthday.

(* ================================================================== *)
(** ** [AddressBook] *)

Module AddressBook.

(** [self.data]: a dictionary keeps its keys in insertion order. *)
Definition t : Type := list (str * Record_.t).

(** [d[key] = v]: a key already present keeps its place. *)
Fixpoint setitem (d : t) (key : str) (v : Record_.t) : t :=
  match d with
  | [] => [(key, v)]
  | (k, w) :: d' =>
      if str_eqb k key then (k, v) :: d' else (k, w) :: setitem d' key v
  end.

(** [d.get(key)]. *)
Fixpoint get (d : t) (key : str) : option Record_.t :=
  match d with
  | [] => None
  | (k, w) :: d' => if str_eqb k key then Some w else get d' key
  end.

(** [key in d]. *)
Definition contains (d : t) (key : str) : bool := truthy (get d key).

(** [del d[key]], for a key that is present. *)
Fixpoint delitem (d : t) (key : str) : t :=
  match d with
  | [] => []
  | (k, w) :: d' => if str_eqb k key then d' else (k, w) :: delitem d' key
  end.

Definition values (d : t) : list Record_.t := map snd d.
Definition keys (d : t) : list str := map fst d.

Definition add_record (self : t) (record : Record_.t) : t :=
  setitem self (Name.value (Record_.name record)) record.

Definition find (self : t) (name : str) : option Record_.t := get self name.

Definition delete (self : t) (name : str) : t :=
  if contains self name then delitem self name else self.

(** One item of the report: the dictionary with the keys [name] and
    [congratulation_date]. *)
Record entry : Type := mk_entry { name : str; congratulation_date : str }.

(** The date the loop body calls [birthday_this_year] when it reaches
    the window test. *)
Definition birthday_this_year (today : datetime.date) (birthday : Birthday.t)
  : outcome datetime.date :=
  birthday_date <- datetime.strptime_dmY (Birthday.value birthday) ;;
  this_year <- datetime.replace_year birthday_date (datetime.year today) ;;
  if datetime.lt this_year today
  then datetime.replace_year birthday_date (datetime.year today + 1)
  else Return this_year.

(** The body of the [for] loop over [self.data.values()]. *)
Fixpoint report (records : list Record_.t) (days : Z) (today : datetime.date)
         (upcoming_birthdays : list entry) : outcome (list entry) :=
  match records with
  | [] => Return upcoming_birthdays
  | record :: records' =>
      match Record_.birthday record with
      | Some birthday =>
          this_year <- birthday_this_year today birthday ;;
          let days_until_birthday := datetime.sub_days this_year today in
          if (0 <=? days_until_birthday) && (days_until_birthday <=? days) then
            congratulation_date <- adjust_for_weekend this_year ;;
            report records' days today
              (upcoming_birthdays
               ++ [mk_entry (Name.value (Record_.name record))
                            (datetime.strftime_dmY congratulation_date)])
          else report records' days today upcoming_birthdays
      | None => report records' days today upcoming_birthdays
      end
  end.

(** [today] stands for the value of [date.today()] at the call. *)
Definition get_upcoming_birthdays (self : t) (days : Z) (today : datetime.date)
  : outcome (list entry) :=
  report (values self) days today [].

End AddressBook.

(* ================================================================== *)
(** ** Predicates of the statements *)

(** The fields [_check_date_fields] accepts: what every [date] object holds. *)
Definition valid_ymd (y m d : Z) : bool :=
  (1 <=? y) && (y <=? 9999) && (1 <=? m) && (m <=? 12)
  && (1 <=? d) && (d <=? datetime._days_in_month y m).

Definition valid_date (d : datetime.date) : bool :=
  valid_ymd (datetime.year d) (datetime.month d) (datetime.day d).

(** The tail of [_ord2ymd]: month and day from the offset in the year. *)
Definition month_day (leapyear : bool) (n : Z) : Z * Z :=
  let month := Z.shiftr (n + 50) 5 in
  let preceding :=
    datetime.index datetime._DAYS_BEFORE_MONTH month
    + datetime.b2z ((2 <? month) && leapyear) in
  let '(month, preceding) :=
    if n <? preceding
    then (month - 1,
          preceding - (datetime.index datetime._DAYS_IN_MONTH (month - 1)
                       + datetime.b2z ((month - 1 =? 2) && leapyear)))
    else (month, preceding) in
  (month, n - preceding + 1).

Definition month_day_ok (leapyear : bool) (n : Z) : bool :=
  let '(m, d) := month_day leapyear n in
  (1 <=? m) && (m <=? 12) && (1 <=? d)
  && (d <=? (if (m =? 2) && leapyear then 29
             else datetime.index datetime._DAYS_IN_MONTH m))
  && (datetime.index datetime._DAYS_BEFORE_MONTH m
      + datetime.b2z ((2 <? m) && leapyear) + d =? n + 1).

(** *** The interface of the command layer

    The handlers look a record up with [book.find(name)] and call a method
    on what they get; the dictionary holds the object itself, so what the
    method does to it is what the directory holds afterwards. *)

Definition call_method (book : AddressBook.t) (key attr : str)
           (m : Record_.method unit) : outcome unit * AddressBook.t :=
  match AddressBook.find book key with
  | Some record =>
      let '(o, record') := m record in (o, AddressBook.setitem book key record')
  | None =>
      (Raise (AttributeError (pystr "'NoneType' object has no attribute '"
                              ++ attr ++ pystr "'")), book)
  end.

Inductive operation : Type :=
| addPhone (key number : str)
| removePhone (key number : str)
| editPhone (key old new : str)
| setBirthday (key raw : str)
| addRecord (record : Record_.t)
| delete (name : str)
| upcomingBirthdays (days : Z) (today : datetime.date).

(** What a call does to the directory, and whether it raised. *)
Definition run (op : operation) (book : AddressBook.t)
  : outcome unit * AddressBook.t :=
  match op with
  | addPhone key number =>
      call_method book key (pystr "add_phone") (Record_.add_phone number)
  | removePhone key number =>
      call_method book key (pystr "remove_phone") (Record_.remove_phone number)
  | editPhone key old new =>
      call_method book key (pystr "edit_phone") (Record_.edit_phone old new)
  | setBirthday key raw =>
      call_method book key (pystr "add_birthday") (Record_.add_birthday raw)
  | addRecord record => (Return tt, AddressBook.add_record book record)
  | delete name => (Return tt, AddressBook.delete book name)
  | upcomingBirthdays days today =>
      (_ <- AddressBook.get_upcoming_birthdays book days today ;; Return tt, book)
  end.

(** The records stored under a name. *)
Definition entries_under (book : AddressBook.t) (name : str) : list Record_.t :=
  map snd (filter (fun kv => str_eqb (fst kv) name) book).

(** *** The language of the format *)

(** [a] matches the whole of [s]. *)
Definition full_match (a : datetime.alternative) (s : str) : bool :=
  match datetime.match_alternative a s with
  | Some (_, []) => true
  | _ => false
  end.

(** [s] is a text of the group: some alternative matches the whole of it. *)
Definition in_group (g : list datetime.alternative) (s : str) : bool :=
  existsb (fun a => full_match a s) g.

(** The number two, or four, ASCII digits write. *)
Definition digit_val (c : char) : Z := Z.of_N c - 48.
Definition number2 (a b : char) : Z := 10 * digit_val a + digit_val b.
Definition number4 (a b c d : char) : Z :=
  1000 * digit_val a + 100 * digit_val b + 10 * digit_val c + digit_val d.

(** *** The report *)

(** The year projection of the record's birthday, if it has one, is defined. *)
Definition projectable (today : datetime.date) (record : Record_.t) : bool :=
  match Record_.birthday record with
  | Some b =>
      match AddressBook.birthday_this_year today b with
      | Return _ => true
      | Raise _ => false
      end
  | None => true
  end.

(** The record has a birthday whose next occurrence is 0 to [days] days
    after [today]. *)
Definition in_window (days : Z) (today : datetime.date) (record : Record_.t)
  : bool :=
  match Record_.birthday record with
  | Some b =>
      match AddressBook.birthday_this_year today b with
      | Return d =>
          (0 <=? datetime.sub_days d today) && (datetime.sub_days d today <=? days)
      | Raise _ => false
      end
  | None => false
  end.

(** [e] is the report's entry for [record]: its name, and its birthday's
    next occurrence, moved off the weekend, as text. *)
Definition reported (today : datetime.date) (record : Record_.t)
           (e : AddressBook.entry) : Prop :=
  exists b d c,
    Record_.birthday record = Some b
    /\ AddressBook.birthday_this_year today b = Return d
    /\ adjust_for_weekend d = Return c
    /\ e = AddressBook.mk_entry (Name.value (Record_.name record))
                                (datetime.strftime_dmY c).

(** Two digits, a dot, two digits, a dot, four digits. *)
Definition is_DD_MM_YYYY (s : str) : bool :=
  match s with
  | [d1; d2; p; m1; m2; q; y1; y2; y3; y4] =>
      ascii_digit d1 && ascii_digit d2 && N.eqb p DOT
      && ascii_digit m1 && ascii_digit m2 && N.eqb q DOT
      && ascii_digit y1 && ascii_digit y2 && ascii_digit y3 && ascii_digit y4
  | _ => false
  end.

Definition record_name (record : Record_.t) : str :=
  Name.value (Record_.name record).

(** The directory as the program builds it: one entry per key, and every
    record under its own name. *)
Definition well_formed (book : AddressBook.t) : Prop :=
  NoDup (AddressBook.keys book)
  /\ Forall (fun kv => record_name (snd kv) = fst kv) book.

Definition MONDAY : Z := 0.
Definition SATURDAY : Z := 5.
Definition SUNDAY : Z := 6.

(* ================================================================== *)
(** ** Sample data *)

Definition ann : Record_.t := Record_.init (pystr "Ann").
Definition ann' : Record_.t :=
  snd (Record_.add_phone (pystr "0501234567") (Record_.init (pystr "Ann"))).


(** A record holding the same number twice, around another one. *)
Definition two_same : Record_.t :=
  Record_.mk (Name.mk (pystr "Ann"))
    [Phone.mk 1 (pystr "0501234567"); Phone.mk 2 (pystr "0671112233");
     Phone.mk 3 (pystr "0501234567")] None.

(** Ten times U+00B2, SUPERSCRIPT TWO. *)
Definition superscript_twos : str := repeat 178%N 10.

(** A record born on a leap day, one born on 12 June, and a directory
    holding the two, built by the calls of the program. *)
Definition leap_ann : Record_.t :=
  snd (Record_.add_birthday (pystr "29.02.2020") (Record_.init (pystr "Ann"))).

Definition bob : Record_.t :=
  snd (Record_.add_birthday (pystr "12.06.1990") (Record_.init (pystr "Bob"))).

Definition leap_book : AddressBook.t :=
  AddressBook.add_record (AddressBook.add_record [] leap_ann) bob.

Definition cid : Record_.t :=
  snd (Record_.add_birthday (pystr "15.06.1990") (Record_.init (pystr "Cid"))).

Definition june_book : AddressBook.t :=
  AddressBook.add_record
    (AddressBook.add_record (AddressBook.add_record [] bob) ann) cid.

(** A record whose birthday in 2024 is before 10 June. *)
Definition passed : Record_.t :=
  snd (Record_.add_birthday (pystr "08.06.1990") (Record_.init (pystr "Eve"))).

(* ================================================================== *)
(** ** The text of a record and of the directory *)

Definition NEWLINE : str := [10%N].

(** [sep.join(items)]. *)
Fixpoint str_join (sep : str) (items : list str) : str :=
  match items with
  | [] => []
  | x :: rest =>
      match rest with
      | [] => x
      | _ :: _ => x ++ sep ++ str_join sep rest
      end
  end.

(** [str(self.birthday)]: [Field.__str__] gives the value; without a
    birthday the attribute is [None]. *)
Definition birthday_str (birthday : option Birthday.t) : str :=
  match birthday with
  | Some b => Birthday.value b
  | None => pystr "None"
  end.

(** The f-string [Record.__str__] and [ConsoleDisplay.show_contact] share. *)
Definition contact_line (record : Record_.t) : str :=
  pystr "Contact name: " ++ Name.value (Record_.name record)
  ++ pystr ", phones: "
  ++ str_join (pystr "; ") (map Phone.value (Record_.phones record))
  ++ pystr ", birthday: " ++ birthday_str (Record_.birthday record)
  ++ pystr ".".

(** [Record.__str__]. *)
Definition Record_str (self : Record_.t) : str := contact_line self.

(** [AddressBook.__str__]. *)
Definition AddressBook_str (self : AddressBook.t) : str :=
  str_join NEWLINE (map Record_str (AddressBook.values self)).

(* ================================================================== *)
(** ** The display *)

(** The abstract class [UserDisplay]: a display has a state [D] that its
    four methods change. *)
Class UserDisplay (D : Type) : Type := {
  show_contact : Record_.t -> D -> D;
  show_all_contacts : AddressBook.t -> D -> D;
  show_message : str -> D -> D;
  show_error : str -> D -> D
}.

(** What the program has written to the standard output, oldest first. *)
Definition stdout : Type := list str.

(** [print(s)]: the text and a line end. *)
Definition print (s : str) (out : stdout) : stdout := out ++ [s ++ NEWLINE].

Definition console_show_contact (record : Record_.t) (out : stdout) : stdout :=
  print (contact_line record) out.

(** [if records:] is true of a dictionary with an entry. *)
Definition console_show_all_contacts (records : AddressBook.t) (out : stdout)
  : stdout :=
  match records with
  | _ :: _ =>
      fold_left (fun out record => console_show_contact record out)
                (AddressBook.values records) out
  | [] => print (pystr "No contacts found.") out
  end.

#[export] Instance ConsoleDisplay : UserDisplay stdout := {
  show_contact := console_show_contact;
  show_all_contacts := console_show_all_contacts;
  show_message := print;
  show_error := fun error_message => print (pystr "Error: " ++ error_message)
}.

(* ================================================================== *)
(** ** The command handlers *)

(** The exceptions the command layer can meet: those of the core, the
    two others [input_error] names, and the end of the input. *)
Inductive py_exn : Type :=
| Core (e : exn)
| IndexError (msg : str)
| KeyError (msg : str)
| EOFError (msg : str).

Inductive result (A : Type) : Type :=
| Done (a : A)
| Thrown (e : py_exn).
Arguments Done {A} a.
Arguments Thrown {A} e.

(** [name, phone, *_ = args] and [name, old_phone, new_phone = args]. *)
Definition unpack_error_at_least (n : Z) (args : list str) : py_exn :=
  Core (ValueError (pystr "not enough values to unpack (expected at least "
                    ++ str_of_int n ++ pystr ", got " ++ str_of_int (len args)
                    ++ pystr ")")).

Definition unpack_error_exactly (n : Z) (args : list str) : py_exn :=
  if len args <? n then
    Core (ValueError (pystr "not enough values to unpack (expected "
                      ++ str_of_int n ++ pystr ", got " ++ str_of_int (len args)
                      ++ pystr ")"))
  else
    Core (ValueError (pystr "too many values to unpack (expected "
                      ++ str_of_int n ++ pystr ")")).

(** Truth value of a string: it is not empty. *)
Definition nonempty (s : str) : bool :=
  match s with [] => false | _ :: _ => true end.

Section Handlers.

Context {D : Type} `{UserDisplay D}.

(** A handler works on the directory and the display it is given, and
    leaves both in some state, also when an exception ends it. *)
Definition command (A : Type) : Type :=
  AddressBook.t * D -> result A * (AddressBook.t * D).

Definition ret {A : Type} (a : A) : command A := fun st => (Done a, st).

Definition throw {A : Type} (e : py_exn) : command A := fun st => (Thrown e, st).

Definition and_then {A B : Type} (m : command A) (k : A -> command B)
  : command B :=
  fun st =>
    match m st with
    | (Done a, st') => k a st'
    | (Thrown e, st') => (Thrown e, st')
    end.

Notation "x <~ m ;; k" := (and_then m (fun x => k))
  (at level 61, m at next level, right associativity).
Notation "m ;;; k" := (and_then m (fun _ => k))
  (at level 61, right associativity).

(** [book.find(name)]. *)
Definition book_find (name : str) : command (option Record_.t) :=
  fun st => (Done (AddressBook.find (fst st) name), st).

(** [book.add_record(record)]. *)
Definition book_add_record (record : Record_.t) : command unit :=
  fun st => (Done tt, (AddressBook.add_record (fst st) record, snd st)).

(** A method call on the record found under [key]. *)
Definition on_record (key attr : str) (m : Record_.method unit) : command unit :=
  fun st =>
    let '(o, book') := call_method (fst st) key attr m in
    (match o with Return _ => Done tt | Raise e => Thrown (Core e) end,
     (book', snd st)).

(** A call of a method of the display. *)
Definition display (show : D -> D) : command unit :=
  fun st => (Done tt, (fst st, show (snd st))).

(** The decorator: the three exceptions end the call with a text as its
    value; the wrapped functions return nothing, which is [None]. *)
Definition input_error {X : Type} (func : X -> command unit)
  : X -> command (option str) :=
  fun x st =>
    match func x st with
    | (Done _, st') => (Done None, st')
    | (Thrown (Core (ValueError _)), st') =>
        (Done (Some (pystr "Enter name and phone/birthday please.")), st')
    | (Thrown (KeyError _), st') =>
        (Done (Some (pystr "Please enter username.")), st')
    | (Thrown (IndexError _), st') =>
        (Done (Some (pystr "Invalid! Please provide the correct arguments.")), st')
    | (Thrown e, st') => (Thrown e, st')
    end.

Definition add_contact : list str -> command (option str) :=
  input_error (fun args =>
    match args with
    | name :: phone :: _ =>
        record <~ book_find name ;;
        message <~ match record with
                   | None =>
                       book_add_record (Record_.init name) ;;;
                       ret (pystr "Contact added.")
                   | Some _ => ret (pystr "Contact updated.")
                   end ;;
        (if nonempty phone
         then on_record name (pystr "add_phone") (Record_.add_phone phone)
         else ret tt) ;;;
        display (show_message message)
    | _ => throw (unpack_error_at_least 2 args)
    end).

Definition change_contact : list str -> command (option str) :=
  input_error (fun args =>
    match args with
    | [name; old_phone; new_phone] =>
        record <~ book_find name ;;
        if truthy record then
          on_record name (pystr "edit_phone")
                    (Record_.edit_phone old_phone new_phone) ;;;
          display (show_message (pystr "Contact changed."))
        else display (show_error (pystr "Contact not found."))
    | _ => throw (unpack_error_exactly 3 args)
    end).

Definition show_phone_num : list str -> command (option str) :=
  input_error (fun args =>
    match args with
    | name :: _ =>
        record <~ book_find name ;;
        match record with
        | Some record =>
            display (show_message
                       (str_join (pystr ", ")
                                 (map Phone.value (Record_.phones record))))
        | None => display (show_error (pystr "Contact not found."))
        end
    | [] => throw (IndexError (pystr "list index out of range"))
    end).

Definition show_contacts : command unit :=
  fun st => display (show_all_contacts (fst st)) st.

Definition add_birthday : list str -> command (option str) :=
  input_error (fun args =>
    match args with
    | name :: birthday :: _ =>
        record <~ book_find name ;;
        if truthy record then
          on_record name (pystr "add_birthday") (Record_.add_birthday birthday) ;;;
          display (show_message (pystr "Birthday added."))
        else display (show_error (pystr "Contact not found."))
    | _ => throw (unpack_error_at_least 2 args)
    end).

Definition show_birthday : list str -> command (option str) :=
  input_error (fun args =>
    match args with
    | name :: _ =>
        record <~ book_find name ;;
        match record with
        | Some record =>
            match Record_.birthday record with
            | Some birthday => display (show_message (Birthday.value birthday))
            | None =>
                display (show_error (pystr "No birthday found for this contact."))
            end
        | None =>
            display (show_error (pystr "No birthday found for this contact."))
        end
    | [] => throw (IndexError (pystr "list index out of range"))
    end).

(** [today] stands for the value of [date.today()] at the call. *)
Definition birthdays (today : datetime.date) : command (option str) :=
  input_error (fun _ : unit =>
    fun st =>
      match AddressBook.get_upcoming_birthdays (fst st) 7 today with
      | Raise e => (Thrown (Core e), st)
      | Return upcoming_birthdays =>
          match upcoming_birthdays with
          | [] =>
              display (show_message (pystr "No birthdays in the next 7 days.")) st
          | _ :: _ =>
              display
                (show_message
                   (str_join NEWLINE
                      (map (fun b => AddressBook.name b ++ pystr ": "
                                     ++ AddressBook.congratulation_date b)
                           upcoming_birthdays))) st
          end
      end) tt.

End Handlers.

(* ================================================================== *)
(** ** Command lines and the main loop *)

(** The code points [str.isspace] accepts; [split] and [strip] without
    arguments work with the same ones. *)
Definition whitespace_ranges : list (N * N) :=
  [(9, 13); (28, 32); (133, 133); (160, 160); (5760, 5760); (8192, 8202);
   (8232, 8233); (8239, 8239); (8287, 8287); (12288, 12288)]%N.

Definition isspace_char (c : char) : bool := existsb (in_range c) whitespace_ranges.

(** [s.split()]: the runs of characters that are not white space;
    [word] is the run being read. *)
Fixpoint split_from (s : str) (word : str) : list str :=
  match s with
  | [] => match word with [] => [] | _ :: _ => [word] end
  | c :: s' =>
      if isspace_char c then
        match word with
        | [] => split_from s' []
        | _ :: _ => word :: split_from s' []
        end
      else split_from s' (word ++ [c])
  end.

Definition str_split (s : str) : list str := split_from s [].

Fixpoint lstrip_space (s : str) : str :=
  match s with
  | c :: s' => if isspace_char c then lstrip_space s' else s
  | [] => []
  end.

(** [s.strip()]. *)
Definition str_strip (s : str) : str := rev (lstrip_space (rev (lstrip_space s))).

Definition is_ascii (c : char) : bool := N.ltb c 128.

Definition ascii_lower_char (c : char) : char :=
  if (N.leb 65 c && N.leb c 90)%N then (c + 32)%N else c.

(** [s.lower()].  On ASCII text it moves the capital letters; for other
    text it is the case mapping of Unicode, taken as [unicode_lower]. *)
Definition str_lower (unicode_lower : str -> str) (s : str) : str :=
  if forallb is_ascii s then map ascii_lower_char s else unicode_lower s.

(** [parse_input]: the tuple of the command and its arguments. *)
Definition parse_input (unicode_lower : str -> str) (user_input : str)
  : result (str * list str) :=
  match str_split user_input with
  | cmd :: args => Done (str_lower unicode_lower (str_strip cmd), args)
  | [] =>
      Thrown (Core (ValueError
        (pystr "not enough values to unpack (expected at least 1, got 0)")))
  end.

(** [load_data]: the directory pickled in the file, an empty one when
    there is no file. *)
Definition load_data (file : option AddressBook.t) : AddressBook.t :=
  match file with Some book => book | None => [] end.

(** How [main] ends: it saves the directory after the loop, or an
    exception leaves it with the directory unsaved. *)
Inductive ending : Type :=
| Saved (book : AddressBook.t)
| Aborted (e : py_exn) (book : AddressBook.t).

Definition PROMPT : str := pystr "Enter a command: ".

(** After a handler: the loop goes on, unless an exception came out. *)
Definition carry_on {A : Type} (r : result A * (AddressBook.t * stdout))
  : option ending * (AddressBook.t * stdout) :=
  match r with
  | (Done _, st') => (None, st')
  | (Thrown e, st') => (Some (Aborted e (fst st')), st')
  end.

(** One turn of the loop on a parsed line: [None] when the loop goes on.
    What a handler returns is dropped. *)
Definition dispatch (command : str) (args : list str) (today : datetime.date)
           (st : AddressBook.t * stdout)
  : option ending * (AddressBook.t * stdout) :=
  if str_eqb command (pystr "close") || str_eqb command (pystr "exit") then
    let st' := snd (display (show_message (pystr "Good bye!")) st) in
    (Some (Saved (fst st')), st')
  else if str_eqb command (pystr "hello") then
    carry_on (display (show_message (pystr "How can I help you?")) st)
  else if str_eqb command (pystr "add") then carry_on (add_contact args st)
  else if str_eqb command (pystr "change") then carry_on (change_contact args st)
  else if str_eqb command (pystr "phone") then carry_on (show_phone_num args st)
  else if str_eqb command (pystr "all") then carry_on (show_contacts st)
  else if str_eqb command (pystr "add-birthday") then
    carry_on (add_birthday args st)
  else if str_eqb command (pystr "show-birthday") then
    carry_on (show_birthday args st)
  else if str_eqb command (pystr "birthdays") then carry_on (birthdays today st)
  else (None, (fst st, print (pystr "Invalid command.") (snd st))).

(** The [while] loop.  [inputs] are the lines [input()] returns, each with
    the date the clock shows while its command runs; when they run out
    [input()] raises [EOFError]. *)
Fixpoint loop (unicode_lower : str -> str)
         (inputs : list (str * datetime.date)) (st : AddressBook.t * stdout)
  : ending * stdout :=
  let out := snd st ++ [PROMPT] in
  match inputs with
  | [] => (Aborted (EOFError (pystr "EOF when reading a line")) (fst st), out)
  | (user_input, today) :: inputs' =>
      match parse_input unicode_lower user_input with
      | Thrown e => (Aborted e (fst st), out)
      | Done (command, args) =>
          match dispatch command args today (fst st, out) with
          | (Some e, st') => (e, snd st')
          | (None, st') => loop unicode_lower inputs' st'
          end
      end
  end.

Definition main (unicode_lower : str -> str) (file : option AddressBook.t)
           (inputs : list (str * datetime.date)) : ending * stdout :=
  loop unicode_lower inputs
       (load_data file, print (pystr "Welcome to the assistant bot!") []).


(* ================================================================== *)
(** ** Predicates of the further properties *)

(** The phone passes the check of [Phone.__init__]. *)
Definition valid_phone (phone : Phone.t) : bool :=
  isdigit (Phone.value phone) && (len (Phone.value phone) =? 10).

(** The text of the birthday passes the check of [Birthday.__init__]. *)
Definition valid_birthday (birthday : Birthday.t) : bool :=
  match datetime.strptime_dmY (Birthday.value birthday) with
  | Return _ => true
  | Raise _ => false
  end.

(** Every field of the record passes the check of its class. *)
Definition valid_record (record : Record_.t) : bool :=
  forallb valid_phone (Record_.phones record)
  && match Record_.birthday record with
     | Some birthday => valid_birthday birthday
     | None => true
     end.

(** The birthday of the record, if it has one, is a date other than
    29 February. *)
Definition no_leap_day (record : Record_.t) : bool :=
  match Record_.birthday record with
  | Some birthday =>
      match datetime.strptime_dmY (Birthday.value birthday) with
      | Return d => negb ((datetime.month d =? 2) && (datetime.day d =? 29))
      | Raise _ => false
      end
  | None => true
  end.

(** [e] is an entry for a record of [book] whose birthday falls 0 to
    [days] days after [today], dated on a working day that is the birthday
    or at most two days after it. *)
Definition congratulated (book : AddressBook.t) (days : Z)
           (today : datetime.date) (e : AddressBook.entry) : Prop :=
  exists record b d c,
    In record (AddressBook.values book)
    /\ AddressBook.name e = record_name record
    /\ Record_.birthday record = Some b
    /\ AddressBook.birthday_this_year today b = Return d
    /\ adjust_for_weekend d = Return c
    /\ AddressBook.congratulation_date e = datetime.strftime_dmY c
    /\ datetime.weekday c <= 4
    /\ 0 <= datetime.sub_days d today <= days
    /\ 0 <= datetime.sub_days c d <= 2
    /\ 0 <= datetime.sub_days c today <= days + 2.

(** The decorated handlers, and a call of one. *)
Inductive handler : Type :=
| AddContact
| ChangeContact
| ShowPhoneNum
| AddBirthday
| ShowBirthday
| Birthdays (today : datetime.date).

Definition handle {D : Type} `{UserDisplay D} (h : handler) (args : list str)
  : command (option str) :=
  match h with
  | AddContact => add_contact args
  | ChangeContact => change_contact args
  | ShowPhoneNum => show_phone_num args
  | AddBirthday => add_birthday args
  | ShowBirthday => show_birthday args
  | Birthdays today => birthdays today
  end.

(** The texts [input_error] returns. *)
Definition VALUE_ERROR_TEXT : str := pystr "Enter name and phone/birthday please.".
Definition KEY_ERROR_TEXT : str := pystr "Please enter username.".
Definition INDEX_ERROR_TEXT : str :=
  pystr "Invalid! Please provide the correct arguments.".

(** A word of a command line: not empty, and without white space. *)
Definition is_token (s : str) : bool :=
  nonempty s && forallb (fun c => negb (isspace_char c)) s.

Definition BLANK_LINE_ERROR : py_exn :=
  Core (ValueError
          (pystr "not enough values to unpack (expected at least 1, got 0)")).


(* ================================================================== *)
(** * Properties *)

(** ** Strings *)

Lemma str_eqb_eq (a b : str) : str_eqb a b = true <-> a = b.
Proof.
  revert b. induction a as [|x a IH]; destruct b as [|y b]; cbn;
    try (split; [discriminate | intro E; inversion E]); [tauto|].
  rewrite andb_true_iff, N.eqb_eq, IH. split.
  - intros [-> ->]. reflexivity.
  - intro E. inversion E. auto.
Qed.

Lemma str_eqb_refl (a : str) : str_eqb a a = true.
Proof. apply str_eqb_eq. reflexivity. Qed.

Lemma str_eqb_neq (a b : str) : str_eqb a b = false <-> a <> b.
Proof.
  rewrite <- str_eqb_eq. destruct (str_eqb a b); split; congruence.
Qed.

(** ** The calendar *)

Section Calendar.
Import datetime.

Lemma dby_decomp a b c e :
  0 <= a -> 0 <= b <= 3 -> 0 <= c <= 24 -> 0 <= e <= 3 ->
  _days_before_year (400 * a + 100 * b + 4 * c + e + 1)
  = 146097 * a + 36524 * b + 1461 * c + 365 * e.
Proof.
  intros. unfold _days_before_year. cbv zeta.
  Z.div_mod_to_equations. lia.
Qed.

Lemma leap_decomp a b c e :
  0 <= a -> 0 <= b <= 3 -> 0 <= c <= 24 -> 0 <= e <= 3 ->
  _is_leap (400 * a + 100 * b + 4 * c + e + 1)
  = (e =? 3) && (negb (c =? 24) || (b =? 3)).
Proof.
  intros. unfold _is_leap.
  destruct (Z.eqb_spec e 3), (Z.eqb_spec c 24), (Z.eqb_spec b 3); cbn [andb orb negb];
  repeat match goal with
  | |- context [?x mod ?k =? 0] => destruct (Z.eqb_spec (x mod k) 0)
  end; cbn [andb orb negb]; try reflexivity; exfalso; Z.div_mod_to_equations; lia.
Qed.


Lemma month_day_table :
  forallb (fun k => month_day_ok false (Z.of_nat k)) (seq 0 365)
  && forallb (fun k => month_day_ok true (Z.of_nat k)) (seq 0 366) = true.
Proof. vm_compute. reflexivity. Qed.

Lemma month_day_spec leapyear n :
  0 <= n < 365 + b2z leapyear -> month_day_ok leapyear n = true.
Proof.
  intros Hn. pose proof month_day_table as T.
  apply andb_true_iff in T. destruct T as [T0 T1].
  rewrite forallb_forall in T0, T1.
  rewrite <- (Z2Nat.id n) by lia.
  destruct leapyear; cbn [b2z] in Hn; [apply T1 | apply T0];
    apply in_seq; lia.
Qed.

Lemma ord2ymd_unfold n :
  _ord2ymd n =
  let n := n - 1 in
  let n400 := n / _DI400Y in
  let n := n mod _DI400Y in
  let n100 := n / _DI100Y in
  let n := n mod _DI100Y in
  let n4 := n / _DI4Y in
  let n := n mod _DI4Y in
  let n1 := n / 365 in
  let n := n mod 365 in
  let year := n400 * 400 + 1 + (n100 * 100 + n4 * 4 + n1) in
  if (n1 =? 4) || (n100 =? 4) then (year - 1, 12, 31)
  else
    let '(m, d) := month_day ((n1 =? 3) && (negb (n4 =? 24) || (n100 =? 3))) n in
    (year, m, d).
Proof.
  unfold _ord2ymd, month_day. cbv zeta.
  destruct (_ || _); [reflexivity|].
  destruct (_ <? _); reflexivity.
Qed.

Ltac dec31 :=
  change (index _DAYS_BEFORE_MONTH 12) with 334;
  change (index _DAYS_IN_MONTH 12) with 31;
  change (12 =? 2) with false; change (2 <? 12) with true;
  change (3 =? 3) with true; change (24 =? 24) with true;
  cbn [andb orb negb b2z].

Lemma ord2ymd_spec n :
  1 <= n <= _MAXORDINAL ->
  let '(y, m, d) := _ord2ymd n in
  valid_ymd y m d = true /\ _ymd2ord y m d = n.
Proof.
  intros Hn. rewrite ord2ymd_unfold. cbv zeta.
  unfold _MAXORDINAL, _DI400Y, _DI100Y, _DI4Y in *.
  set (n0 := n - 1).
  pose proof (Z.div_mod n0 146097 ltac:(lia)) as E1.
  pose proof (Z.mod_pos_bound n0 146097 ltac:(lia)) as B1.
  set (q := n0 / 146097) in *. set (r := n0 mod 146097) in *.
  pose proof (Z.div_mod r 36524 ltac:(lia)) as E2.
  pose proof (Z.mod_pos_bound r 36524 ltac:(lia)) as B2.
  set (b := r / 36524) in *. set (r2 := r mod 36524) in *.
  pose proof (Z.div_mod r2 1461 ltac:(lia)) as E3.
  pose proof (Z.mod_pos_bound r2 1461 ltac:(lia)) as B3.
  set (c := r2 / 1461) in *. set (r3 := r2 mod 1461) in *.
  pose proof (Z.div_mod r3 365 ltac:(lia)) as E4.
  pose proof (Z.mod_pos_bound r3 365 ltac:(lia)) as B4.
  set (e := r3 / 365) in *. set (r4 := r3 mod 365) in *.
  assert (Hq : 0 <= q <= 24) by (subst n0; lia).
  assert (Hb : 0 <= b <= 4) by lia.
  assert (Hc : 0 <= c <= 24) by lia.
  assert (He : 0 <= e <= 4) by lia.
  clearbody q r b r2 c r3 e r4.
  destruct (Z.eqb_spec e 4) as [He4|He4]; cbn [orb].
  - (* the last day of a leap year inside a 4-year cycle *)
    assert (c <= 23) by lia.
    replace (q * 400 + 1 + (b * 100 + c * 4 + e) - 1)
      with (400 * q + 100 * b + 4 * c + 3 + 1) by lia.
    unfold valid_ymd, _ymd2ord, _days_in_month, _days_before_month.
    rewrite dby_decomp, leap_decomp by lia.
    destruct (Z.eqb_spec b 4); [lia|].
    replace (c =? 24) with false by (symmetry; apply Z.eqb_neq; lia).
    dec31. split; [|subst n0; lia].
    repeat (apply andb_true_intro; split); apply Z.leb_le; lia.
  - destruct (Z.eqb_spec b 4) as [Hb4|Hb4].
    + (* the last day of a 400-year cycle *)
      replace (q * 400 + 1 + (b * 100 + c * 4 + e) - 1)
        with (400 * q + 100 * 3 + 4 * 24 + 3 + 1) by lia.
      unfold valid_ymd, _ymd2ord, _days_in_month, _days_before_month.
      rewrite dby_decomp, leap_decomp by lia.
      dec31. split; [|subst n0; lia].
      repeat (apply andb_true_intro; split); apply Z.leb_le; lia.
    + set (leapyear := (e =? 3) && (negb (c =? 24) || (b =? 3))).
      assert (Hr4 : 0 <= r4 < 365 + b2z leapyear)
        by (destruct leapyear; cbn [b2z]; lia).
      pose proof (month_day_spec leapyear r4 Hr4) as M.
      unfold month_day_ok in M.
      destruct (month_day leapyear r4) as [m d].
      repeat (apply andb_true_iff in M; destruct M as [M ?]).
      replace (q * 400 + 1 + (b * 100 + c * 4 + e))
        with (400 * q + 100 * b + 4 * c + e + 1) by lia.
      unfold valid_ymd, _ymd2ord, _days_in_month, _days_before_month.
      rewrite dby_decomp, leap_decomp by lia. fold leapyear.
      split.
      * repeat (apply andb_true_intro; split); try assumption;
          apply Z.leb_le; lia.
      * apply Z.eqb_eq in H. subst n0. lia.
Qed.

Lemma dby_succ y :
  _days_before_year (y + 1) = _days_before_year y + 365 + b2z (_is_leap y).
Proof.
  unfold _days_before_year, _is_leap. cbv zeta.
  repeat match goal with
  | |- context [?x mod ?k =? 0] => destruct (Z.eqb_spec (x mod k) 0)
  end; cbn [andb orb negb b2z]; Z.div_mod_to_equations; lia.
Qed.

Lemma dby_mono y y' : y <= y' -> _days_before_year y <= _days_before_year y'.
Proof.
  intros H. unfold _days_before_year. cbv zeta.
  Z.div_mod_to_equations. lia.
Qed.

Ltac month_cases m :=
  let H := fresh in
  assert (H : m = 1 \/ m = 2 \/ m = 3 \/ m = 4 \/ m = 5 \/ m = 6 \/ m = 7
              \/ m = 8 \/ m = 9 \/ m = 10 \/ m = 11 \/ m = 12) by lia;
  repeat (destruct H as [H | H]); subst m.

Ltac is_bool_value v := match v with true => idtac | false => idtac end.

(** Evaluates the table look-ups and the tests on closed numbers. *)
Ltac eval_index :=
  repeat match goal with
  | |- context [index ?t ?k] =>
      let v := eval vm_compute in (index t k) in change (index t k) with v
  | H : context [index ?t ?k] |- _ =>
      let v := eval vm_compute in (index t k) in change (index t k) with v in H
  | |- context [Z.eqb ?a ?b] =>
      let v := eval vm_compute in (Z.eqb a b) in
      is_bool_value v; change (Z.eqb a b) with v
  | H : context [Z.eqb ?a ?b] |- _ =>
      let v := eval vm_compute in (Z.eqb a b) in
      is_bool_value v; change (Z.eqb a b) with v in H
  | |- context [Z.ltb ?a ?b] =>
      let v := eval vm_compute in (Z.ltb a b) in
      is_bool_value v; change (Z.ltb a b) with v
  | H : context [Z.ltb ?a ?b] |- _ =>
      let v := eval vm_compute in (Z.ltb a b) in
      is_bool_value v; change (Z.ltb a b) with v in H
  end;
  cbn [andb orb negb b2z] in *.

Lemma valid_ymd_iff y m d :
  valid_ymd y m d = true <->
  1 <= y <= 9999 /\ 1 <= m <= 12 /\ 1 <= d <= _days_in_month y m.
Proof.
  unfold valid_ymd. rewrite !andb_true_iff, !Z.leb_le. lia.
Qed.

(** Day of the year of a valid date: between 1 and the length of the year. *)
Lemma day_of_year_bounds y m d :
  1 <= m <= 12 -> 1 <= d <= _days_in_month y m ->
  1 <= _days_before_month y m + d <= 365 + b2z (_is_leap y).
Proof.
  intros Hm Hd. unfold _days_in_month, _days_before_month in *.
  month_cases m; destruct (_is_leap y); eval_index; lia.
Qed.

(** Within a year the day of the year orders dates as months and days do. *)
Lemma day_of_year_lt y m d m' d' :
  1 <= m <= 12 -> 1 <= d <= _days_in_month y m ->
  1 <= m' <= 12 -> 1 <= d' <= _days_in_month y m' ->
  (m < m' \/ (m = m' /\ d < d')) ->
  _days_before_month y m + d < _days_before_month y m' + d'.
Proof.
  intros Hm Hd Hm' Hd' [Hlt | [-> Hlt]]; [|lia].
  unfold _days_in_month, _days_before_month in *.
  month_cases m; month_cases m'; try lia;
    destruct (_is_leap y); eval_index; lia.
Qed.

Lemma new_valid y m d :
  valid_ymd y m d = true -> new y m d = Return (mkdate y m d).
Proof.
  intros V. apply valid_ymd_iff in V. unfold new, _check_date_fields, MINYEAR, MAXYEAR.
  replace ((1 <=? y) && (y <=? 9999)) with true
    by (symmetry; apply andb_true_iff; rewrite !Z.leb_le; lia).
  replace ((1 <=? m) && (m <=? 12)) with true
    by (symmetry; apply andb_true_iff; rewrite !Z.leb_le; lia).
  replace ((1 <=? d) && (d <=? _days_in_month y m)) with true
    by (symmetry; apply andb_true_iff; rewrite !Z.leb_le; lia).
  reflexivity.
Qed.

Lemma new_invalid y m d :
  valid_ymd y m d = false -> exists msg, new y m d = Raise (ValueError msg).
Proof.
  intros V. unfold new, _check_date_fields, MINYEAR, MAXYEAR.
  destruct ((1 <=? y) && (y <=? 9999)) eqn:Ey; cbn [negb]; [|eexists; reflexivity].
  destruct ((1 <=? m) && (m <=? 12)) eqn:Em; cbn [negb]; [|eexists; reflexivity].
  destruct ((1 <=? d) && (d <=? _days_in_month y m)) eqn:Ed; cbn [negb];
    [|eexists; reflexivity].
  apply andb_true_iff in Ey, Em, Ed. rewrite !Z.leb_le in Ey, Em, Ed.
  assert (valid_ymd y m d = true) by (apply valid_ymd_iff; lia). congruence.
Qed.

Lemma new_Return y m d x :
  new y m d = Return x -> x = mkdate y m d /\ valid_ymd y m d = true.
Proof.
  intros H. destruct (valid_ymd y m d) eqn:V.
  - rewrite (new_valid _ _ _ V) in H. inversion H. auto.
  - destruct (new_invalid _ _ _ V) as [msg E]. congruence.
Qed.

Lemma toordinal_bounds d : valid_date d = true -> 1 <= toordinal d <= _MAXORDINAL.
Proof.
  intros V. apply valid_ymd_iff in V. destruct V as (Hy & Hm & Hd).
  unfold toordinal, _ymd2ord, _MAXORDINAL.
  pose proof (day_of_year_bounds _ _ _ Hm Hd) as B.
  pose proof (dby_mono 1 (year d) ltac:(lia)) as L.
  pose proof (dby_mono (year d + 1) 10000 ltac:(lia)) as U.
  rewrite dby_succ in U.
  change (_days_before_year 1) with 0 in L.
  change (_days_before_year 10000) with 3652059 in U. lia.
Qed.

(** Dates are ordered as their ordinals are. *)
Lemma lt_ordinal a b :
  valid_date a = true -> valid_date b = true ->
  (lt a b = true <-> toordinal a < toordinal b).
Proof.
  intros Va Vb. apply valid_ymd_iff in Va, Vb.
  destruct Va as (Hya & Hma & Hda), Vb as (Hyb & Hmb & Hdb).
  unfold lt, toordinal, _ymd2ord.
  rewrite !orb_true_iff, !andb_true_iff, !orb_true_iff, !andb_true_iff,
    !Z.ltb_lt, !Z.eqb_eq.
  pose proof (day_of_year_bounds _ _ _ Hma Hda) as Ba.
  pose proof (day_of_year_bounds _ _ _ Hmb Hdb) as Bb.
  destruct (Z.lt_trichotomy (year a) (year b)) as [Hy | [Hy | Hy]].
  - pose proof (dby_mono (year a + 1) (year b) ltac:(lia)) as M.
    rewrite dby_succ in M. lia.
  - rewrite Hy in *.
    destruct (Z.lt_trichotomy (month a) (month b)) as [Hm | [Hm | Hm]].
    + pose proof (day_of_year_lt (year b) _ _ _ _ Hma Hda Hmb Hdb ltac:(lia)). lia.
    + rewrite Hm in *. lia.
    + pose proof (day_of_year_lt (year b) _ _ _ _ Hmb Hdb Hma Hda ltac:(lia)). lia.
  - pose proof (dby_mono (year b + 1) (year a) ltac:(lia)) as M.
    rewrite dby_succ in M. lia.
Qed.

Lemma lt_irrefl_or_eq a b :
  lt a b = false -> lt b a = false -> a = b.
Proof.
  destruct a as [ya ma da], b as [yb mb db]. unfold lt. cbn [year month day].
  intros H1 H2.
  apply orb_false_iff in H1, H2. destruct H1 as [H1 H1'], H2 as [H2 H2'].
  apply Z.ltb_ge in H1, H2. assert (ya = yb) by lia. subst yb.
  rewrite Z.eqb_refl in *. cbn [andb] in *.
  apply orb_false_iff in H1', H2'. destruct H1' as [H3 H3'], H2' as [H4 H4'].
  apply Z.ltb_ge in H3, H4. assert (ma = mb) by lia. subst mb.
  rewrite Z.eqb_refl in *. cbn [andb] in *.
  apply Z.ltb_ge in H3', H4'. f_equal. lia.
Qed.

Lemma toordinal_inj a b :
  valid_date a = true -> valid_date b = true -> toordinal a = toordinal b -> a = b.
Proof.
  intros Va Vb E. apply lt_irrefl_or_eq.
  - destruct (lt a b) eqn:L; [|reflexivity].
    apply (lt_ordinal a b Va Vb) in L. lia.
  - destruct (lt b a) eqn:L; [|reflexivity].
    apply (lt_ordinal b a Vb Va) in L. lia.
Qed.

Lemma fromordinal_spec n :
  1 <= n <= _MAXORDINAL ->
  exists d, fromordinal n = Return d /\ valid_date d = true /\ toordinal d = n.
Proof.
  intros Hn. pose proof (ord2ymd_spec n Hn) as S. unfold fromordinal.
  destruct (_ord2ymd n) as [[y m] d]. destruct S as [V E].
  exists (mkdate y m d). rewrite (new_valid _ _ _ V). auto.
Qed.

Lemma add_days_spec d n :
  valid_date d = true -> 1 <= toordinal d + n <= _MAXORDINAL ->
  exists r, add_days d n = Return r /\ valid_date r = true
            /\ toordinal r = toordinal d + n.
Proof.
  intros V Hn. unfold add_days. cbv zeta.
  replace ((0 <? toordinal d + n) && (toordinal d + n <=? _MAXORDINAL)) with true
    by (symmetry; apply andb_true_iff; rewrite Z.ltb_lt, Z.leb_le; lia).
  apply fromordinal_spec; assumption.
Qed.

Lemma add_days_overflow d n :
  ~ (1 <= toordinal d + n <= _MAXORDINAL) ->
  add_days d n = Raise (OverflowError (pystr "date value out of range")).
Proof.
  intros Hn. unfold add_days. cbv zeta.
  replace ((0 <? toordinal d + n) && (toordinal d + n <=? _MAXORDINAL)) with false;
    [reflexivity|].
  symmetry. apply andb_false_iff. rewrite Z.ltb_ge, Z.leb_gt. lia.
Qed.

End Calendar.

(** ** Phones of a record *)

Lemma Phone_is_refl (p : Phone.t) : Phone.is_ p p = true.
Proof.
  unfold Phone.is_. rewrite Nat.eqb_refl, str_eqb_refl. reflexivity.
Qed.

Lemma Phone_is_value (p q : Phone.t) :
  Phone.is_ p q = true -> Phone.value p = Phone.value q.
Proof.
  unfold Phone.is_. intros H. apply andb_true_iff in H.
  apply str_eqb_eq. tauto.
Qed.

(** [find_phone] on a list split at the first phone with the number. *)
Lemma find_phone_first (self : Record_.t) (number : str) l1 p l2 :
  Record_.phones self = l1 ++ p :: l2 ->
  Phone.value p = number ->
  (forall q, In q l1 -> Phone.value q <> number) ->
  Record_.find_phone self number = Some p.
Proof.
  unfold Record_.find_phone. intros -> Hp Hl1.
  induction l1 as [|x l1 IH]; cbn.
  - rewrite Hp, str_eqb_refl. reflexivity.
  - destruct (str_eqb (Phone.value x) number) eqn:E.
    + apply str_eqb_eq in E. exfalso. apply (Hl1 x); [left; reflexivity | exact E].
    + apply IH. intros q Hq. apply Hl1. right. exact Hq.
Qed.

Lemma find_phone_none (self : Record_.t) (number : str) :
  (forall q, In q (Record_.phones self) -> Phone.value q <> number) ->
  Record_.find_phone self number = None.
Proof.
  unfold Record_.find_phone. intros H.
  induction (Record_.phones self) as [|x l IH]; cbn; [reflexivity|].
  destruct (str_eqb (Phone.value x) number) eqn:E.
  - apply str_eqb_eq in E. exfalso. apply (H x); [left; reflexivity | exact E].
  - apply IH. intros q Hq. apply H. right. exact Hq.
Qed.

Lemma find_phone_some (self : Record_.t) (number : str) p :
  Record_.find_phone self number = Some p ->
  exists l1 l2, Record_.phones self = l1 ++ p :: l2
                /\ Phone.value p = number
                /\ forall q, In q l1 -> Phone.value q <> number.
Proof.
  unfold Record_.find_phone.
  induction (Record_.phones self) as [|x l IH]; cbn; [discriminate|].
  destruct (str_eqb (Phone.value x) number) eqn:E.
  - intros H. inversion H. subst x. exists [], l. apply str_eqb_eq in E.
    repeat split; [exact E | intros q []].
  - intros H. destruct (IH H) as (l1 & l2 & -> & Hp & Hl1).
    exists (x :: l1), l2. repeat split; [exact Hp|].
    intros q [<- | Hq]; [apply str_eqb_neq; exact E | apply Hl1; exact Hq].
Qed.

(** Removing the object found: the first phone with its value goes. *)
Lemma list_remove_first l1 p l2 :
  (forall q, In q l1 -> Phone.value q <> Phone.value p) ->
  list_remove (Some p) (l1 ++ p :: l2) = Return (l1 ++ l2).
Proof.
  intros Hl1. induction l1 as [|x l1 IH]; cbn.
  - rewrite Phone_is_refl. reflexivity.
  - destruct (Phone.is_ x p) eqn:E.
    + apply Phone_is_value in E. exfalso.
      apply (Hl1 x); [left; reflexivity | exact E].
    + rewrite IH; [reflexivity|]. intros q Hq. apply Hl1. right. exact Hq.
Qed.

Lemma list_remove_None l :
  list_remove None l = Raise (ValueError (pystr "list.remove(x): x not in list")).
Proof.
  induction l as [|x l IH]; cbn; [reflexivity|]. rewrite IH. reflexivity.
Qed.

Lemma remove_phone_present (self : Record_.t) (number : str) l1 p l2 :
  Record_.phones self = l1 ++ p :: l2 ->
  Phone.value p = number ->
  (forall q, In q l1 -> Phone.value q <> number) ->
  Record_.remove_phone number self
  = (Return tt, Record_.mk (Record_.name self) (l1 ++ l2) (Record_.birthday self)).
Proof.
  intros Hs Hp Hl1. unfold Record_.remove_phone. cbv zeta.
  rewrite (find_phone_first self number l1 p l2 Hs Hp Hl1), Hs.
  rewrite list_remove_first; [reflexivity|]. rewrite Hp. exact Hl1.
Qed.

Lemma remove_phone_absent (self : Record_.t) (number : str) :
  (forall q, In q (Record_.phones self) -> Phone.value q <> number) ->
  Record_.remove_phone number self
  = (Raise (ValueError (pystr "list.remove(x): x not in list")), self).
Proof.
  intros H. unfold Record_.remove_phone. cbv zeta.
  rewrite (find_phone_none self number H), list_remove_None. reflexivity.
Qed.

(** Either some phone has the number, and then there is a first one, or none has. *)
Lemma first_with_value (l : list Phone.t) (number : str) :
  (exists l1 p l2, l = l1 ++ p :: l2 /\ Phone.value p = number
                   /\ forall q, In q l1 -> Phone.value q <> number)
  \/ (forall q, In q l -> Phone.value q <> number).
Proof.
  induction l as [|x l IH].
  - right. intros q [].
  - destruct (str_eqb (Phone.value x) number) eqn:E.
    + left. exists [], x, l. apply str_eqb_eq in E.
      repeat split; [exact E | intros q []].
    + apply str_eqb_neq in E. destruct IH as [(l1 & p & l2 & -> & Hp & Hl1) | IH].
      * left. exists (x :: l1), p, l2. repeat split; [exact Hp|].
        intros q [<- | Hq]; [exact E | apply Hl1; exact Hq].
      * right. intros q [<- | Hq]; [exact E | apply IH; exact Hq].
Qed.

Lemma add_phone_cases (self : Record_.t) (number : str) :
  (exists phone, Record_.add_phone number self
     = (Return tt, Record_.mk (Record_.name self)
                     (Record_.phones self ++ [phone]) (Record_.birthday self))
     /\ Phone.value phone = number)
  \/ Record_.add_phone number self
     = (Raise (ValueError (pystr "Phone must be 10 digits.")), self).
Proof.
  unfold Record_.add_phone, Phone.init.
  destruct (isdigit number && (len number =? 10)).
  - left. eexists. split; reflexivity.
  - right. reflexivity.
Qed.

(** A call of [edit_phone] that raises has not touched the record. *)
Lemma edit_phone_Raise (self self' : Record_.t) old new e :
  Record_.edit_phone old new self = (Raise e, self') -> self' = self.
Proof.
  unfold Record_.edit_phone. cbv zeta.
  destruct (Record_.find_phone self old) as [p|] eqn:F; cbn [truthy].
  - destruct (find_phone_some self old p F) as (l1 & l2 & Hs & Hp & Hl1).
    unfold Record_.seq.
    destruct (add_phone_cases self new) as [(phone & -> & _) | ->].
    + rewrite (remove_phone_present _ old l1 p (l2 ++ [phone])); [discriminate | | exact Hp | exact Hl1].
      cbn [Record_.phones]. rewrite Hs, <- app_assoc. reflexivity.
    + intros H. inversion H. reflexivity.
  - intros H. inversion H. reflexivity.
Qed.

(** ** The dictionary *)

Lemma setitem_get_same (d : AddressBook.t) key v :
  AddressBook.get d key = Some v -> AddressBook.setitem d key v = d.
Proof.
  induction d as [|[k w] d IH]; cbn; [discriminate|].
  destruct (str_eqb k key) eqn:E.
  - intros H. inversion H. reflexivity.
  - intros H. rewrite (IH H). reflexivity.
Qed.

Lemma get_setitem_same (d : AddressBook.t) key v :
  AddressBook.get (AddressBook.setitem d key v) key = Some v.
Proof.
  induction d as [|[k w] d IH]; cbn.
  - rewrite str_eqb_refl. reflexivity.
  - destruct (str_eqb k key) eqn:E; cbn; rewrite E; [reflexivity | exact IH].
Qed.

Lemma get_None_keys (d : AddressBook.t) key :
  AddressBook.get d key = None <-> ~ In key (AddressBook.keys d).
Proof.
  induction d as [|[k w] d IH]; cbn; [tauto|].
  destruct (str_eqb k key) eqn:E.
  - apply str_eqb_eq in E. split; [discriminate | intros H; exfalso; apply H; left; exact E].
  - apply str_eqb_neq in E. rewrite IH. tauto.
Qed.

(** Assignment to a key that is present keeps the keys; a new key goes last. *)
Lemma keys_setitem (d : AddressBook.t) key v :
  AddressBook.keys (AddressBook.setitem d key v)
  = if AddressBook.contains d key then AddressBook.keys d
    else AddressBook.keys d ++ [key].
Proof.
  unfold AddressBook.contains, AddressBook.keys.
  induction d as [|[k w] d IH]; cbn; [reflexivity|].
  destruct (str_eqb k key) eqn:E; cbn; [reflexivity|].
  rewrite IH. destruct (AddressBook.get d key); reflexivity.
Qed.

Lemma NoDup_keys_setitem (d : AddressBook.t) key v :
  NoDup (AddressBook.keys d) -> NoDup (AddressBook.keys (AddressBook.setitem d key v)).
Proof.
  intros H. rewrite keys_setitem. unfold AddressBook.contains.
  destruct (AddressBook.get d key) eqn:G; cbn [truthy]; [exact H|].
  apply get_None_keys in G.
  apply NoDup_app; [exact H | repeat constructor; intros [] |].
  intros x Hx [<- | []]. exact (G Hx).
Qed.

Lemma keys_delitem_incl (d : AddressBook.t) key x :
  In x (AddressBook.keys (AddressBook.delitem d key)) -> In x (AddressBook.keys d).
Proof.
  induction d as [|[k w] d IH]; cbn; [tauto|].
  destruct (str_eqb k key); cbn; [tauto|]. intros [H | H]; [tauto | right; exact (IH H)].
Qed.

Lemma NoDup_keys_delitem (d : AddressBook.t) key :
  NoDup (AddressBook.keys d) -> NoDup (AddressBook.keys (AddressBook.delitem d key)).
Proof.
  induction d as [|[k w] d IH]; cbn; [tauto|].
  intros H. inversion H as [|? ? Hk Hd]; subst.
  destruct (str_eqb k key); cbn; [exact Hd|].
  constructor; [|exact (IH Hd)].
  intros Hin. apply Hk. exact (keys_delitem_incl _ _ _ Hin).
Qed.

Lemma entries_under_absent (d : AddressBook.t) name :
  ~ In name (AddressBook.keys d) -> entries_under d name = [].
Proof.
  unfold entries_under. induction d as [|[k w] d IH]; cbn; [reflexivity|].
  intros H. destruct (str_eqb k name) eqn:E.
  - apply str_eqb_eq in E. exfalso. apply H. left. exact E.
  - apply IH. tauto.
Qed.

(** With distinct keys, a name has the one record [get] returns. *)
Lemma entries_under_get (d : AddressBook.t) name v :
  NoDup (AddressBook.keys d) -> AddressBook.get d name = Some v ->
  entries_under d name = [v].
Proof.
  unfold entries_under. induction d as [|[k w] d IH]; cbn; [discriminate|].
  intros H G. inversion H as [|? ? Hk Hd]; subst.
  destruct (str_eqb k name) eqn:E; cbn.
  - inversion G. subst w. apply str_eqb_eq in E. subst k.
    f_equal. apply (entries_under_absent d name Hk).
  - apply IH; assumption.
Qed.

Lemma length_setitem_present (d : AddressBook.t) key v :
  AddressBook.contains d key = true ->
  List.length (AddressBook.setitem d key v) = List.length d.
Proof.
  unfold AddressBook.contains.
  induction d as [|[k w] d IH]; cbn; [discriminate|].
  destruct (str_eqb k key); cbn; [reflexivity|]. intros H. rewrite (IH H). reflexivity.
Qed.

Lemma NoDup_keys_run (op : operation) (book : AddressBook.t) :
  NoDup (AddressBook.keys book) -> NoDup (AddressBook.keys (snd (run op book))).
Proof.
  intros H.
  assert (C : forall key attr m,
             NoDup (AddressBook.keys (snd (call_method book key attr m)))).
  { intros key attr m. unfold call_method.
    destruct (AddressBook.find book key); [|exact H].
    destruct (m t) as [o record']. cbn [snd]. apply NoDup_keys_setitem, H. }
  destruct op; cbn [run snd]; try apply C.
  - apply NoDup_keys_setitem, H.
  - unfold AddressBook.delete. destruct (AddressBook.contains book name);
      [apply NoDup_keys_delitem, H | exact H].
  - exact H.
Qed.

(** *** Records under their names *)

Lemma Forall_setitem (P : str * Record_.t -> Prop) (d : AddressBook.t) key v :
  Forall P d -> P (key, v) -> Forall P (AddressBook.setitem d key v).
Proof.
  intros F Pv. induction d as [|[k w] d IH]; cbn.
  - constructor; [exact Pv | constructor].
  - inversion F as [|? ? Pk Fd]; subst.
    destruct (str_eqb k key) eqn:E.
    + apply str_eqb_eq in E. subst k. constructor; assumption.
    + constructor; [exact Pk | exact (IH Fd)].
Qed.

Lemma Forall_delitem (P : str * Record_.t -> Prop) (d : AddressBook.t) key :
  Forall P d -> Forall P (AddressBook.delitem d key).
Proof.
  intros F. induction d as [|[k w] d IH]; cbn; [constructor|].
  inversion F as [|? ? Pk Fd]; subst.
  destruct (str_eqb k key); [exact Fd | constructor; [exact Pk | exact (IH Fd)]].
Qed.

Lemma get_Some_In (d : AddressBook.t) key v :
  AddressBook.get d key = Some v -> In (key, v) d.
Proof.
  induction d as [|[k w] d IH]; cbn; [discriminate|].
  destruct (str_eqb k key) eqn:E.
  - apply str_eqb_eq in E. intros H. inversion H. subst. left. reflexivity.
  - intros H. right. exact (IH H).
Qed.

(** No method of a record touches its name. *)
Lemma method_keeps_name (self self' : Record_.t) (o : outcome unit) :
  (exists number, Record_.add_phone number self = (o, self'))
  \/ (exists number, Record_.remove_phone number self = (o, self'))
  \/ (exists old new, Record_.edit_phone old new self = (o, self'))
  \/ (exists raw, Record_.add_birthday raw self = (o, self')) ->
  Record_.name self' = Record_.name self.
Proof.
  assert (A : forall s s' o' number,
             Record_.add_phone number s = (o', s') -> Record_.name s' = Record_.name s).
  { intros s s' o' number. unfold Record_.add_phone.
    destruct (Phone.init _ number); intros H; inversion H; reflexivity. }
  assert (R : forall s s' o' number,
             Record_.remove_phone number s = (o', s') -> Record_.name s' = Record_.name s).
  { intros s s' o' number. unfold Record_.remove_phone. cbv zeta.
    destruct (list_remove _ _); intros H; inversion H; reflexivity. }
  intros [(number & H) | [(number & H) | [(old & new & H) | (raw & H)]]].
  - exact (A _ _ _ _ H).
  - exact (R _ _ _ _ H).
  - unfold Record_.edit_phone in H. cbv zeta in H.
    destruct (truthy _); [|inversion H; reflexivity].
    unfold Record_.seq in H.
    destruct (Record_.add_phone new self) as [[[]|e] s1] eqn:E1.
    + rewrite (R _ _ _ _ H). exact (A _ _ _ _ E1).
    + inversion H. subst. exact (A _ _ _ _ E1).
  - unfold Record_.add_birthday in H.
    destruct (Birthday.init raw); inversion H; reflexivity.
Qed.

Lemma well_formed_names (book : AddressBook.t) :
  well_formed book -> NoDup (map record_name (AddressBook.values book)).
Proof.
  intros [N F].
  replace (map record_name (AddressBook.values book)) with (AddressBook.keys book);
    [exact N|].
  unfold AddressBook.keys, AddressBook.values. rewrite map_map.
  apply map_ext_in. intros kv Hin. rewrite Forall_forall in F.
  symmetry. exact (F kv Hin).
Qed.

Lemma well_formed_run (op : operation) (book : AddressBook.t) :
  well_formed book -> well_formed (snd (run op book)).
Proof.
  intros W. split; [apply NoDup_keys_run, W|]. destruct W as [_ F].
  assert (C : forall key attr m,
             (forall self o self', m self = (o, self') ->
                                   Record_.name self' = Record_.name self) ->
             Forall (fun kv => record_name (snd kv) = fst kv)
                    (snd (call_method book key attr m))).
  { intros key attr m Hm. unfold call_method, AddressBook.find.
    destruct (AddressBook.get book key) as [record|] eqn:G; [|exact F].
    destruct (m record) as [o record'] eqn:M. cbn [snd].
    apply Forall_setitem; [exact F|]. cbn [fst snd].
    unfold record_name. rewrite (Hm _ _ _ M).
    rewrite Forall_forall in F. exact (F _ (get_Some_In _ _ _ G)). }
  destruct op; cbn [run snd].
  - apply C. intros self o self' H. apply (method_keeps_name self self' o). eauto.
  - apply C. intros self o self' H. apply (method_keeps_name self self' o). eauto.
  - apply C. intros self o self' H. apply (method_keeps_name self self' o). eauto 6.
  - apply C. intros self o self' H. apply (method_keeps_name self self' o). eauto 6.
  - apply Forall_setitem; [exact F | reflexivity].
  - unfold AddressBook.delete. destruct (AddressBook.contains book name);
      [apply Forall_delitem, F | exact F].
  - exact F.
Qed.

(** C9: the directory holds at most one record per name after every
    operation: its keys are distinct and every record is stored under its
    own name, from the empty directory on.  Adding a second record under
    a name that is taken replaces the stored record: the name still has
    exactly one entry, it is the second record as given (nothing of the
    first is merged in), and the directory has not grown; from the empty
    directory the result is the single entry of the second record. *)
Theorem add_record_same_name_overwrites :
  well_formed []
  /\ (forall op book, well_formed book -> well_formed (snd (run op book)))
  /\ (forall book r1 r2,
         NoDup (AddressBook.keys book) ->
         Name.value (Record_.name r1) = Name.value (Record_.name r2) ->
         let book1 := AddressBook.add_record book r1 in
         let book2 := AddressBook.add_record book1 r2 in
         entries_under book2 (Name.value (Record_.name r2)) = [r2]
         /\ AddressBook.find book2 (Name.value (Record_.name r2)) = Some r2
         /\ len book2 = len book1)
  /\ (forall r1 r2,
         Name.value (Record_.name r1) = Name.value (Record_.name r2) ->
         AddressBook.add_record (AddressBook.add_record [] r1) r2
         = [(Name.value (Record_.name r2), r2)]).
Proof.
  split; [split; constructor|]. split; [exact well_formed_run|]. split.
  - intros book r1 r2 H E book1 book2. subst book1 book2.
    unfold AddressBook.add_record, AddressBook.find. rewrite E.
    set (n := Name.value (Record_.name r2)).
    assert (H1 : NoDup (AddressBook.keys (AddressBook.setitem book n r1)))
      by (apply NoDup_keys_setitem, H).
    repeat split.
    + apply entries_under_get; [apply NoDup_keys_setitem, H1 | apply get_setitem_same].
    + apply get_setitem_same.
    + unfold len. f_equal. apply length_setitem_present.
      unfold AddressBook.contains. rewrite get_setitem_same. reflexivity.
  - intros r1 r2 E. unfold AddressBook.add_record. rewrite E. cbn.
    rewrite str_eqb_refl. reflexivity.
Qed.

Lemma add_record_same_name_overwrites_witness :
  entries_under (AddressBook.add_record (AddressBook.add_record [] ann') ann)
                (pystr "Ann") = [ann]
  /\ len (AddressBook.add_record (AddressBook.add_record [] ann') ann) = 1.
Proof.
  destruct add_record_same_name_overwrites as (_ & _ & H & _).
  destruct (H [] ann' ann) as (H1 & _ & H3).
  - constructor.
  - reflexivity.
  - split; [exact H1 | exact H3].
Defined.

(** ** Claims about the phones of a record *)

(** C6: when no phone of the record has the value [old], [edit_phone old
    new] raises the not-found [ValueError] and the record, its phone
    sequence included, is what it was before the call. *)
Theorem edit_phone_absent_fails (self : Record_.t) (old new : str) :
  (forall q, In q (Record_.phones self) -> Phone.value q <> old) ->
  Record_.edit_phone old new self
  = (Raise (ValueError (pystr "Phone number " ++ old ++ pystr " not found.")),
     self).
Proof.
  intros H. unfold Record_.edit_phone. cbv zeta.
  rewrite (find_phone_none self old H). reflexivity.
Qed.

Lemma edit_phone_absent_fails_witness :
  Record_.edit_phone (pystr "0509999999") (pystr "0500000000") ann'
  = (Raise (ValueError (pystr "Phone number 0509999999 not found.")), ann').
Proof.
  apply (edit_phone_absent_fails ann' (pystr "0509999999") (pystr "0500000000")).
  intros q [<- | []]. vm_compute. discriminate.
Defined.

(** C10: [remove_phone number] takes out the first phone whose value is
    [number] and nothing else: the phones before it and after it, later
    phones with the same value among them, stay in their order; when no
    phone has the value the call raises [ValueError] and the record is
    unchanged. *)
Theorem remove_phone_first_match (self : Record_.t) (number : str) :
  (forall l1 p l2,
      Record_.phones self = l1 ++ p :: l2 ->
      Phone.value p = number ->
      (forall q, In q l1 -> Phone.value q <> number) ->
      Record_.find_phone self number = Some p
      /\ Record_.remove_phone number self
         = (Return tt,
            Record_.mk (Record_.name self) (l1 ++ l2) (Record_.birthday self)))
  /\ ((forall q, In q (Record_.phones self) -> Phone.value q <> number) ->
      Record_.find_phone self number = None
      /\ Record_.remove_phone number self
         = (Raise (ValueError (pystr "list.remove(x): x not in list")), self))
  /\ ((exists l1 p l2,
          Record_.phones self = l1 ++ p :: l2 /\ Phone.value p = number
          /\ forall q, In q l1 -> Phone.value q <> number)
      \/ (forall q, In q (Record_.phones self) -> Phone.value q <> number)).
Proof.
  split; [|split].
  - intros l1 p l2 Hs Hp Hl1. split.
    + exact (find_phone_first self number l1 p l2 Hs Hp Hl1).
    + exact (remove_phone_present self number l1 p l2 Hs Hp Hl1).
  - intros H. split.
    + exact (find_phone_none self number H).
    + exact (remove_phone_absent self number H).
  - apply first_with_value.
Qed.

Lemma remove_phone_first_match_witness :
  Record_.remove_phone (pystr "0501234567") two_same
  = (Return tt,
     Record_.mk (Name.mk (pystr "Ann"))
       [Phone.mk 2 (pystr "0671112233"); Phone.mk 3 (pystr "0501234567")] None)
  /\ Record_.remove_phone (pystr "0500000000") two_same
     = (Raise (ValueError (pystr "list.remove(x): x not in list")), two_same).
Proof.
  destruct (remove_phone_first_match two_same (pystr "0501234567")) as (H1 & _ & _).
  destruct (remove_phone_first_match two_same (pystr "0500000000")) as (_ & H2 & _).
  split.
  - apply (H1 [] (Phone.mk 1 (pystr "0501234567"))
              [Phone.mk 2 (pystr "0671112233"); Phone.mk 3 (pystr "0501234567")]).
    + reflexivity.
    + reflexivity.
    + intros q [].
  - apply H2. intros q Hq. vm_compute in Hq.
    destruct Hq as [<- | [<- | [<- | []]]]; vm_compute; discriminate.
Defined.

(** ** Failed calls *)

Lemma add_phone_Raise (self self' : Record_.t) number e :
  Record_.add_phone number self = (Raise e, self') -> self' = self.
Proof.
  destruct (add_phone_cases self number) as [(phone & -> & _) | ->];
    intros H; inversion H; reflexivity.
Qed.

Lemma remove_phone_Raise (self self' : Record_.t) number e :
  Record_.remove_phone number self = (Raise e, self') -> self' = self.
Proof.
  unfold Record_.remove_phone. cbv zeta.
  destruct (list_remove _ _); intros H; inversion H; reflexivity.
Qed.

Lemma add_birthday_Raise (self self' : Record_.t) raw e :
  Record_.add_birthday raw self = (Raise e, self') -> self' = self.
Proof.
  unfold Record_.add_birthday.
  destruct (Birthday.init raw); intros H; inversion H; reflexivity.
Qed.

Lemma call_method_Raise (book book' : AddressBook.t) key attr m e :
  (forall self self' e', m self = (Raise e', self') -> self' = self) ->
  call_method book key attr m = (Raise e, book') -> book' = book.
Proof.
  intros Hm. unfold call_method, AddressBook.find.
  destruct (AddressBook.get book key) as [record|] eqn:G.
  - destruct (m record) as [o record'] eqn:M. intros H. inversion H. subst o.
    rewrite (Hm _ _ _ M). apply setitem_get_same, G.
  - intros H. inversion H. reflexivity.
Qed.

(** C7: a call of the core that raises leaves everything as it was.  For
    the four methods of a record, the record after a failed call is the
    record before it; [edit_phone] in particular never fails between its
    two steps.  For the calls of the command layer on a directory, record
    methods on a stored record included, the directory after a failed
    call is the directory before it. *)
Theorem failed_call_leaves_state (e : exn) :
  (forall self self' number,
      Record_.add_phone number self = (Raise e, self') -> self' = self)
  /\ (forall self self' number,
         Record_.remove_phone number self = (Raise e, self') -> self' = self)
  /\ (forall self self' old new,
         Record_.edit_phone old new self = (Raise e, self') -> self' = self)
  /\ (forall self self' raw,
         Record_.add_birthday raw self = (Raise e, self') -> self' = self)
  /\ (forall op book book', run op book = (Raise e, book') -> book' = book).
Proof.
  repeat split.
  - intros self self' number. apply add_phone_Raise.
  - intros self self' number. apply remove_phone_Raise.
  - intros self self' old new. apply edit_phone_Raise.
  - intros self self' raw. apply add_birthday_Raise.
  - intros op book book'. destruct op; cbn [run].
    + apply call_method_Raise. intros ? ? ?. apply add_phone_Raise.
    + apply call_method_Raise. intros ? ? ?. apply remove_phone_Raise.
    + apply call_method_Raise. intros ? ? ?. apply edit_phone_Raise.
    + apply call_method_Raise. intros ? ? ?. apply add_birthday_Raise.
    + discriminate.
    + discriminate.
    + intros H. inversion H. reflexivity.
Qed.

Lemma failed_call_leaves_state_witness :
  snd (run (editPhone (pystr "Ann") (pystr "0501234567") (pystr "12"))
           (AddressBook.add_record [] two_same))
  = AddressBook.add_record [] two_same.
Proof.
  destruct (failed_call_leaves_state (ValueError (pystr "Phone must be 10 digits.")))
    as (_ & _ & _ & _ & H).
  apply (H (editPhone (pystr "Ann") (pystr "0501234567") (pystr "12"))).
  vm_compute. reflexivity.
Defined.

(** ** The weekend helpers *)

Lemma weekday_range (d : datetime.date) : 0 <= datetime.weekday d <= 6.
Proof. unfold datetime.weekday. pose proof (Z.mod_pos_bound (datetime.toordinal d + 6) 7). lia. Qed.

(** The number of days [find_next_weekday] goes ahead. *)
Lemma days_ahead_spec (w t : Z) :
  0 <= w <= 6 -> 0 <= t <= 6 ->
  let k := if t - w <=? 0 then t - w + 7 else t - w in
  1 <= k <= 7 /\ (w + k) mod 7 = t /\ (w = t -> k = 7).
Proof.
  intros Hw Ht. cbv zeta. destruct (Z.leb_spec (t - w) 0).
  - repeat split; try lia. replace (w + (t - w + 7)) with (t + 1 * 7) by lia.
    rewrite Z.mod_add by lia. apply Z.mod_small. lia.
  - repeat split; try lia. replace (w + (t - w)) with t by lia.
    apply Z.mod_small. lia.
Qed.

Lemma weekday_of_sum (d r : datetime.date) (k : Z) :
  datetime.toordinal r = datetime.toordinal d + k ->
  datetime.weekday r = (datetime.weekday d + k) mod 7.
Proof.
  intros E. unfold datetime.weekday. rewrite E.
  rewrite Zplus_mod_idemp_l. f_equal. lia.
Qed.

(** Between a date and the next one with a given weekday no date has it. *)
Lemma next_weekday_least (a x k t : Z) :
  1 <= k <= 7 -> ((a + 6) mod 7 + k) mod 7 = t ->
  a < x -> (x + 6) mod 7 = t -> a + k <= x.
Proof.
  intros Hk Ht Hx Hxt. rewrite Zplus_mod_idemp_l in Ht.
  Z.div_mod_to_equations. lia.
Qed.

(** What [find_next_weekday] does, for a weekday in 0..6. *)
Lemma find_next_weekday_cases (start_date : datetime.date) (t : Z) :
  valid_date start_date = true -> 0 <= t <= 6 ->
  exists k, 1 <= k <= 7
    /\ (datetime.weekday start_date + k) mod 7 = t
    /\ (datetime.weekday start_date = t -> k = 7)
    /\ find_next_weekday start_date t = datetime.add_days start_date k.
Proof.
  intros V Ht. unfold find_next_weekday. cbv zeta.
  pose proof (days_ahead_spec (datetime.weekday start_date) t
                (weekday_range start_date) Ht) as S.
  cbv zeta in S.
  exists (if t - datetime.weekday start_date <=? 0
          then t - datetime.weekday start_date + 7
          else t - datetime.weekday start_date).
  destruct S as (S1 & S2 & S3). repeat split; try assumption; lia.
Qed.

(** On a weekend [adjust_for_weekend] goes one or two days ahead, to a
    Monday; it never runs out of the calendar, whose last day is a Friday. *)
Lemma adjust_for_weekend_shift (d : datetime.date) (k : Z) :
  valid_date d = true -> 1 <= k <= 2 -> datetime.weekday d = 7 - k ->
  exists r, adjust_for_weekend d = Return r /\ valid_date r = true
            /\ datetime.weekday r = MONDAY /\ datetime.sub_days r d = k.
Proof.
  intros V Hk W. pose proof (toordinal_bounds d V) as B.
  unfold datetime._MAXORDINAL in B.
  unfold adjust_for_weekend.
  replace (5 <=? datetime.weekday d) with true by (symmetry; apply Z.leb_le; lia).
  destruct (find_next_weekday_cases d 0 V ltac:(lia)) as (k' & Hk' & M & _ & ->).
  assert (k' = k).
  { rewrite W in M. Z.div_mod_to_equations. lia. }
  subst k'.
  assert (R : 1 <= datetime.toordinal d + k <= datetime._MAXORDINAL).
  { unfold datetime._MAXORDINAL. unfold datetime.weekday in W.
    Z.div_mod_to_equations. lia. }
  destruct (add_days_spec d k V R) as (r & -> & Vr & Er).
  exists r. repeat split; try assumption.
  - rewrite (weekday_of_sum d r k Er). exact M.
  - unfold datetime.sub_days. lia.
Qed.

Lemma adjust_for_weekend_weekday (d : datetime.date) :
  datetime.weekday d <= 4 -> adjust_for_weekend d = Return d.
Proof.
  intros W. unfold adjust_for_weekend.
  replace (5 <=? datetime.weekday d) with false by (symmetry; apply Z.leb_gt; lia).
  reflexivity.
Qed.

(** [adjust_for_weekend] returns a date, the one given or a later one. *)
Lemma adjust_for_weekend_total (d : datetime.date) :
  valid_date d = true ->
  exists c, adjust_for_weekend d = Return c /\ valid_date c = true
            /\ 0 <= datetime.sub_days c d <= 2.
Proof.
  intros V. pose proof (weekday_range d) as W.
  destruct (Z.le_gt_cases (datetime.weekday d) 4) as [H | H].
  - exists d. rewrite (adjust_for_weekend_weekday d H).
    unfold datetime.sub_days. repeat split; [exact V | lia | lia].
  - destruct (adjust_for_weekend_shift d (7 - datetime.weekday d) V ltac:(lia) ltac:(lia))
      as (r & E & Vr & _ & S).
    exists r. repeat split; [exact E | exact Vr | lia | lia].
Qed.

(** C2: on a Saturday [adjust_for_weekend] returns the Monday two days
    later, on a Sunday the Monday one day later, and from Monday to Friday
    the date it was given; it never raises.  For a birthday 15.06.1990 and
    today 13.06.2024 the report's congratulation date is 17.06.2024. *)
Theorem adjust_for_weekend_shifts_to_monday (d : datetime.date) :
  valid_date d = true ->
  (datetime.weekday d = SATURDAY ->
   exists r, adjust_for_weekend d = Return r /\ valid_date r = true
             /\ datetime.weekday r = MONDAY /\ datetime.sub_days r d = 2)
  /\ (datetime.weekday d = SUNDAY ->
      exists r, adjust_for_weekend d = Return r /\ valid_date r = true
                /\ datetime.weekday r = MONDAY /\ datetime.sub_days r d = 1)
  /\ (MONDAY <= datetime.weekday d <= 4 -> adjust_for_weekend d = Return d)
  /\ (forall record days,
         Record_.birthday record = Some (Birthday.mk (pystr "15.06.1990")) ->
         2 <= days ->
         AddressBook.get_upcoming_birthdays
           (AddressBook.add_record [] record) days (datetime.mkdate 2024 6 13)
         = Return [AddressBook.mk_entry (Name.value (Record_.name record))
                                        (pystr "17.06.2024")]).
Proof.
  intros V. repeat split.
  - intros W. apply (adjust_for_weekend_shift d 2 V); [lia | exact W].
  - intros W. apply (adjust_for_weekend_shift d 1 V); [lia | exact W].
  - intros W. apply adjust_for_weekend_weekday. lia.
  - intros record days Hb Hd.
    unfold AddressBook.get_upcoming_birthdays, AddressBook.add_record.
    cbn [AddressBook.setitem AddressBook.values map snd AddressBook.report].
    rewrite Hb.
    replace (AddressBook.birthday_this_year (datetime.mkdate 2024 6 13)
               (Birthday.mk (pystr "15.06.1990")))
      with (Return (datetime.mkdate 2024 6 15)) by (vm_compute; reflexivity).
    cbn [bind].
    replace (datetime.sub_days (datetime.mkdate 2024 6 15) (datetime.mkdate 2024 6 13))
      with 2 by (vm_compute; reflexivity).
    replace (2 <=? days) with true by (symmetry; apply Z.leb_le; lia).
    replace (adjust_for_weekend (datetime.mkdate 2024 6 15))
      with (Return (datetime.mkdate 2024 6 17)) by (vm_compute; reflexivity).
    cbn [bind andb Z.leb Z.compare app].
    reflexivity.
Qed.

Lemma adjust_for_weekend_shifts_to_monday_witness :
  exists r, adjust_for_weekend (datetime.mkdate 2024 6 15) = Return r
            /\ valid_date r = true
            /\ datetime.weekday r = MONDAY /\ datetime.sub_days r (datetime.mkdate 2024 6 15) = 2.
Proof.
  destruct (adjust_for_weekend_shifts_to_monday (datetime.mkdate 2024 6 15))
    as (H & _).
  - vm_compute. reflexivity.
  - apply H. vm_compute. reflexivity.
Defined.

(** C8, as stated, fails on the last day of the calendar: no later date
    exists, and the call raises instead of returning one. *)
Lemma find_next_weekday_last_day :
  valid_date (datetime.mkdate 9999 12 31) = true
  /\ datetime.weekday (datetime.mkdate 9999 12 31) = 4
  /\ find_next_weekday (datetime.mkdate 9999 12 31) MONDAY
     = Raise (OverflowError (pystr "date value out of range"))
  /\ find_next_weekday (datetime.mkdate 9999 12 31) 4
     = Raise (OverflowError (pystr "date value out of range")).
Proof. vm_compute. repeat split; reflexivity. Qed.

(** C8, amended: for a weekday [t] in 0..6, when some date after
    [start_date] has weekday [t], [find_next_weekday] returns the smallest
    such date, which is [start_date] plus seven days when [start_date]
    itself has weekday [t] and is never [start_date]; when there is none,
    which happens only in the last week of year 9999, it raises
    [OverflowError]. *)
Theorem find_next_weekday_smallest_later (start_date : datetime.date) (t : Z) :
  valid_date start_date = true -> 0 <= t <= 6 ->
  ((exists x, valid_date x = true /\ datetime.lt start_date x = true
              /\ datetime.weekday x = t) ->
   exists r, find_next_weekday start_date t = Return r
     /\ valid_date r = true
     /\ datetime.weekday r = t
     /\ datetime.lt start_date r = true
     /\ (forall x, valid_date x = true -> datetime.lt start_date x = true ->
                   datetime.weekday x = t -> datetime.lt x r = false)
     /\ (datetime.weekday start_date = t -> datetime.sub_days r start_date = 7)
     /\ r <> start_date)
  /\ (~ (exists x, valid_date x = true /\ datetime.lt start_date x = true
                   /\ datetime.weekday x = t) ->
      find_next_weekday start_date t
      = Raise (OverflowError (pystr "date value out of range")))
  /\ (datetime.toordinal start_date + 7 <= datetime._MAXORDINAL ->
      exists x, valid_date x = true /\ datetime.lt start_date x = true
                /\ datetime.weekday x = t).
Proof.
  intros V Ht.
  destruct (find_next_weekday_cases start_date t V Ht) as (k & Hk & M & K7 & ->).
  pose proof (toordinal_bounds start_date V) as B.
  assert (Reach : 1 <= datetime.toordinal start_date + k <= datetime._MAXORDINAL ->
            exists r, datetime.add_days start_date k = Return r
              /\ valid_date r = true /\ datetime.weekday r = t
              /\ datetime.lt start_date r = true
              /\ datetime.toordinal r = datetime.toordinal start_date + k).
  { intros R. destruct (add_days_spec start_date k V R) as (r & -> & Vr & Er).
    exists r. repeat split; try assumption.
    - rewrite (weekday_of_sum start_date r k Er). exact M.
    - apply (lt_ordinal start_date r V Vr). lia. }
  repeat split.
  - intros (x & Vx & Lx & Wx).
    apply (lt_ordinal start_date x V Vx) in Lx.
    pose proof (toordinal_bounds x Vx) as Bx.
    assert (Least : datetime.toordinal start_date + k <= datetime.toordinal x).
    { apply (next_weekday_least _ _ k t); try assumption. }
    destruct (Reach ltac:(lia)) as (r & E & Vr & Wr & Lr & Er).
    exists r. repeat split; try assumption.
    + intros y Vy Ly Wy. apply (lt_ordinal start_date y V Vy) in Ly.
      destruct (datetime.lt y r) eqn:L; [|reflexivity].
      apply (lt_ordinal y r Vy Vr) in L.
      pose proof (next_weekday_least _ _ k t Hk M Ly Wy). lia.
    + intros W. unfold datetime.sub_days. rewrite (K7 W) in Er. lia.
    + intros ->. lia.
  - intros N. apply add_days_overflow. intros R.
    destruct (Reach R) as (r & _ & Vr & Wr & Lr & _).
    apply N. exists r. auto.
  - intros H7. destruct (Reach ltac:(lia)) as (r & _ & Vr & Wr & Lr & _).
    exists r. auto.
Qed.

Lemma find_next_weekday_smallest_later_witness :
  exists r, find_next_weekday (datetime.mkdate 2024 6 17) MONDAY = Return r
    /\ datetime.sub_days r (datetime.mkdate 2024 6 17) = 7.
Proof.
  destruct (find_next_weekday_smallest_later (datetime.mkdate 2024 6 17) MONDAY)
    as (H & _ & _).
  - vm_compute. reflexivity.
  - vm_compute. split; discriminate.
  - destruct H as (r & E & _ & _ & _ & _ & S & _).
    + exists (datetime.mkdate 2024 6 24). vm_compute. repeat split.
    + exists r. split; [exact E | apply S; vm_compute; reflexivity].
Defined.

(** ** The phone validator *)

Lemma ascii_digit_isdecimal (c : char) :
  ascii_digit c = true -> decimal_value c = Some (Z.of_N c - 48).
Proof.
  unfold ascii_digit. intros H. apply andb_true_iff in H.
  destruct H as [H1 H2]. apply N.leb_le in H1, H2.
  unfold decimal_value, nd_block_starts. cbn [find].
  unfold in_range. cbn [fst snd].
  replace (48 <=? c)%N with true by (symmetry; apply N.leb_le; exact H1).
  replace (c <=? 48 + 9)%N with true by (symmetry; apply N.leb_le; exact H2).
  cbn [andb]. f_equal. lia.
Qed.

Lemma ascii_digit_isdigit (c : char) :
  ascii_digit c = true -> isdigit_char c = true.
Proof.
  intros H. unfold isdigit_char, isdecimal_char.
  rewrite (ascii_digit_isdecimal c H). reflexivity.
Qed.

Lemma isdigit_forallb (s : str) :
  isdigit s = true <-> s <> [] /\ forallb isdigit_char s = true.
Proof.
  destruct s; cbn [isdigit].
  - split; [discriminate | intros [H _]; congruence].
  - split; [intros H; split; [discriminate | exact H] | tauto].
Qed.

(** C3, as stated, fails: ten superscript twos are no decimal digits, in
    ASCII or in Unicode, and [Phone] accepts them. *)
Lemma Phone_accepts_superscript_digits :
  len superscript_twos = 10
  /\ Forall (fun c => ascii_digit c = false /\ isdecimal_char c = false)
            superscript_twos
  /\ Phone.init 0 superscript_twos = Return (Phone.mk 0 superscript_twos).
Proof.
  split; [reflexivity|]. split; [|vm_compute; reflexivity].
  repeat constructor.
Qed.

(** C3, amended: [Phone(raw)] raises [ValueError] whenever [raw] does not
    have ten characters or has a character that [str.isdigit] rejects, a
    character whose Unicode numeric type is neither Decimal nor Digit; on
    every string of ten characters that it accepts, the ten decimal digit
    strings among them, it succeeds and the value stored is [raw]. *)
Theorem Phone_init_ten_digits (oid : nat) (raw : str) :
  (len raw <> 10 \/ (exists c, In c raw /\ isdigit_char c = false) ->
   Phone.init oid raw = Raise (ValueError (pystr "Phone must be 10 digits.")))
  /\ (len raw = 10 -> (forall c, In c raw -> isdigit_char c = true) ->
      Phone.init oid raw = Return (Phone.mk oid raw))
  /\ (len raw = 10 -> (forall c, In c raw -> ascii_digit c = true) ->
      Phone.init oid raw = Return (Phone.mk oid raw))
  /\ (forall phone, Phone.init oid raw = Return phone ->
                    Phone.value phone = raw /\ Phone.oid phone = oid).
Proof.
  assert (Ok : len raw = 10 -> (forall c, In c raw -> isdigit_char c = true) ->
               Phone.init oid raw = Return (Phone.mk oid raw)).
  { intros L D. unfold Phone.init.
    replace (isdigit raw) with true.
    - rewrite L. reflexivity.
    - symmetry. apply isdigit_forallb. split.
      + intros ->. discriminate L.
      + apply forallb_forall. exact D. }
  repeat split.
  - intros H. unfold Phone.init.
    destruct (isdigit raw && (len raw =? 10)) eqn:E; [|reflexivity].
    apply andb_true_iff in E. destruct E as [D L].
    apply Z.eqb_eq in L. apply isdigit_forallb in D. destruct D as [_ D].
    rewrite forallb_forall in D.
    destruct H as [H | (c & Hc & Hd)]; [contradiction|].
    rewrite (D c Hc) in Hd. discriminate.
  - exact Ok.
  - intros L D. apply Ok; [exact L|].
    intros c Hc. apply ascii_digit_isdigit, D, Hc.
  - unfold Phone.init in H. destruct (isdigit raw && (len raw =? 10));
      inversion H; reflexivity.
  - unfold Phone.init in H. destruct (isdigit raw && (len raw =? 10));
      inversion H; reflexivity.
Qed.

Lemma Phone_init_ten_digits_witness :
  Phone.init 7 (pystr "0501234567") = Return (Phone.mk 7 (pystr "0501234567"))
  /\ Phone.init 7 (pystr "050123456") = Raise (ValueError (pystr "Phone must be 10 digits."))
  /\ Phone.init 7 (pystr "05012345a7") = Raise (ValueError (pystr "Phone must be 10 digits.")).
Proof.
  split; [|split].
  - destruct (Phone_init_ten_digits 7 (pystr "0501234567")) as (_ & _ & H & _).
    apply H; [reflexivity|].
    intros c Hc. vm_compute in Hc.
    repeat (destruct Hc as [<- | Hc]; [reflexivity|]). destruct Hc.
  - destruct (Phone_init_ten_digits 7 (pystr "050123456")) as (H & _).
    apply H. left. vm_compute. discriminate.
  - destruct (Phone_init_ten_digits 7 (pystr "05012345a7")) as (H & _).
    apply H. right. exists 97%N. split; [vm_compute; tauto | vm_compute; reflexivity].
Defined.

(** ** Formatting *)

Lemma fmt_02d_table :
  forallb (fun k => let n := Z.of_nat k in
                    str_eqb (datetime.fmt_02d n)
                            [digit_char (n / 10); digit_char (n mod 10)])
          (seq 0 100) = true.
Proof. vm_compute. reflexivity. Qed.

Lemma fmt_02d_digits (n : Z) :
  0 <= n < 100 ->
  datetime.fmt_02d n = [digit_char (n / 10); digit_char (n mod 10)].
Proof.
  intros H. pose proof fmt_02d_table as T. rewrite forallb_forall in T.
  specialize (T (Z.to_nat n)). cbv zeta in T. rewrite Z2Nat.id in T by lia.
  apply str_eqb_eq, T, in_seq. lia.
Qed.

Lemma str_of_int_table :
  forallb (fun k => let n := Z.of_nat k in
                    str_eqb (str_of_int n)
                            [digit_char (n / 1000); digit_char (n / 100 mod 10);
                             digit_char (n / 10 mod 10); digit_char (n mod 10)])
          (seq (Z.to_nat 1000) (Z.to_nat 9000)) = true.
Proof. vm_compute. reflexivity. Qed.

Lemma str_of_int_digits (n : Z) :
  1000 <= n <= 9999 ->
  str_of_int n = [digit_char (n / 1000); digit_char (n / 100 mod 10);
                  digit_char (n / 10 mod 10); digit_char (n mod 10)].
Proof.
  intros H. pose proof str_of_int_table as T. rewrite forallb_forall in T.
  specialize (T (Z.to_nat n)). cbv zeta in T. rewrite Z2Nat.id in T by lia.
  apply str_eqb_eq, T, in_seq. lia.
Qed.

Lemma ascii_digit_digit_char (n : Z) :
  0 <= n <= 9 -> ascii_digit (digit_char n) = true.
Proof.
  intros H. unfold ascii_digit, digit_char.
  apply andb_true_iff. rewrite !N.leb_le. lia.
Qed.

Lemma strftime_shape (c : datetime.date) :
  valid_date c = true -> 1000 <= datetime.year c ->
  is_DD_MM_YYYY (datetime.strftime_dmY c) = true.
Proof.
  intros V Y. apply valid_ymd_iff in V. destruct V as (Hy & Hm & Hd).
  assert (datetime._days_in_month (datetime.year c) (datetime.month c) <= 31).
  { unfold datetime._days_in_month.
    destruct ((datetime.month c =? 2) && datetime._is_leap (datetime.year c)); [lia|].
    generalize dependent (datetime.month c). intros m Hm _.
    assert (H : m = 1 \/ m = 2 \/ m = 3 \/ m = 4 \/ m = 5 \/ m = 6 \/ m = 7
              \/ m = 8 \/ m = 9 \/ m = 10 \/ m = 11 \/ m = 12) by lia.
    repeat (destruct H as [H | H]); subst m; vm_compute; discriminate. }
  unfold datetime.strftime_dmY.
  rewrite (fmt_02d_digits (datetime.day c)), (fmt_02d_digits (datetime.month c)),
    (str_of_int_digits (datetime.year c)) by lia.
  cbn [app is_DD_MM_YYYY]. rewrite N.eqb_refl.
  rewrite !ascii_digit_digit_char; [reflexivity | ..];
    Z.div_mod_to_equations; lia.
Qed.

(** ** The birthday report *)

Lemma new_outcome y m d :
  (datetime.new y m d = Return (datetime.mkdate y m d) /\ valid_ymd y m d = true)
  \/ (exists msg, datetime.new y m d = Raise (ValueError msg) /\ valid_ymd y m d = false).
Proof.
  destruct (valid_ymd y m d) eqn:V.
  - left. split; [apply new_valid, V | reflexivity].
  - right. destruct (new_invalid y m d V) as [msg E]. exists msg. auto.
Qed.

Lemma strptime_outcome (s : str) :
  (exists d, datetime.strptime_dmY s = Return d /\ valid_date d = true)
  \/ (exists msg, datetime.strptime_dmY s = Raise (ValueError msg)).
Proof.
  unfold datetime.strptime_dmY.
  destruct (datetime.regex_match _ s) as [[found rest]|]; [|right; eexists; reflexivity].
  destruct rest; [|right; eexists; reflexivity].
  destruct found as [|d [|x1 [|m [|x2 [|Y [|]]]]]]; try (right; eexists; reflexivity).
  destruct (int_of_str Y) as [year|]; [|right; eexists; reflexivity].
  destruct (int_of_str m) as [month|]; [|right; eexists; reflexivity].
  destruct (int_of_str d) as [day|]; [|right; eexists; reflexivity].
  destruct (new_outcome year month day) as [[E V] | (msg & E & _)].
  - left. eexists. split; [exact E | exact V].
  - right. exists msg. exact E.
Qed.

(** The date the report works with: it has the month and the day of the
    birthday, in this year when that is not before today, else in the
    next. *)
Lemma birthday_this_year_Return today b d :
  AddressBook.birthday_this_year today b = Return d ->
  valid_date d = true
  /\ exists bd, datetime.strptime_dmY (Birthday.value b) = Return bd
       /\ datetime.month d = datetime.month bd
       /\ datetime.day d = datetime.day bd
       /\ ((datetime.year d = datetime.year today
            /\ datetime.lt d today = false)
           \/ (datetime.year d = datetime.year today + 1
               /\ datetime.lt (datetime.mkdate (datetime.year today)
                                 (datetime.month bd) (datetime.day bd))
                              today = true)).
Proof.
  unfold AddressBook.birthday_this_year, datetime.replace_year.
  destruct (strptime_outcome (Birthday.value b)) as [(bd & -> & Vb) | (msg & ->)];
    cbn [bind]; [|discriminate].
  destruct (new_outcome (datetime.year today) (datetime.month bd) (datetime.day bd))
    as [[-> V1] | (msg & -> & _)]; cbn [bind]; [|discriminate].
  destruct (datetime.lt _ today) eqn:L.
  - destruct (new_outcome (datetime.year today + 1) (datetime.month bd) (datetime.day bd))
      as [[-> V2] | (msg & -> & _)]; [|discriminate].
    intros H. inversion H. subst d. split; [exact V2|].
    exists bd. cbn [datetime.year datetime.month datetime.day].
    repeat split; try reflexivity. right. split; [reflexivity | exact L].
  - intros H. inversion H. subst d. split; [exact V1|].
    exists bd. cbn [datetime.year datetime.month datetime.day].
    repeat split; try reflexivity. left. split; [reflexivity | exact L].
Qed.

Lemma birthday_this_year_Raise today b e :
  AddressBook.birthday_this_year today b = Raise e -> exists msg, e = ValueError msg.
Proof.
  unfold AddressBook.birthday_this_year, datetime.replace_year.
  destruct (strptime_outcome (Birthday.value b)) as [(bd & -> & Vb) | (msg & ->)];
    cbn [bind]; [|intros H; inversion H; eexists; reflexivity].
  destruct (new_outcome (datetime.year today) (datetime.month bd) (datetime.day bd))
    as [[-> V1] | (msg & -> & _)]; cbn [bind];
    [|intros H; inversion H; eexists; reflexivity].
  destruct (datetime.lt _ today); [|discriminate].
  destruct (new_outcome (datetime.year today + 1) (datetime.month bd) (datetime.day bd))
    as [[-> V2] | (msg & -> & _)]; [discriminate|].
  intros H; inversion H; eexists; reflexivity.
Qed.

(** One turn of the loop. *)
Lemma report_step record records days today acc :
  AddressBook.report (record :: records) days today acc
  = match Record_.birthday record with
    | Some b =>
        match AddressBook.birthday_this_year today b with
        | Return d =>
            if in_window days today record then
              match adjust_for_weekend d with
              | Return c =>
                  AddressBook.report records days today
                    (acc ++ [AddressBook.mk_entry (record_name record)
                                                  (datetime.strftime_dmY c)])
              | Raise e => Raise e
              end
            else AddressBook.report records days today acc
        | Raise e => Raise e
        end
    | None => AddressBook.report records days today acc
    end.
Proof.
  cbn [AddressBook.report]. unfold in_window.
  destruct (Record_.birthday record) as [b|]; [|reflexivity].
  destruct (AddressBook.birthday_this_year today b); reflexivity.
Qed.

(** When every projection is defined the loop runs to its end, and adds
    an entry for each record in the window, in the order of the records. *)
Lemma report_spec records days today :
  forallb (projectable today) records = true ->
  forall acc, exists L,
    AddressBook.report records days today acc = Return (acc ++ L)
    /\ Forall2 (reported today) (filter (in_window days today) records) L.
Proof.
  induction records as [|record records IH]; intros P acc.
  - exists []. rewrite app_nil_r. split; [reflexivity | constructor].
  - cbn [forallb] in P. apply andb_true_iff in P. destruct P as [P1 P].
    rewrite report_step. cbn [filter]. unfold projectable in P1.
    destruct (Record_.birthday record) as [b|] eqn:B.
    2:{ replace (in_window days today record) with false
          by (unfold in_window; rewrite B; reflexivity).
        apply IH, P. }
    destruct (AddressBook.birthday_this_year today b) as [d|] eqn:D; [|discriminate].
    destruct (in_window days today record) eqn:W; [|apply IH, P].
    destruct (birthday_this_year_Return today b d D) as [Vd _].
    destruct (adjust_for_weekend_total d Vd) as (c & Ec & Vc & _). rewrite Ec.
    destruct (IH P (acc ++ [AddressBook.mk_entry (record_name record)
                                                 (datetime.strftime_dmY c)]))
      as (L & -> & F).
    exists (AddressBook.mk_entry (record_name record) (datetime.strftime_dmY c) :: L).
    rewrite <- app_assoc. split; [reflexivity|].
    constructor; [|exact F]. exists b, d, c. auto.
Qed.

(** A record whose projection raises stops the loop, there or earlier. *)
Lemma report_raises records days today record b e :
  In record records -> Record_.birthday record = Some b ->
  AddressBook.birthday_this_year today b = Raise e ->
  forall acc, exists msg,
    AddressBook.report records days today acc = Raise (ValueError msg).
Proof.
  intros Hin B D. induction records as [|r records IH]; [destruct Hin|].
  intros acc. rewrite report_step.
  destruct Hin as [-> | Hin].
  - rewrite B, D. destruct (birthday_this_year_Raise today b e D) as [msg ->].
    exists msg. reflexivity.
  - destruct (Record_.birthday r) as [b'|]; [|apply IH, Hin].
    destruct (AddressBook.birthday_this_year today b') as [d|e'] eqn:D'.
    + destruct (in_window days today r); [|apply IH, Hin].
      destruct (birthday_this_year_Return today b' d D') as [Vd _].
      destruct (adjust_for_weekend_total d Vd) as (c & -> & _). apply IH, Hin.
    + destruct (birthday_this_year_Raise today b' e' D') as [msg ->].
      exists msg. reflexivity.
Qed.

Lemma leap_succ (y : Z) :
  datetime._is_leap y = true -> datetime._is_leap (y + 1) = false.
Proof.
  unfold datetime._is_leap. intros H. apply andb_true_iff in H.
  destruct H as [H _]. apply Z.eqb_eq in H.
  replace ((y + 1) mod 4 =? 0) with false; [reflexivity|].
  symmetry. apply Z.eqb_neq. Z.div_mod_to_equations. lia.
Qed.

Lemma leap_day_invalid (y : Z) :
  datetime._is_leap y = false -> valid_ymd y 2 29 = false.
Proof.
  intros L. unfold valid_ymd, datetime._days_in_month. rewrite L.
  cbn [andb Z.eqb]. change (datetime.index datetime._DAYS_IN_MONTH 2) with 28.
  change (29 <=? 28) with false. rewrite !andb_false_r. reflexivity.
Qed.

(** The projection of a leap-day birthday raises in a year that is not a
    leap year, and in a leap year once 29 February has passed. *)
Lemma leap_day_projection_raises today b y :
  valid_date today = true ->
  datetime.strptime_dmY (Birthday.value b) = Return (datetime.mkdate y 2 29) ->
  datetime._is_leap (datetime.year today) = false
  \/ datetime.lt (datetime.mkdate (datetime.year today) 2 29) today = true ->
  exists msg, AddressBook.birthday_this_year today b = Raise (ValueError msg).
Proof.
  intros V S H. unfold AddressBook.birthday_this_year, datetime.replace_year.
  rewrite S. cbn [bind datetime.month datetime.day].
  destruct (datetime._is_leap (datetime.year today)) eqn:L.
  - destruct H as [H | H]; [discriminate|].
    destruct (new_outcome (datetime.year today) 2 29) as [[-> _] | (msg & -> & _)];
      cbn [bind]; [|exists msg; reflexivity].
    rewrite H.
    destruct (new_invalid (datetime.year today + 1) 2 29) as [msg ->].
    + apply leap_day_invalid, leap_succ, L.
    + exists msg. reflexivity.
  - destruct (new_invalid (datetime.year today) 2 29) as [msg ->].
    + apply leap_day_invalid, L.
    + exists msg. reflexivity.
Qed.

(** C5: "29.02.2020" is a birthday the validator accepts, and the report
    raises [ValueError] on every directory that holds a record with a
    29 February birthday when today's year is not a leap year, and also
    when it is one and 29 February has passed, the projection then going
    to the year after. *)
Theorem leap_day_birthday_raises :
  Birthday.init (pystr "29.02.2020") = Return (Birthday.mk (pystr "29.02.2020"))
  /\ forall book record b y days today,
       valid_date today = true ->
       In record (AddressBook.values book) ->
       Record_.birthday record = Some b ->
       datetime.strptime_dmY (Birthday.value b) = Return (datetime.mkdate y 2 29) ->
       datetime._is_leap (datetime.year today) = false
       \/ datetime.lt (datetime.mkdate (datetime.year today) 2 29) today = true ->
       exists msg,
         AddressBook.get_upcoming_birthdays book days today
         = Raise (ValueError msg).
Proof.
  split; [vm_compute; reflexivity|].
  intros book record b y days today V Hin B S H.
  destruct (leap_day_projection_raises today b y V S H) as [msg D].
  unfold AddressBook.get_upcoming_birthdays.
  exact (report_raises _ days today record b _ Hin B D []).
Qed.

Lemma leap_day_birthday_raises_witness :
  (exists msg,
      AddressBook.get_upcoming_birthdays leap_book 7 (datetime.mkdate 2023 6 10)
      = Raise (ValueError msg))
  /\ (exists msg,
         AddressBook.get_upcoming_birthdays leap_book 7 (datetime.mkdate 2024 3 1)
         = Raise (ValueError msg)).
Proof.
  destruct leap_day_birthday_raises as [_ H]. split.
  - apply (H leap_book leap_ann (Birthday.mk (pystr "29.02.2020")) 2020).
    + vm_compute. reflexivity.
    + left. reflexivity.
    + reflexivity.
    + vm_compute. reflexivity.
    + left. vm_compute. reflexivity.
  - apply (H leap_book leap_ann (Birthday.mk (pystr "29.02.2020")) 2020).
    + vm_compute. reflexivity.
    + left. reflexivity.
    + reflexivity.
    + vm_compute. reflexivity.
    + right. vm_compute. reflexivity.
Defined.

(** ** The report, claim by claim *)

Lemma Forall2_In_l {A B : Type} (R : A -> B -> Prop) l1 l2 x :
  Forall2 R l1 l2 -> In x l1 -> exists y, In y l2 /\ R x y.
Proof.
  induction 1 as [|a b l1 l2 Hab _ IH]; intros Hin; [destruct Hin|].
  destruct Hin as [<- | Hin].
  - exists b. split; [left; reflexivity | exact Hab].
  - destruct (IH Hin) as (y & Hy & Hxy). exists y. split; [right; exact Hy | exact Hxy].
Qed.

Lemma Forall2_In_r {A B : Type} (R : A -> B -> Prop) l1 l2 y :
  Forall2 R l1 l2 -> In y l2 -> exists x, In x l1 /\ R x y.
Proof.
  induction 1 as [|a b l1 l2 Hab _ IH]; intros Hin; [destruct Hin|].
  destruct Hin as [<- | Hin].
  - exists a. split; [left; reflexivity | exact Hab].
  - destruct (IH Hin) as (x & Hx & Hxy). exists x. split; [right; exact Hx | exact Hxy].
Qed.

Lemma NoDup_map_eq {A B : Type} (f : A -> B) (l : list A) x y :
  NoDup (map f l) -> In x l -> In y l -> f x = f y -> x = y.
Proof.
  induction l as [|a l IH]; cbn; intros N Hx Hy E; [destruct Hx|].
  inversion N as [|? ? Na Nl]; subst.
  destruct Hx as [<- | Hx], Hy as [<- | Hy]; try reflexivity.
  - exfalso. apply Na. rewrite E. apply in_map, Hy.
  - exfalso. apply Na. rewrite <- E. apply in_map, Hx.
  - apply IH; assumption.
Qed.

Lemma lt_false_year (a b : datetime.date) :
  datetime.lt a b = false -> datetime.year b <= datetime.year a.
Proof.
  unfold datetime.lt. intros H. apply orb_false_iff in H.
  destruct H as [H _]. apply Z.ltb_ge in H. exact H.
Qed.

(** The text of a reported date, for a year of four digits. *)
Lemma reported_shape today record e :
  1000 <= datetime.year today -> reported today record e ->
  is_DD_MM_YYYY (AddressBook.congratulation_date e) = true.
Proof.
  intros Y (b & d & c & _ & D & C & ->). cbn [AddressBook.congratulation_date].
  destruct (birthday_this_year_Return today b d D) as (Vd & bd & _ & _ & _ & Hy).
  destruct (adjust_for_weekend_total d Vd) as (c' & C' & Vc & S).
  rewrite C in C'. inversion C'. subst c'.
  apply strftime_shape; [exact Vc|].
  assert (datetime.year d <= datetime.year c).
  { apply lt_false_year. destruct (datetime.lt c d) eqn:L; [|reflexivity].
    apply (lt_ordinal c d Vc Vd) in L. unfold datetime.sub_days in S. lia. }
  lia.
Qed.

(** C1, as stated, fails: with a leap-day birthday in the directory and a
    year that is no leap year the call raises, and the record whose
    birthday is two days ahead is in no report. *)
Lemma report_stops_at_leap_day :
  AddressBook.get_upcoming_birthdays leap_book 7 (datetime.mkdate 2023 6 10)
  = Raise (ValueError (pystr "day is out of range for month"))
  /\ In bob (AddressBook.values leap_book)
  /\ Record_.birthday bob = Some (Birthday.mk (pystr "12.06.1990"))
  /\ AddressBook.birthday_this_year (datetime.mkdate 2023 6 10)
       (Birthday.mk (pystr "12.06.1990")) = Return (datetime.mkdate 2023 6 12)
  /\ datetime.sub_days (datetime.mkdate 2023 6 12) (datetime.mkdate 2023 6 10) = 2.
Proof.
  split; [vm_compute; reflexivity|].
  split; [right; left; reflexivity|].
  repeat split.
Qed.

(** C1, amended: when the birthday of every record can be projected onto
    the year the loop asks for, [get_upcoming_birthdays] returns a list
    that has, in the order of the directory, one entry for each record
    whose birthday is set and whose next occurrence is 0 to [days] days
    ahead, and no other entry; the next occurrence has the month and the
    day of the birthday, in today's year, or in the year after when that
    date is before today.  An entry carries the name of its record and
    that date, moved off the weekend, formatted [%d.%m.%Y], which is
    DD.MM.YYYY for a year of four digits. *)
Theorem upcoming_birthdays_in_window
        (book : AddressBook.t) (days : Z) (today : datetime.date) :
  forallb (projectable today) (AddressBook.values book) = true ->
  exists L,
    AddressBook.get_upcoming_birthdays book days today = Return L
    /\ Forall2 (reported today)
               (filter (in_window days today) (AddressBook.values book)) L
    /\ (forall record b d,
           In record (AddressBook.values book) ->
           Record_.birthday record = Some b ->
           AddressBook.birthday_this_year today b = Return d ->
           (In record (filter (in_window days today) (AddressBook.values book))
            <-> 0 <= datetime.sub_days d today <= days)
           /\ (well_formed book ->
               ((exists e, In e L /\ AddressBook.name e = record_name record)
                <-> 0 <= datetime.sub_days d today <= days)))
    /\ (forall b d,
           AddressBook.birthday_this_year today b = Return d ->
           exists bd,
             datetime.strptime_dmY (Birthday.value b) = Return bd
             /\ datetime.month d = datetime.month bd
             /\ datetime.day d = datetime.day bd
             /\ ((datetime.year d = datetime.year today
                  /\ datetime.lt d today = false)
                 \/ (datetime.year d = datetime.year today + 1
                     /\ datetime.lt (datetime.mkdate (datetime.year today)
                                       (datetime.month bd) (datetime.day bd))
                                    today = true)))
    /\ (1000 <= datetime.year today ->
        forall e, In e L ->
                  is_DD_MM_YYYY (AddressBook.congratulation_date e) = true).
Proof.
  intros P. unfold AddressBook.get_upcoming_birthdays.
  destruct (report_spec (AddressBook.values book) days today P []) as (L & E & F).
  exists L. split; [exact E|]. split; [exact F|]. split; [|split].
  - intros record b d Hin B D.
    assert (W : in_window days today record = true
                <-> 0 <= datetime.sub_days d today <= days).
    { unfold in_window. rewrite B, D. rewrite andb_true_iff, !Z.leb_le. tauto. }
    rewrite <- W. split; [rewrite filter_In; tauto|].
    intros WF. pose proof (well_formed_names book WF) as N. split.
    + intros (e & He & Hn).
      destruct (Forall2_In_r _ _ _ e F He) as (record' & Hr & (b' & d' & c' & _ & _ & _ & ->)).
      apply filter_In in Hr. destruct Hr as [Hr Wr].
      cbn [AddressBook.name] in Hn.
      rewrite <- (NoDup_map_eq record_name _ record' record N Hr Hin Hn). exact Wr.
    + intros Wr.
      assert (Hf : In record (filter (in_window days today) (AddressBook.values book)))
        by (apply filter_In; auto).
      destruct (Forall2_In_l _ _ _ record F Hf) as (e & He & (b' & d' & c' & _ & _ & _ & ->)).
      eexists. split; [exact He | reflexivity].
  - intros b d D. apply (birthday_this_year_Return today b d D).
  - intros Y e He.
    destruct (Forall2_In_r _ _ _ e F He) as (record & _ & R).
    exact (reported_shape today record e Y R).
Qed.

Lemma upcoming_birthdays_in_window_witness :
  exists L,
    AddressBook.get_upcoming_birthdays june_book 7 (datetime.mkdate 2024 6 10) = Return L
    /\ Forall2 (reported (datetime.mkdate 2024 6 10)) [bob; cid] L.
Proof.
  destruct (upcoming_birthdays_in_window june_book 7 (datetime.mkdate 2024 6 10))
    as (L & E & F & _).
  - vm_compute. reflexivity.
  - exists L. split; [exact E | exact F].
Defined.

(** ** The birthday validator *)

Lemma match_alternative_sound a s m rest :
  datetime.match_alternative a s = Some (m, rest) ->
  s = m ++ rest /\ datetime.match_alternative a m = Some (m, []).
Proof.
  revert s m rest.
  induction a as [|cls a IH]; intros s m rest; cbn.
  - intros H. inversion H. split; reflexivity.
  - destruct s as [|c s]; [discriminate|].
    destruct (cls c) eqn:C; [|discriminate].
    destruct (datetime.match_alternative a s) as [[m' rest']|] eqn:M; [|discriminate].
    intros H. inversion H. subst. destruct (IH s m' rest M) as [-> F].
    split; [reflexivity|]. cbn. rewrite C, F. reflexivity.
Qed.

Lemma match_alternative_app a m rest :
  datetime.match_alternative a m = Some (m, []) ->
  datetime.match_alternative a (m ++ rest) = Some (m, rest).
Proof.
  revert m. induction a as [|cls a IH]; intros m; cbn.
  - intros H. inversion H. reflexivity.
  - destruct m as [|c m]; [discriminate|]. cbn.
    destruct (cls c); [|discriminate].
    destruct (datetime.match_alternative a m) as [[m' rest']|] eqn:M; [|discriminate].
    intros H. inversion H. subst. rewrite (IH m M). reflexivity.
Qed.

Lemma full_match_iff a m :
  full_match a m = true <-> datetime.match_alternative a m = Some (m, []).
Proof.
  unfold full_match. split.
  - destruct (datetime.match_alternative a m) as [[m' [|]]|] eqn:M; try discriminate.
    intros _. destruct (match_alternative_sound a m m' [] M) as [E _].
    rewrite app_nil_r in E. subst m'. reflexivity.
  - intros ->. reflexivity.
Qed.

(** Whatever the expression matches is, group by group, a text of the group. *)
Lemma regex_match_sound groups :
  forall s found rest,
    datetime.regex_match groups s = Some (found, rest) ->
    s = concat found ++ rest
    /\ Forall2 (fun g m => in_group g m = true) groups found.
Proof.
  induction groups as [|g groups IH]; intros s found rest; cbn [datetime.regex_match].
  - intros H. inversion H. split; [reflexivity | constructor].
  - assert (G : forall alts,
               (forall a, In a alts -> In a g) ->
               (fix try (alts : list datetime.alternative) :=
                  match alts with
                  | [] => None
                  | a :: alts' =>
                      match datetime.match_alternative a s with
                      | Some (m, s') =>
                          match datetime.regex_match groups s' with
                          | Some (ms, rest) => Some (m :: ms, rest)
                          | None => try alts'
                          end
                      | None => try alts'
                      end
                  end) alts = Some (found, rest) ->
               s = concat found ++ rest
               /\ Forall2 (fun g m => in_group g m = true) (g :: groups) found).
    { induction alts as [|a alts IHa]; intros Sub; [discriminate|].
      destruct (datetime.match_alternative a s) as [[m s']|] eqn:M;
        [|apply IHa; intros; apply Sub; right; assumption].
      destruct (datetime.regex_match groups s') as [[ms rest']|] eqn:R;
        [|apply IHa; intros; apply Sub; right; assumption].
      intros H. inversion H. subst.
      destruct (match_alternative_sound a s m s' M) as [-> F].
      destruct (IH s' ms rest R) as [-> F2].
      split; [cbn; rewrite app_assoc; reflexivity|].
      constructor; [|exact F2].
      unfold in_group. apply existsb_exists. exists a.
      split; [apply Sub; left; reflexivity | apply full_match_iff, F]. }
    apply G. auto.
Qed.

(** The first alternative that matches is taken when what follows
    matches too; earlier ones must not match. *)
Lemma regex_match_first g1 a g2 groups m s' ms rest :
  (forall a', In a' g1 -> datetime.match_alternative a' (m ++ s') = None) ->
  datetime.match_alternative a m = Some (m, []) ->
  datetime.regex_match groups s' = Some (ms, rest) ->
  datetime.regex_match ((g1 ++ a :: g2) :: groups) (m ++ s') = Some (m :: ms, rest).
Proof.
  intros N M R. cbn [datetime.regex_match].
  induction g1 as [|a' g1 IH]; cbn [app].
  - rewrite (match_alternative_app a m s' M), R. reflexivity.
  - rewrite (N a' (or_introl eq_refl)). apply IH.
    intros x Hx. apply N. right. exact Hx.
Qed.

Ltac destruct_tests :=
  repeat match goal with
  | |- context [if ?b then _ else _] => destruct b eqn:?
  end.

Ltac rewrite_tests :=
  repeat match goal with
  | H : ?b = _ |- context [?b] => rewrite H
  end.

(** Evaluates the character classes on the dot. *)
Ltac eval_dot :=
  repeat match goal with
  | |- context [?f DOT] =>
      let v := eval vm_compute in (f DOT) in
      match v with true => idtac | false => idtac end;
      change (f DOT) with v
  end.

Ltac earlier_fail :=
  let a' := fresh "a'" in
  let Hin := fresh "Hin" in
  intros a' Hin; cbn [In] in Hin;
  repeat (destruct Hin as [Hin | Hin]; [subst a' |]);
  try contradiction;
  cbn [app datetime.match_alternative]; rewrite_tests; eval_dot; reflexivity.

Ltac pick g1 a g2 :=
  exists g1, a, g2;
  split; [reflexivity |
  split; [cbn [datetime.match_alternative]; rewrite_tests; reflexivity
         | earlier_fail]].

Ltac space_is_no_digit :=
  match goal with
  | H : datetime.one SPACE ?x = true, H' : datetime.between _ _ ?x = true |- _ =>
      apply N.eqb_eq in H; subst x; vm_compute in H'; discriminate H'
  end.

Lemma regex_d_first ds s' :
  in_group datetime.regex_d ds = true ->
  exists g1 a g2,
    datetime.regex_d = g1 ++ a :: g2
    /\ datetime.match_alternative a ds = Some (ds, [])
    /\ forall a', In a' g1 ->
                  datetime.match_alternative a' (ds ++ DOT :: s') = None.
Proof.
  destruct ds as [|x [|y [|z ds]]]; unfold in_group, full_match, datetime.regex_d;
  cbn [existsb datetime.match_alternative];
  destruct_tests; cbn [orb]; intros H; try discriminate H; clear H.
  all: first
    [ pick (@nil datetime.alternative)
           [datetime.one 51%N; datetime.between 48%N 49%N]
           [[datetime.between 49%N 50%N; isdecimal_char];
            [datetime.one 48%N; datetime.between 49%N 57%N];
            [datetime.between 49%N 57%N];
            [datetime.one SPACE; datetime.between 49%N 57%N]]
    | pick [[datetime.one 51%N; datetime.between 48%N 49%N]]
           [datetime.between 49%N 50%N; isdecimal_char]
           [[datetime.one 48%N; datetime.between 49%N 57%N];
            [datetime.between 49%N 57%N];
            [datetime.one SPACE; datetime.between 49%N 57%N]]
    | pick [[datetime.one 51%N; datetime.between 48%N 49%N];
            [datetime.between 49%N 50%N; isdecimal_char]]
           [datetime.one 48%N; datetime.between 49%N 57%N]
           [[datetime.between 49%N 57%N];
            [datetime.one SPACE; datetime.between 49%N 57%N]]
    | pick [[datetime.one 51%N; datetime.between 48%N 49%N];
            [datetime.between 49%N 50%N; isdecimal_char];
            [datetime.one 48%N; datetime.between 49%N 57%N]]
           [datetime.between 49%N 57%N]
           [[datetime.one SPACE; datetime.between 49%N 57%N]]
    | pick [[datetime.one 51%N; datetime.between 48%N 49%N];
            [datetime.between 49%N 50%N; isdecimal_char];
            [datetime.one 48%N; datetime.between 49%N 57%N];
            [datetime.between 49%N 57%N]]
           [datetime.one SPACE; datetime.between 49%N 57%N]
           (@nil datetime.alternative)
    | exfalso; space_is_no_digit ].
Qed.

Lemma regex_m_first ms s' :
  in_group datetime.regex_m ms = true ->
  exists g1 a g2,
    datetime.regex_m = g1 ++ a :: g2
    /\ datetime.match_alternative a ms = Some (ms, [])
    /\ forall a', In a' g1 ->
                  datetime.match_alternative a' (ms ++ DOT :: s') = None.
Proof.
  destruct ms as [|x [|y [|z ms]]]; unfold in_group, full_match, datetime.regex_m;
  cbn [existsb datetime.match_alternative];
  destruct_tests; cbn [orb]; intros H; try discriminate H; clear H.
  all: first
    [ pick (@nil datetime.alternative)
           [datetime.one 49%N; datetime.between 48%N 50%N]
           [[datetime.one 48%N; datetime.between 49%N 57%N];
            [datetime.between 49%N 57%N]]
    | pick [[datetime.one 49%N; datetime.between 48%N 50%N]]
           [datetime.one 48%N; datetime.between 49%N 57%N]
           [[datetime.between 49%N 57%N]]
    | pick [[datetime.one 49%N; datetime.between 48%N 50%N];
            [datetime.one 48%N; datetime.between 49%N 57%N]]
           [datetime.between 49%N 57%N]
           (@nil datetime.alternative) ].
Qed.

Lemma in_group_single a s :
  in_group [a] s = true -> datetime.match_alternative a s = Some (s, []).
Proof.
  unfold in_group. cbn [existsb]. rewrite orb_false_r. apply full_match_iff.
Qed.

(** A text of each group, with the dots between, is matched to its end,
    group by group. *)
Lemma regex_match_complete ds ms ys :
  in_group datetime.regex_d ds = true ->
  in_group datetime.regex_m ms = true ->
  in_group datetime.regex_Y ys = true ->
  datetime.regex_match datetime.format_regex (ds ++ DOT :: ms ++ DOT :: ys)
  = Some ([ds; [DOT]; ms; [DOT]; ys], []).
Proof.
  intros Hd Hm Hy. unfold datetime.format_regex.
  assert (Dot : forall groups s found rest,
             datetime.regex_match groups s = Some (found, rest) ->
             datetime.regex_match (datetime.regex_dot :: groups) (DOT :: s)
             = Some ([DOT] :: found, rest)).
  { intros groups s found rest R.
    apply (regex_match_first [] [datetime.one DOT] [] groups [DOT] s found rest);
      [intros a' [] | reflexivity | exact R]. }
  assert (Y : datetime.regex_match [datetime.regex_Y] ys = Some ([ys], [])).
  { rewrite <- (app_nil_r ys) at 1.
    apply (regex_match_first [] _ [] [] ys [] [] []);
      [intros a' [] | apply in_group_single, Hy | reflexivity]. }
  destruct (regex_m_first ms ys Hm) as (g1 & a & g2 & -> & Ma & Na).
  destruct (regex_d_first ds (ms ++ DOT :: ys) Hd) as (h1 & b & h2 & -> & Mb & Nb).
  apply (regex_match_first h1 b h2 _ ds (DOT :: ms ++ DOT :: ys)); [exact Nb | exact Mb|].
  apply Dot.
  apply (regex_match_first g1 a g2 _ ms (DOT :: ys)); [exact Na | exact Ma|].
  apply Dot. exact Y.
Qed.

(** What [strptime] accepts: a day, a month and a year as the groups of
    the expression write them, with dots between, that make a date. *)
Lemma strptime_accepts raw date :
  datetime.strptime_dmY raw = Return date <->
  exists ds ms ys y m d,
    raw = ds ++ DOT :: ms ++ DOT :: ys
    /\ in_group datetime.regex_d ds = true
    /\ in_group datetime.regex_m ms = true
    /\ in_group datetime.regex_Y ys = true
    /\ int_of_str ys = Some y /\ int_of_str ms = Some m /\ int_of_str ds = Some d
    /\ valid_ymd y m d = true
    /\ date = datetime.mkdate y m d.
Proof.
  unfold datetime.strptime_dmY. split.
  - destruct (datetime.regex_match datetime.format_regex raw) as [[found rest]|] eqn:R;
      [|discriminate].
    destruct (regex_match_sound _ _ _ _ R) as [E F].
    destruct rest; [|discriminate].
    inversion F as [|? ds ? f1 Hd F1]; subst.
    inversion F1 as [|? x1 ? f2 Hx1 F2]; subst.
    inversion F2 as [|? ms ? f3 Hm F3]; subst.
    inversion F3 as [|? x2 ? f4 Hx2 F4]; subst.
    inversion F4 as [|? ys ? f5 Hy F5]; subst.
    inversion F5; subst.
    destruct (int_of_str ys) as [y|] eqn:Iy; [|discriminate].
    destruct (int_of_str ms) as [m|] eqn:Im; [|discriminate].
    destruct (int_of_str ds) as [d|] eqn:Id; [|discriminate].
    intros N. apply new_Return in N. destruct N as [N V]. subst date.
    assert (Dot : forall x, in_group datetime.regex_dot x = true -> x = [DOT]).
    { intros x Hx. apply in_group_single in Hx.
      destruct x as [|c [|c' x]]; cbn [datetime.match_alternative] in Hx;
        try discriminate Hx.
      - destruct (datetime.one DOT c) eqn:C; [|discriminate Hx].
        apply N.eqb_eq in C. subst c. reflexivity.
      - destruct (datetime.one DOT c); discriminate Hx. }
    rewrite (Dot x1 Hx1), (Dot x2 Hx2).
    exists ds, ms, ys, y, m, d. cbn [concat app]. rewrite !app_nil_r.
    repeat split; assumption.
  - intros (ds & ms & ys & y & m & d & -> & Hd & Hm & Hy & Iy & Im & Id & V & ->).
    rewrite (regex_match_complete ds ms ys Hd Hm Hy), Iy, Im, Id.
    apply new_valid, V.
Qed.

Lemma Birthday_init_cases raw :
  (Birthday.init raw = Return (Birthday.mk raw)
   /\ exists date, datetime.strptime_dmY raw = Return date)
  \/ (Birthday.init raw
      = Raise (ValueError (pystr "Invalid date format. Use DD.MM.YYYY."))
      /\ exists msg, datetime.strptime_dmY raw = Raise (ValueError msg)).
Proof.
  unfold Birthday.init.
  destruct (strptime_outcome raw) as [(d & E & _) | (msg & E)]; rewrite E.
  - left. split; [reflexivity | exists d; reflexivity].
  - right. split; [reflexivity | exists msg; reflexivity].
Qed.

(** *** Dates written DD.MM.YYYY *)

Lemma ascii_digit_cases (c : char) :
  ascii_digit c = true -> In c [48; 49; 50; 51; 52; 53; 54; 55; 56; 57]%N.
Proof.
  unfold ascii_digit. intros H. apply andb_true_iff in H.
  destruct H as [H1 H2]. apply N.leb_le in H1, H2. cbn [In]. lia.
Qed.

Ltac digit_cases H :=
  apply ascii_digit_cases in H; cbn [In] in H;
  repeat (destruct H as [H | H]; [symmetry in H; subst |]); [.. | destruct H].

Lemma in_group_d_pair a b :
  ascii_digit a = true -> ascii_digit b = true ->
  in_group datetime.regex_d [a; b]
  = (1 <=? number2 a b) && (number2 a b <=? 31).
Proof.
  intros Ha Hb. digit_cases Ha; digit_cases Hb; vm_compute; reflexivity.
Qed.

Lemma in_group_m_pair a b :
  ascii_digit a = true -> ascii_digit b = true ->
  in_group datetime.regex_m [a; b]
  = (1 <=? number2 a b) && (number2 a b <=? 12).
Proof.
  intros Ha Hb. digit_cases Ha; digit_cases Hb; vm_compute; reflexivity.
Qed.

Lemma ascii_digit_decimal (c : char) :
  ascii_digit c = true -> isdecimal_char c = true.
Proof.
  intros H. unfold isdecimal_char. rewrite (ascii_digit_isdecimal c H). reflexivity.
Qed.

Lemma in_group_Y_four a b c d :
  ascii_digit a = true -> ascii_digit b = true ->
  ascii_digit c = true -> ascii_digit d = true ->
  in_group datetime.regex_Y [a; b; c; d] = true.
Proof.
  intros Ha Hb Hc Hd. unfold in_group, full_match, datetime.regex_Y.
  cbn [existsb datetime.match_alternative].
  rewrite !ascii_digit_decimal by assumption. reflexivity.
Qed.

Lemma ascii_digit_not_space (c : char) :
  ascii_digit c = true -> N.eqb c SPACE = false.
Proof.
  unfold ascii_digit, SPACE. intros H. apply andb_true_iff in H.
  destruct H as [H _]. apply N.leb_le in H. apply N.eqb_neq. lia.
Qed.

Lemma int_of_str_2 a b :
  ascii_digit a = true -> ascii_digit b = true ->
  int_of_str [a; b] = Some (number2 a b).
Proof.
  intros Ha Hb. unfold int_of_str. cbn [lstrip].
  rewrite (ascii_digit_not_space a Ha). cbn [int_digits].
  rewrite (ascii_digit_isdecimal a Ha), (ascii_digit_isdecimal b Hb).
  unfold number2, digit_val. f_equal; lia.
Qed.

Lemma int_of_str_4 a b c d :
  ascii_digit a = true -> ascii_digit b = true ->
  ascii_digit c = true -> ascii_digit d = true ->
  int_of_str [a; b; c; d] = Some (number4 a b c d).
Proof.
  intros Ha Hb Hc Hd. unfold int_of_str. cbn [lstrip].
  rewrite (ascii_digit_not_space a Ha). cbn [int_digits].
  rewrite (ascii_digit_isdecimal a Ha), (ascii_digit_isdecimal b Hb),
    (ascii_digit_isdecimal c Hc), (ascii_digit_isdecimal d Hd).
  unfold number4, digit_val. f_equal; lia.
Qed.

Lemma is_DD_MM_YYYY_digits d1 d2 p m1 m2 q y1 y2 y3 y4 :
  is_DD_MM_YYYY [d1; d2; p; m1; m2; q; y1; y2; y3; y4] = true ->
  ascii_digit d1 = true /\ ascii_digit d2 = true /\ p = DOT
  /\ ascii_digit m1 = true /\ ascii_digit m2 = true /\ q = DOT
  /\ ascii_digit y1 = true /\ ascii_digit y2 = true
  /\ ascii_digit y3 = true /\ ascii_digit y4 = true.
Proof.
  cbn [is_DD_MM_YYYY]. rewrite !andb_true_iff, !N.eqb_eq. tauto.
Qed.

(** The groups of the day and of the month take one or two characters. *)
Lemma in_group_d_length ds :
  in_group datetime.regex_d ds = true ->
  (exists x, ds = [x]) \/ (exists x y, ds = [x; y]).
Proof.
  destruct ds as [|x [|y [|z ds]]]; unfold in_group, full_match, datetime.regex_d;
  cbn [existsb datetime.match_alternative]; destruct_tests; cbn [orb];
  intros H; try discriminate H; eauto.
Qed.

Lemma in_group_m_length ms :
  in_group datetime.regex_m ms = true ->
  (exists x, ms = [x]) \/ (exists x y, ms = [x; y]).
Proof.
  destruct ms as [|x [|y [|z ms]]]; unfold in_group, full_match, datetime.regex_m;
  cbn [existsb datetime.match_alternative]; destruct_tests; cbn [orb];
  intros H; try discriminate H; eauto.
Qed.

(** A text of ten characters DD.MM.YYYY splits into groups in one way. *)
Lemma strict_split d1 d2 m1 m2 y1 y2 y3 y4 ds ms ys :
  ascii_digit d2 = true -> ascii_digit m2 = true ->
  [d1; d2; DOT; m1; m2; DOT; y1; y2; y3; y4] = ds ++ DOT :: ms ++ DOT :: ys ->
  in_group datetime.regex_d ds = true ->
  in_group datetime.regex_m ms = true ->
  ds = [d1; d2] /\ ms = [m1; m2] /\ ys = [y1; y2; y3; y4].
Proof.
  intros H2 M2 E Hd Hm.
  destruct (in_group_d_length ds Hd) as [(x & ->) | (x & y & ->)];
    cbn [app] in E; inversion E; subst.
  - discriminate H2.
  - destruct (in_group_m_length ms Hm) as [(u & ->) | (u & v & ->)];
      cbn [app] in *; match goal with H : _ :: _ = _ :: _ |- _ => inversion H end; subst.
    + discriminate M2.
    + auto.
Qed.

Lemma digit_char_val (c : char) :
  ascii_digit c = true -> digit_char (digit_val c) = c.
Proof.
  unfold ascii_digit, digit_char, digit_val. intros H. apply andb_true_iff in H.
  destruct H as [H1 H2]. apply N.leb_le in H1, H2. lia.
Qed.

Lemma digit_val_range (c : char) :
  ascii_digit c = true -> 0 <= digit_val c <= 9.
Proof.
  unfold ascii_digit, digit_val. intros H. apply andb_true_iff in H.
  destruct H as [H1 H2]. apply N.leb_le in H1, H2. lia.
Qed.

(** Formatting undoes parsing on DD.MM.YYYY, from year 1000 on. *)
Lemma strftime_numbers d1 d2 m1 m2 y1 y2 y3 y4 :
  ascii_digit d1 = true -> ascii_digit d2 = true ->
  ascii_digit m1 = true -> ascii_digit m2 = true ->
  ascii_digit y1 = true -> ascii_digit y2 = true ->
  ascii_digit y3 = true -> ascii_digit y4 = true ->
  1000 <= number4 y1 y2 y3 y4 ->
  datetime.strftime_dmY
    (datetime.mkdate (number4 y1 y2 y3 y4) (number2 m1 m2) (number2 d1 d2))
  = [d1; d2; DOT; m1; m2; DOT; y1; y2; y3; y4].
Proof.
  intros D1 D2 M1 M2 Y1 Y2 Y3 Y4 Y.
  pose proof (digit_val_range d1 D1). pose proof (digit_val_range d2 D2).
  pose proof (digit_val_range m1 M1). pose proof (digit_val_range m2 M2).
  pose proof (digit_val_range y1 Y1). pose proof (digit_val_range y2 Y2).
  pose proof (digit_val_range y3 Y3). pose proof (digit_val_range y4 Y4).
  unfold datetime.strftime_dmY. cbn [datetime.year datetime.month datetime.day].
  unfold number2, number4 in *.
  rewrite !fmt_02d_digits, str_of_int_digits by lia.
  replace ((10 * digit_val d1 + digit_val d2) / 10) with (digit_val d1)
    by (Z.div_mod_to_equations; lia).
  replace ((10 * digit_val d1 + digit_val d2) mod 10) with (digit_val d2)
    by (Z.div_mod_to_equations; lia).
  replace ((10 * digit_val m1 + digit_val m2) / 10) with (digit_val m1)
    by (Z.div_mod_to_equations; lia).
  replace ((10 * digit_val m1 + digit_val m2) mod 10) with (digit_val m2)
    by (Z.div_mod_to_equations; lia).
  set (y := 1000 * digit_val y1 + 100 * digit_val y2 + 10 * digit_val y3 + digit_val y4).
  replace (y / 1000) with (digit_val y1) by (subst y; Z.div_mod_to_equations; lia).
  replace (y / 100 mod 10) with (digit_val y2) by (subst y; Z.div_mod_to_equations; lia).
  replace (y / 10 mod 10) with (digit_val y3) by (subst y; Z.div_mod_to_equations; lia).
  replace (y mod 10) with (digit_val y4) by (subst y; Z.div_mod_to_equations; lia).
  rewrite !digit_char_val by assumption. reflexivity.
Qed.

(** For a text DD.MM.YYYY, [strptime] returns the date of its numbers
    when they make one, and raises otherwise. *)
Lemma strptime_strict d1 d2 m1 m2 y1 y2 y3 y4 :
  is_DD_MM_YYYY [d1; d2; DOT; m1; m2; DOT; y1; y2; y3; y4] = true ->
  forall date,
    datetime.strptime_dmY [d1; d2; DOT; m1; m2; DOT; y1; y2; y3; y4] = Return date
    <-> valid_ymd (number4 y1 y2 y3 y4) (number2 m1 m2) (number2 d1 d2) = true
        /\ date = datetime.mkdate (number4 y1 y2 y3 y4) (number2 m1 m2) (number2 d1 d2).
Proof.
  intros S date.
  destruct (is_DD_MM_YYYY_digits _ _ _ _ _ _ _ _ _ _ S)
    as (D1 & D2 & _ & M1 & M2 & _ & Y1 & Y2 & Y3 & Y4).
  rewrite strptime_accepts. split.
  - intros (ds & ms & ys & y & m & d & E & Hd & Hm & Hy & Iy & Im & Id & V & ->).
    destruct (strict_split _ _ _ _ _ _ _ _ _ _ _ D2 M2 E Hd Hm) as (-> & -> & ->).
    rewrite int_of_str_2 in Im, Id by assumption.
    rewrite int_of_str_4 in Iy by assumption.
    inversion Iy. inversion Im. inversion Id. subst. auto.
  - intros [V ->].
    pose proof V as V'. apply valid_ymd_iff in V'. destruct V' as (_ & Hm & Hd).
    assert (datetime._days_in_month (number4 y1 y2 y3 y4) (number2 m1 m2) <= 31).
    { unfold datetime._days_in_month.
      destruct ((number2 m1 m2 =? 2) && datetime._is_leap (number4 y1 y2 y3 y4)); [lia|].
      generalize dependent (number2 m1 m2). intros m _ Hm _.
      assert (H : m = 1 \/ m = 2 \/ m = 3 \/ m = 4 \/ m = 5 \/ m = 6 \/ m = 7
                  \/ m = 8 \/ m = 9 \/ m = 10 \/ m = 11 \/ m = 12) by lia.
      repeat (destruct H as [H | H]); subst m; vm_compute; discriminate. }
    exists [d1; d2], [m1; m2], [y1; y2; y3; y4],
      (number4 y1 y2 y3 y4), (number2 m1 m2), (number2 d1 d2).
    rewrite in_group_d_pair, in_group_m_pair, in_group_Y_four, int_of_str_4,
      !int_of_str_2 by assumption.
    repeat split; try assumption.
    + apply andb_true_iff. rewrite !Z.leb_le. lia.
    + apply andb_true_iff. rewrite !Z.leb_le. lia.
Qed.

(** C4, as stated, fails: "1.2.2024" is not of the form DD.MM.YYYY, and
    [Birthday] accepts it. *)
Lemma Birthday_accepts_short_day_and_month :
  is_DD_MM_YYYY (pystr "1.2.2024") = false
  /\ Birthday.init (pystr "1.2.2024") = Return (Birthday.mk (pystr "1.2.2024"))
  /\ Birthday.init (pystr " 1.2.2024") = Return (Birthday.mk (pystr " 1.2.2024")).
Proof. vm_compute. repeat split. Qed.

(** C4, amended: [Birthday(raw)] raises [ValueError] unless [raw] is a
    day, a dot, a month, a dot and a year as [strptime] reads [%d.%m.%Y]
    (the day 01 to 31, or 1 to 9 alone or after a blank; the month 01 to
    12, or 1 to 9 alone; the year four decimal digits) that make a
    calendar date.  On a text DD.MM.YYYY it succeeds exactly when the
    numbers make a calendar date.  When it succeeds the value stored is
    [raw], and for DD.MM.YYYY with a year from 1000 on, formatting the
    date read gives [raw] back. *)
Theorem Birthday_init_accepts_dates (raw : str) :
  (Birthday.init raw = Return (Birthday.mk raw)
   \/ Birthday.init raw
      = Raise (ValueError (pystr "Invalid date format. Use DD.MM.YYYY.")))
  /\ (Birthday.init raw = Return (Birthday.mk raw) <->
      exists ds ms ys y m d,
        raw = ds ++ DOT :: ms ++ DOT :: ys
        /\ in_group datetime.regex_d ds = true
        /\ in_group datetime.regex_m ms = true
        /\ in_group datetime.regex_Y ys = true
        /\ int_of_str ys = Some y /\ int_of_str ms = Some m
        /\ int_of_str ds = Some d
        /\ valid_ymd y m d = true)
  /\ (forall d1 d2 m1 m2 y1 y2 y3 y4,
         raw = [d1; d2; DOT; m1; m2; DOT; y1; y2; y3; y4] ->
         is_DD_MM_YYYY raw = true ->
         (Birthday.init raw = Return (Birthday.mk raw) <->
          valid_ymd (number4 y1 y2 y3 y4) (number2 m1 m2) (number2 d1 d2) = true)
         /\ (valid_ymd (number4 y1 y2 y3 y4) (number2 m1 m2) (number2 d1 d2) = true ->
             1000 <= number4 y1 y2 y3 y4 ->
             exists date, datetime.strptime_dmY raw = Return date
                          /\ datetime.strftime_dmY date = raw)).
Proof.
  assert (Ok : Birthday.init raw = Return (Birthday.mk raw)
               <-> exists date, datetime.strptime_dmY raw = Return date).
  { destruct (Birthday_init_cases raw) as [[E D] | [E (msg & D)]]; rewrite E.
    - tauto.
    - split; [discriminate|]. intros (date & D'). congruence. }
  split; [|split].
  - destruct (Birthday_init_cases raw) as [[E _] | [E _]]; auto.
  - rewrite Ok. split.
    + intros (date & D). apply strptime_accepts in D.
      destruct D as (ds & ms & ys & y & m & d & H). exists ds, ms, ys, y, m, d. tauto.
    + intros (ds & ms & ys & y & m & d & H).
      exists (datetime.mkdate y m d). apply strptime_accepts.
      exists ds, ms, ys, y, m, d. tauto.
  - intros d1 d2 m1 m2 y1 y2 y3 y4 -> S. split.
    + rewrite Ok. split.
      * intros (date & D). apply (strptime_strict _ _ _ _ _ _ _ _ S) in D. tauto.
      * intros V. eexists. apply (strptime_strict _ _ _ _ _ _ _ _ S). split; [exact V | reflexivity].
    + intros V Y. eexists. split.
      * apply (strptime_strict _ _ _ _ _ _ _ _ S). split; [exact V | reflexivity].
      * destruct (is_DD_MM_YYYY_digits _ _ _ _ _ _ _ _ _ _ S)
          as (D1 & D2 & _ & M1 & M2 & _ & Y1 & Y2 & Y3 & Y4).
        apply strftime_numbers; assumption.
Qed.

Lemma Birthday_init_accepts_dates_witness :
  Birthday.init (pystr "15.06.1990") = Return (Birthday.mk (pystr "15.06.1990"))
  /\ (exists date, datetime.strptime_dmY (pystr "15.06.1990") = Return date
                   /\ datetime.strftime_dmY date = pystr "15.06.1990")
  /\ Birthday.init (pystr "31.02.2024") <> Return (Birthday.mk (pystr "31.02.2024")).
Proof.
  destruct (Birthday_init_accepts_dates (pystr "15.06.1990")) as (_ & _ & H).
  destruct (H 49 53 48 54 49 57 57 48)%N as [H1 H2]; [reflexivity | reflexivity |].
  destruct (Birthday_init_accepts_dates (pystr "31.02.2024")) as (_ & _ & H').
  destruct (H' 51 49 48 50 50 48 50 52)%N as [H3 _]; [reflexivity | reflexivity |].
  split; [|split].
  - apply H1. vm_compute. reflexivity.
  - apply H2; vm_compute; [reflexivity | discriminate].
  - intros E. apply H3 in E. vm_compute in E. discriminate E.
Defined.

(** ** Further properties *)

Lemma delitem_get_None (d : AddressBook.t) key :
  NoDup (AddressBook.keys d) -> AddressBook.get (AddressBook.delitem d key) key = None.
Proof.
  induction d as [|[k w] d IH]; cbn; [reflexivity|].
  intros N. inversion N as [|? ? Nk Nd]; subst.
  destruct (str_eqb k key) eqn:E.
  - apply str_eqb_eq in E. subst k. apply get_None_keys, Nk.
  - cbn. rewrite E. apply IH, Nd.
Qed.

(** X1: [delete] of a name that is not in the directory changes nothing;
    of a name that is, it removes the entry, and [find] no longer finds
    the name. *)
Theorem delete_absent_is_noop (book : AddressBook.t) (name : str) :
  (AddressBook.find book name = None -> AddressBook.delete book name = book)
  /\ (NoDup (AddressBook.keys book) ->
      AddressBook.find (AddressBook.delete book name) name = None).
Proof.
  unfold AddressBook.delete, AddressBook.contains, AddressBook.find. split.
  - intros H. rewrite H. reflexivity.
  - intros N. destruct (AddressBook.get book name) eqn:G; cbn [truthy].
    + apply delitem_get_None, N.
    + exact G.
Qed.

Lemma delete_absent_is_noop_witness :
  AddressBook.delete june_book (pystr "Dan") = june_book
  /\ AddressBook.find (AddressBook.delete june_book (pystr "Bob")) (pystr "Bob") = None.
Proof.
  destruct (delete_absent_is_noop june_book (pystr "Dan")) as [H _].
  destruct (delete_absent_is_noop june_book (pystr "Bob")) as [_ H'].
  split.
  - apply H. vm_compute. reflexivity.
  - apply H'. vm_compute. repeat constructor; cbn; intuition discriminate.
Defined.

(** A run on sample data: with today 10.06.2024, a birthday 12.06.1990
    is reported for 12.06.2024; a birthday 08.06.1990 has passed, its next
    occurrence is 08.06.2025, 363 days ahead, and it is not in the report
    for 7 days. *)
Theorem window_scenarios :
  AddressBook.get_upcoming_birthdays (AddressBook.add_record [] bob) 7
    (datetime.mkdate 2024 6 10)
  = Return [AddressBook.mk_entry (pystr "Bob") (pystr "12.06.2024")]
  /\ AddressBook.birthday_this_year (datetime.mkdate 2024 6 10)
       (Birthday.mk (pystr "08.06.1990")) = Return (datetime.mkdate 2025 6 8)
  /\ datetime.sub_days (datetime.mkdate 2025 6 8) (datetime.mkdate 2024 6 10) = 363
  /\ AddressBook.get_upcoming_birthdays (AddressBook.add_record [] passed) 7
       (datetime.mkdate 2024 6 10) = Return [].
Proof. vm_compute. repeat split. Qed.

(** X2: the next occurrence of a birthday is never before today and at
    most 365 days ahead, so the lower bound of the window test always
    holds. *)
Theorem days_until_birthday_range (today : datetime.date) (b : Birthday.t)
        (d : datetime.date) :
  valid_date today = true ->
  AddressBook.birthday_this_year today b = Return d ->
  0 <= datetime.sub_days d today <= 365.
Proof.
  intros V D.
  destruct (birthday_this_year_Return today b d D)
    as (Vd & bd & S & Em & Ed & [[Ey L] | [Ey L]]).
  - assert (O : ~ datetime.toordinal d < datetime.toordinal today).
    { intros H. apply (lt_ordinal d today Vd V) in H. congruence. }
    apply valid_ymd_iff in V, Vd.
    destruct V as (_ & Hm & Hd), Vd as (_ & Hm' & Hd').
    pose proof (day_of_year_bounds _ _ _ Hm Hd).
    pose proof (day_of_year_bounds _ _ _ Hm' Hd').
    unfold datetime.sub_days, datetime.toordinal, datetime._ymd2ord in *.
    rewrite Ey in *. destruct (datetime._is_leap (datetime.year today));
      cbn [datetime.b2z] in *; lia.
  - assert (Vp : valid_date (datetime.mkdate (datetime.year today)
                               (datetime.month bd) (datetime.day bd)) = true).
    { unfold AddressBook.birthday_this_year, datetime.replace_year in D.
      rewrite S in D. cbn [bind] in D.
      destruct (new_outcome (datetime.year today) (datetime.month bd) (datetime.day bd))
        as [[E Vn] | (msg & E & _)]; rewrite E in D; [exact Vn | discriminate]. }
    apply (lt_ordinal _ today Vp V) in L.
    apply valid_ymd_iff in V, Vd, Vp.
    cbn [datetime.year datetime.month datetime.day] in Vp.
    destruct V as (_ & Hm & Hd), Vd as (_ & Hm' & Hd'), Vp as (_ & Hm'' & Hd'').
    pose proof (day_of_year_bounds _ _ _ Hm Hd).
    pose proof (day_of_year_bounds _ _ _ Hm' Hd').
    pose proof (day_of_year_bounds _ _ _ Hm'' Hd'').
    unfold datetime.sub_days, datetime.toordinal, datetime._ymd2ord in *.
    cbn [datetime.year datetime.month datetime.day] in *.
    rewrite Ey, Em, Ed in *. rewrite dby_succ.
    unfold datetime._days_before_month in *.
    destruct (datetime._is_leap (datetime.year today)),
      (datetime._is_leap (datetime.year today + 1)),
      (2 <? datetime.month bd);
      cbn [datetime.b2z andb] in *; lia.
Qed.

Lemma days_until_birthday_range_witness :
  0 <= datetime.sub_days (datetime.mkdate 2025 6 8) (datetime.mkdate 2024 6 10) <= 365.
Proof.
  apply (days_until_birthday_range (datetime.mkdate 2024 6 10)
           (Birthday.mk (pystr "08.06.1990"))).
  - vm_compute. reflexivity.
  - vm_compute. reflexivity.
Defined.

(** X3: when a phone has the value [old] and [new] is a valid number,
    [edit_phone] succeeds; the first phone with the value [old] is gone
    and a phone with the value [new] is the last of the sequence. *)
Theorem edit_phone_moves_to_end (self : Record_.t) (old new : str) l1 p l2 :
  Record_.phones self = l1 ++ p :: l2 ->
  Phone.value p = old ->
  (forall q, In q l1 -> Phone.value q <> old) ->
  isdigit new = true -> len new = 10 ->
  Record_.edit_phone old new self
  = (Return tt,
     Record_.mk (Record_.name self)
       (l1 ++ l2 ++ [Phone.mk (Record_.fresh_oid self) new])
       (Record_.birthday self)).
Proof.
  intros Hs Hp Hl1 Dn Ln. unfold Record_.edit_phone. cbv zeta.
  rewrite (find_phone_first self old l1 p l2 Hs Hp Hl1). cbn [truthy].
  unfold Record_.seq, Record_.add_phone, Phone.init. rewrite Dn, Ln.
  cbn [andb Z.eqb Pos.eqb].
  rewrite (remove_phone_present _ old l1 p (l2 ++ [Phone.mk (Record_.fresh_oid self) new]));
    [reflexivity | | exact Hp | exact Hl1].
  cbn [Record_.phones]. rewrite Hs, <- app_assoc. reflexivity.
Qed.

Lemma edit_phone_moves_to_end_witness :
  Record_.edit_phone (pystr "0501234567") (pystr "0930000000") two_same
  = (Return tt,
     Record_.mk (Name.mk (pystr "Ann"))
       [Phone.mk 2 (pystr "0671112233"); Phone.mk 3 (pystr "0501234567");
        Phone.mk 4 (pystr "0930000000")] None).
Proof.
  apply (edit_phone_moves_to_end two_same (pystr "0501234567") (pystr "0930000000")
           [] (Phone.mk 1 (pystr "0501234567"))
           [Phone.mk 2 (pystr "0671112233"); Phone.mk 3 (pystr "0501234567")]).
  - reflexivity.
  - reflexivity.
  - intros q [].
  - vm_compute. reflexivity.
  - reflexivity.
Defined.

(** X4: [add_phone] with a valid number appends a new phone and keeps
    every phone the record had, one with the same value included. *)
Theorem add_phone_appends (self : Record_.t) (number : str) :
  isdigit number = true -> len number = 10 ->
  Record_.add_phone number self
  = (Return tt,
     Record_.mk (Record_.name self)
       (Record_.phones self ++ [Phone.mk (Record_.fresh_oid self) number])
       (Record_.birthday self))
  /\ forall q, In q (Record_.phones self) ->
               (Phone.oid q < Record_.fresh_oid self)%nat.
Proof.
  intros D L. split.
  - unfold Record_.add_phone, Phone.init. rewrite D, L. reflexivity.
  - unfold Record_.fresh_oid.
    induction (Record_.phones self) as [|x l IH]; cbn [map fold_right In].
    + intros q [].
    + intros q [<- | Hq]; [lia|]. specialize (IH q Hq). lia.
Qed.

Lemma add_phone_appends_witness :
  Record_.add_phone (pystr "0501234567") two_same
  = (Return tt,
     Record_.mk (Name.mk (pystr "Ann"))
       [Phone.mk 1 (pystr "0501234567"); Phone.mk 2 (pystr "0671112233");
        Phone.mk 3 (pystr "0501234567"); Phone.mk 4 (pystr "0501234567")] None).
Proof.
  apply (add_phone_appends two_same (pystr "0501234567")).
  - vm_compute. reflexivity.
  - reflexivity.
Defined.

(** ** Further properties of the core *)

Lemma setitem_other (d : AddressBook.t) key v key' :
  key' <> key ->
  AddressBook.get (AddressBook.setitem d key v) key' = AddressBook.get d key'.
Proof.
  intros N. induction d as [|[k w] d IH]; cbn.
  - replace (str_eqb key key') with false; [reflexivity|].
    symmetry. apply str_eqb_neq. congruence.
  - destruct (str_eqb k key) eqn:E; cbn.
    + apply str_eqb_eq in E. subst k.
      replace (str_eqb key key') with false; [reflexivity|].
      symmetry. apply str_eqb_neq. congruence.
    + rewrite IH. reflexivity.
Qed.

Lemma delitem_other (d : AddressBook.t) key key' :
  key' <> key ->
  AddressBook.get (AddressBook.delitem d key) key' = AddressBook.get d key'.
Proof.
  intros N. induction d as [|[k w] d IH]; cbn; [reflexivity|].
  destruct (str_eqb k key) eqn:E; cbn.
  - apply str_eqb_eq in E. subst k.
    replace (str_eqb key key') with false; [reflexivity|].
    symmetry. apply str_eqb_neq. congruence.
  - rewrite IH. reflexivity.
Qed.

(** X5: [find] returns the record [add_record] stored under its name,
    and neither [add_record] nor [delete] changes what [find] returns for
    any other name. *)
Theorem find_after_add_record (book : AddressBook.t) (record : Record_.t)
        (name : str) :
  AddressBook.find (AddressBook.add_record book record) (record_name record)
  = Some record
  /\ (name <> record_name record ->
      AddressBook.find (AddressBook.add_record book record) name
      = AddressBook.find book name)
  /\ (forall other, other <> name ->
        AddressBook.find (AddressBook.delete book name) other
        = AddressBook.find book other).
Proof.
  unfold AddressBook.find, AddressBook.add_record, AddressBook.delete, record_name.
  split; [apply get_setitem_same|]. split.
  - intros N. apply setitem_other, N.
  - intros other N. destruct (AddressBook.contains book name); [|reflexivity].
    apply delitem_other, N.
Qed.

Lemma find_after_add_record_witness :
  AddressBook.find (AddressBook.add_record june_book passed) (pystr "Bob")
  = Some bob.
Proof.
  destruct (find_after_add_record june_book passed (pystr "Bob")) as (_ & H & _).
  rewrite H; [reflexivity|]. vm_compute. discriminate.
Defined.

(** *** Valid fields *)

Lemma list_remove_forallb (P : Phone.t -> bool) x l l' :
  list_remove x l = Return l' -> forallb P l = true -> forallb P l' = true.
Proof.
  revert l'. induction l as [|item l IH]; intros l'; cbn; [discriminate|].
  intros R F. apply andb_true_iff in F. destruct F as [Fi Fl].
  destruct (match x with Some p => Phone.is_ item p | None => false end).
  - inversion R. subst. exact Fl.
  - destruct (list_remove x l) as [l''|]; [|discriminate].
    cbn in R. inversion R. subst. cbn. rewrite Fi. exact (IH _ eq_refl Fl).
Qed.

Lemma add_phone_valid (self self' : Record_.t) number o :
  Record_.add_phone number self = (o, self') ->
  valid_record self = true -> valid_record self' = true.
Proof.
  unfold Record_.add_phone, Phone.init.
  destruct (isdigit number && (len number =? 10)) eqn:E;
    intros H V; inversion H; subst; [|exact V].
  unfold valid_record in *. cbn [Record_.phones Record_.birthday].
  apply andb_true_iff in V. destruct V as [Vp Vb].
  rewrite forallb_app, Vp, Vb. cbn [forallb]. unfold valid_phone.
  cbn [Phone.value]. rewrite E. reflexivity.
Qed.

Lemma remove_phone_valid (self self' : Record_.t) number o :
  Record_.remove_phone number self = (o, self') ->
  valid_record self = true -> valid_record self' = true.
Proof.
  unfold Record_.remove_phone. cbv zeta.
  destruct (list_remove _ _) as [l'|] eqn:R; intros H V; inversion H; subst;
    [|exact V].
  unfold valid_record in *. cbn [Record_.phones Record_.birthday].
  apply andb_true_iff in V. destruct V as [Vp Vb].
  rewrite (list_remove_forallb _ _ _ _ R Vp), Vb. reflexivity.
Qed.

Lemma edit_phone_valid (self self' : Record_.t) old new o :
  Record_.edit_phone old new self = (o, self') ->
  valid_record self = true -> valid_record self' = true.
Proof.
  unfold Record_.edit_phone. cbv zeta.
  destruct (truthy _); [|intros H V; inversion H; subst; exact V].
  unfold Record_.seq.
  destruct (Record_.add_phone new self) as [[[]|e] s1] eqn:A; intros H V.
  - apply (remove_phone_valid _ _ _ _ H). exact (add_phone_valid _ _ _ _ A V).
  - inversion H. subst. exact (add_phone_valid _ _ _ _ A V).
Qed.

Lemma add_birthday_valid (self self' : Record_.t) raw o :
  Record_.add_birthday raw self = (o, self') ->
  valid_record self = true -> valid_record self' = true.
Proof.
  unfold Record_.add_birthday.
  destruct (Birthday_init_cases raw) as [[E (d & S)] | [E _]]; rewrite E;
    intros H V; inversion H; subst; [|exact V].
  unfold valid_record in *. cbn [Record_.phones Record_.birthday].
  apply andb_true_iff in V. destruct V as [Vp _]. rewrite Vp.
  unfold valid_birthday. cbn [Birthday.value]. rewrite S. reflexivity.
Qed.

Lemma Forall_values_setitem (P : Record_.t -> Prop) (d : AddressBook.t) key v :
  Forall P (AddressBook.values d) -> P v ->
  Forall P (AddressBook.values (AddressBook.setitem d key v)).
Proof.
  unfold AddressBook.values. intros F Pv. induction d as [|[k w] d IH]; cbn.
  - constructor; [exact Pv | constructor].
  - cbn in F. inversion F as [|? ? Pw Fd]; subst.
    destruct (str_eqb k key); cbn; constructor; auto.
Qed.

Lemma Forall_values_delitem (P : Record_.t -> Prop) (d : AddressBook.t) key :
  Forall P (AddressBook.values d) ->
  Forall P (AddressBook.values (AddressBook.delitem d key)).
Proof.
  unfold AddressBook.values. intros F. induction d as [|[k w] d IH]; cbn;
    [constructor|].
  cbn in F. inversion F as [|? ? Pw Fd]; subst.
  destruct (str_eqb k key); cbn; [exact Fd | constructor; auto].
Qed.

Lemma get_Some_values (d : AddressBook.t) key v :
  AddressBook.get d key = Some v -> In v (AddressBook.values d).
Proof.
  intros G. apply get_Some_In in G. unfold AddressBook.values.
  apply (in_map snd) in G. exact G.
Qed.

Lemma call_method_Forall (P : Record_.t -> Prop) book key attr m :
  (forall self o self', m self = (o, self') -> P self -> P self') ->
  Forall P (AddressBook.values book) ->
  Forall P (AddressBook.values (snd (call_method book key attr m))).
Proof.
  intros Hm F. unfold call_method, AddressBook.find.
  destruct (AddressBook.get book key) as [record|] eqn:G; [|exact F].
  destruct (m record) as [o record'] eqn:M. cbn [snd].
  apply Forall_values_setitem; [exact F|].
  apply (Hm _ _ _ M). rewrite Forall_forall in F.
  exact (F _ (get_Some_values _ _ _ G)).
Qed.

(** X6: the fields of a record stay valid: a new record has none, and
    after any of its four methods, failed or not, every phone stored is
    ten digits and the birthday, if set, is a text the validator accepts;
    so it is for all records of a directory after every call of the
    interface that does not itself bring in an invalid record. *)
Theorem fields_stay_valid :
  (forall name, valid_record (Record_.init name) = true)
  /\ (forall self self' o,
         valid_record self = true ->
         (exists number, Record_.add_phone number self = (o, self'))
         \/ (exists number, Record_.remove_phone number self = (o, self'))
         \/ (exists old new, Record_.edit_phone old new self = (o, self'))
         \/ (exists raw, Record_.add_birthday raw self = (o, self')) ->
         valid_record self' = true)
  /\ (forall op book,
         Forall (fun r => valid_record r = true) (AddressBook.values book) ->
         (forall record, op = addRecord record -> valid_record record = true) ->
         Forall (fun r => valid_record r = true)
                (AddressBook.values (snd (run op book)))).
Proof.
  split; [reflexivity|]. split.
  - intros self self' o V
      [(number & H) | [(number & H) | [(old & new & H) | (raw & H)]]].
    + exact (add_phone_valid _ _ _ _ H V).
    + exact (remove_phone_valid _ _ _ _ H V).
    + exact (edit_phone_valid _ _ _ _ _ H V).
    + exact (add_birthday_valid _ _ _ _ H V).
  - intros op book F A. destruct op; cbn [run snd].
    + apply call_method_Forall; [|exact F]. intros ? ? ?. apply add_phone_valid.
    + apply call_method_Forall; [|exact F]. intros ? ? ?. apply remove_phone_valid.
    + apply call_method_Forall; [|exact F]. intros ? ? ?. apply edit_phone_valid.
    + apply call_method_Forall; [|exact F]. intros ? ? ?. apply add_birthday_valid.
    + apply Forall_values_setitem; [exact F | apply (A record eq_refl)].
    + unfold AddressBook.delete. destruct (AddressBook.contains book name);
        [apply Forall_values_delitem, F | exact F].
    + exact F.
Qed.

Lemma fields_stay_valid_witness :
  valid_record
    (snd (Record_.edit_phone (pystr "0501234567") (pystr "12") two_same)) = true.
Proof.
  destruct fields_stay_valid as (_ & H & _).
  apply (H two_same _ (fst (Record_.edit_phone (pystr "0501234567") (pystr "12") two_same))).
  - vm_compute. reflexivity.
  - right. right. left. exists (pystr "0501234567"), (pystr "12").
    vm_compute. reflexivity.
Defined.

(** *** When the report is defined *)

Lemma valid_ymd_other_year y y' m d :
  valid_ymd y m d = true -> negb ((m =? 2) && (d =? 29)) = true ->
  1 <= y' <= 9999 -> valid_ymd y' m d = true.
Proof.
  intros V N Y. apply valid_ymd_iff in V. apply valid_ymd_iff.
  destruct V as (_ & Hm & Hd). split; [exact Y|]. split; [exact Hm|].
  unfold datetime._days_in_month in *.
  destruct (m =? 2) eqn:M2; [|exact Hd].
  apply Z.eqb_eq in M2. subst m. cbn [andb negb] in N.
  destruct (d =? 29) eqn:D29; [discriminate|]. apply Z.eqb_neq in D29.
  change (2 =? 2) with true in *. cbn [andb] in *.
  change (datetime.index datetime._DAYS_IN_MONTH 2) with 28 in *.
  destruct (datetime._is_leap y), (datetime._is_leap y'); lia.
Qed.

Lemma projectable_no_leap_day today record :
  valid_date today = true -> datetime.year today <= 9998 ->
  no_leap_day record = true -> projectable today record = true.
Proof.
  intros V Y N. unfold no_leap_day, projectable in *.
  destruct (Record_.birthday record) as [b|]; [|reflexivity].
  unfold AddressBook.birthday_this_year.
  destruct (strptime_outcome (Birthday.value b)) as [(bd & S & Vb) | (msg & S)];
    rewrite S in *; [|discriminate].
  cbn [bind]. unfold datetime.replace_year.
  unfold valid_date in V. apply valid_ymd_iff in V. destruct V as (Vy & _).
  assert (Y0 : 1 <= datetime.year today <= 9999) by lia.
  assert (Y1 : 1 <= datetime.year today + 1 <= 9999) by lia.
  rewrite (new_valid _ _ _ (valid_ymd_other_year _ _ _ _ Vb N Y0)).
  cbn [bind]. destruct (datetime.lt _ today); [|reflexivity].
  rewrite (new_valid _ _ _ (valid_ymd_other_year _ _ _ _ Vb N Y1)).
  reflexivity.
Qed.

(** X7: when today is before the year 9999 and no birthday stored is a
    29 February, [get_upcoming_birthdays] returns a list, for any number
    of days: the leap day and the last year of the calendar are the only
    things that make it raise once every birthday went through the
    validator. *)
Theorem report_defined_without_leap_days
        (book : AddressBook.t) (days : Z) (today : datetime.date) :
  valid_date today = true -> datetime.year today <= 9998 ->
  forallb no_leap_day (AddressBook.values book) = true ->
  exists L, AddressBook.get_upcoming_birthdays book days today = Return L.
Proof.
  intros V Y N. unfold AddressBook.get_upcoming_birthdays.
  assert (P : forallb (projectable today) (AddressBook.values book) = true).
  { apply forallb_forall. intros record I.
    apply projectable_no_leap_day; [exact V | exact Y|].
    rewrite forallb_forall in N. exact (N _ I). }
  destruct (report_spec _ days today P []) as (L & R & _).
  exists L. exact R.
Qed.

Lemma report_defined_without_leap_days_witness :
  exists L, AddressBook.get_upcoming_birthdays june_book 7
              (datetime.mkdate 2024 6 10) = Return L.
Proof.
  apply report_defined_without_leap_days; vm_compute; congruence.
Defined.

Lemma forallb_false_In {A} (f : A -> bool) l :
  forallb f l = false -> exists x, In x l /\ f x = false.
Proof.
  induction l as [|a l IH]; cbn; [discriminate|].
  destruct (f a) eqn:E; cbn.
  - intros F. destruct (IH F) as (x & I & Fx). exists x. auto.
  - intros _. exists a. auto.
Qed.

Lemma report_Return_projectable records days today acc L :
  AddressBook.report records days today acc = Return L ->
  forallb (projectable today) records = true.
Proof.
  intros R. destruct (forallb (projectable today) records) eqn:F; [reflexivity|].
  destruct (forallb_false_In _ _ F) as (record & I & P).
  unfold projectable in P.
  destruct (Record_.birthday record) as [b|] eqn:B; [|discriminate].
  destruct (AddressBook.birthday_this_year today b) as [d|e] eqn:T; [discriminate|].
  destruct (report_raises _ days _ _ _ _ I B T acc) as (msg & R').
  congruence.
Qed.

Lemma adjust_for_weekend_on_weekday d c :
  valid_date d = true -> adjust_for_weekend d = Return c ->
  datetime.weekday c <= 4 /\ 0 <= datetime.sub_days c d <= 2.
Proof.
  intros V A. pose proof (weekday_range d) as W.
  destruct (Z_le_gt_dec (datetime.weekday d) 4) as [Le|Gt].
  - rewrite (adjust_for_weekend_weekday d Le) in A. inversion A. subst c.
    unfold datetime.sub_days. lia.
  - assert (K : 1 <= 7 - datetime.weekday d <= 2) by lia.
    destruct (adjust_for_weekend_shift d (7 - datetime.weekday d) V K ltac:(lia))
      as (r & A' & _ & M & S).
    rewrite A' in A. inversion A. subst c. unfold MONDAY in M. lia.
Qed.

(** X8: every entry of the list [get_upcoming_birthdays] returns comes
    from a record of the directory whose birthday falls 0 to [days] days
    after today, and carries a congratulation date that is a working day
    (Monday to Friday), the birthday itself or at most two days after it,
    so at most [days + 2] days after today. *)
Theorem congratulation_on_working_day
        (book : AddressBook.t) (days : Z) (today : datetime.date)
        (L : list AddressBook.entry) :
  AddressBook.get_upcoming_birthdays book days today = Return L ->
  Forall (congratulated book days today) L.
Proof.
  unfold AddressBook.get_upcoming_birthdays. intros R.
  pose proof (report_Return_projectable _ _ _ _ _ R) as P.
  destruct (report_spec _ days today P []) as (L' & R' & F).
  rewrite R in R'. cbn [app] in R'. inversion R'. subst L'. clear R'.
  apply Forall_forall. intros e I.
  destruct (Forall2_In_r _ _ _ _ F I) as (record & Ir & Rep).
  apply filter_In in Ir. destruct Ir as [Ir W].
  destruct Rep as (b & d & c & B & T & A & E).
  unfold congratulated. exists record, b, d, c. subst e. cbn [AddressBook.name AddressBook.congratulation_date].
  unfold in_window in W. rewrite B, T in W.
  apply andb_true_iff in W. destruct W as [W1 W2].
  apply Z.leb_le in W1, W2.
  destruct (birthday_this_year_Return _ _ _ T) as (Vd & _).
  destruct (adjust_for_weekend_on_weekday d c Vd A) as (Wc & S).
  unfold datetime.sub_days in *.
  repeat split; try assumption; try reflexivity; lia.
Qed.

Lemma congratulation_on_working_day_witness :
  Forall (congratulated june_book 7 (datetime.mkdate 2024 6 10))
         [AddressBook.mk_entry (pystr "Bob") (pystr "12.06.2024");
          AddressBook.mk_entry (pystr "Cid") (pystr "17.06.2024")].
Proof.
  apply (congratulation_on_working_day june_book 7 (datetime.mkdate 2024 6 10)).
  vm_compute. reflexivity.
Defined.

(** ** The command handlers *)

Lemma on_record_found {D : Type} `{UserDisplay D} book (d : D) key attr m record :
  AddressBook.find book key = Some record ->
  on_record key attr m (book, d)
  = (match fst (m record) with
     | Return _ => Done tt
     | Raise e => Thrown (Core e)
     end,
     (AddressBook.setitem book key (snd (m record)), d)).
Proof.
  intros F. unfold on_record, call_method. cbn [fst snd]. rewrite F.
  destruct (m record) as [[[]|e] record']; reflexivity.
Qed.

Lemma add_phone_outcome (self : Record_.t) (number : str) :
  Record_.add_phone number self
  = if isdigit number && (len number =? 10)
    then (Return tt,
          Record_.mk (Record_.name self)
            (Record_.phones self ++ [Phone.mk (Record_.fresh_oid self) number])
            (Record_.birthday self))
    else (Raise (ValueError (pystr "Phone must be 10 digits.")), self).
Proof.
  unfold Record_.add_phone, Phone.init.
  destruct (isdigit number && (len number =? 10)); reflexivity.
Qed.

Lemma setitem_setitem (d : AddressBook.t) key v v' :
  AddressBook.setitem (AddressBook.setitem d key v) key v'
  = AddressBook.setitem d key v'.
Proof.
  induction d as [|[k w] d IH]; cbn.
  - rewrite str_eqb_refl. reflexivity.
  - destruct (str_eqb k key) eqn:E; cbn; rewrite E; [reflexivity|].
    rewrite IH. reflexivity.
Qed.

(** What [add_contact] does, case by case. *)
Lemma add_contact_spec {D : Type} `{UserDisplay D} name phone rest book (d : D) :
  add_contact (name :: phone :: rest) (book, d)
  = let record :=
        match AddressBook.find book name with
        | Some record => record
        | None => Record_.init name
        end in
    let message :=
        match AddressBook.find book name with
        | Some _ => pystr "Contact updated."
        | None => pystr "Contact added."
        end in
    if nonempty phone then
      if isdigit phone && (len phone =? 10) then
        (Done None,
         (AddressBook.setitem book name (snd (Record_.add_phone phone record)),
          show_message message d))
      else
        (Done (Some VALUE_ERROR_TEXT), (AddressBook.setitem book name record, d))
    else
      (Done None, (AddressBook.setitem book name record, show_message message d)).
Proof.
  unfold add_contact, input_error, and_then, book_find, book_add_record, ret,
    display. cbn [fst snd].
  destruct (AddressBook.find book name) as [record|] eqn:F; cbv zeta.
  - rewrite (setitem_get_same _ _ _ F).
    destruct (nonempty phone); [|reflexivity].
    rewrite (on_record_found _ _ _ _ _ _ F), add_phone_outcome.
    destruct (isdigit phone && (len phone =? 10)); cbn [fst snd];
      [reflexivity|].
    rewrite (setitem_get_same _ _ _ F). reflexivity.
  - unfold AddressBook.add_record. cbn [Record_.init Record_.name Name.value].
    destruct (nonempty phone); [|reflexivity].
    rewrite (on_record_found _ _ _ _ _ (Record_.init name)
               (get_setitem_same _ _ _)), add_phone_outcome.
    rewrite setitem_setitem.
    destruct (isdigit phone && (len phone =? 10)); cbn [fst snd]; reflexivity.
Qed.

Lemma add_contact_short {D : Type} `{UserDisplay D} args (st : AddressBook.t * D) :
  (List.length args < 2)%nat ->
  add_contact args st = (Done (Some VALUE_ERROR_TEXT), st).
Proof.
  intros L. destruct args as [|a [|b args]]; cbn in L; try lia; reflexivity.
Qed.

(** What [change_contact] does, case by case. *)
Lemma change_contact_spec {D : Type} `{UserDisplay D}
      name old_phone new_phone book (d : D) :
  change_contact [name; old_phone; new_phone] (book, d)
  = match AddressBook.find book name with
    | Some record =>
        match Record_.edit_phone old_phone new_phone record with
        | (Return _, record') =>
            (Done None,
             (AddressBook.setitem book name record',
              show_message (pystr "Contact changed.") d))
        | (Raise (ValueError _), _) => (Done (Some VALUE_ERROR_TEXT), (book, d))
        | (Raise e, _) => (Thrown (Core e), (book, d))
        end
    | None => (Done None, (book, show_error (pystr "Contact not found.") d))
    end.
Proof.
  unfold change_contact, input_error, and_then, book_find, display.
  cbn [fst snd].
  destruct (AddressBook.find book name) as [record|] eqn:F; cbn [truthy];
    [|reflexivity].
  rewrite (on_record_found _ _ _ _ _ _ F).
  destruct (Record_.edit_phone old_phone new_phone record) as [[[]|e] record'] eqn:E;
    cbn [fst snd]; [reflexivity|].
  rewrite (edit_phone_Raise _ _ _ _ _ E), (setitem_get_same _ _ _ F).
  destruct e; reflexivity.
Qed.

Lemma change_contact_wrong_count {D : Type} `{UserDisplay D} args
      (st : AddressBook.t * D) :
  List.length args <> 3%nat ->
  change_contact args st = (Done (Some VALUE_ERROR_TEXT), st).
Proof.
  intros L. destruct args as [|a [|b [|c [|e args]]]]; cbn in L; try lia;
    unfold change_contact, input_error, throw, unpack_error_exactly;
    match goal with |- context [len ?l <? 3] => destruct (len l <? 3) end;
    reflexivity.
Qed.

Lemma edit_phone_only_ValueError self old new e self' :
  Record_.edit_phone old new self = (Raise e, self') -> exists msg, e = ValueError msg.
Proof.
  unfold Record_.edit_phone. cbv zeta.
  destruct (truthy _); [|intros E; inversion E; eauto].
  unfold Record_.seq. rewrite add_phone_outcome.
  destruct (isdigit new && (len new =? 10)); [|intros E; inversion E; eauto].
  unfold Record_.remove_phone. cbv zeta.
  match goal with |- context [list_remove ?x ?l] =>
    generalize x; generalize l end.
  intros l x.
  assert (R : forall e', list_remove x l = Raise e' ->
                         exists msg, e' = ValueError msg).
  { clear. induction l as [|item l IH]; cbn; intros e' R.
    - inversion R. eauto.
    - destruct (match x with Some p => Phone.is_ item p | None => false end);
        [discriminate|].
      destruct (list_remove x l) as [l''|e''] eqn:R'; [discriminate|].
      cbn in R. inversion R. subst. exact (IH _ eq_refl). }
  destruct (list_remove x l) as [l'|e'] eqn:R'; intros E; inversion E; subst.
  exact (R _ eq_refl).
Qed.

(** What [add_birthday] does, case by case. *)
Lemma add_birthday_spec {D : Type} `{UserDisplay D} name raw rest book (d : D) :
  add_birthday (name :: raw :: rest) (book, d)
  = match AddressBook.find book name with
    | Some record =>
        match datetime.strptime_dmY raw with
        | Return _ =>
            (Done None,
             (AddressBook.setitem book name
                (Record_.mk (Record_.name record) (Record_.phones record)
                            (Some (Birthday.mk raw))),
              show_message (pystr "Birthday added.") d))
        | Raise _ => (Done (Some VALUE_ERROR_TEXT), (book, d))
        end
    | None => (Done None, (book, show_error (pystr "Contact not found.") d))
    end.
Proof.
  unfold add_birthday, input_error, and_then, book_find, display.
  cbn [fst snd].
  destruct (AddressBook.find book name) as [record|] eqn:F; cbn [truthy];
    [|reflexivity].
  rewrite (on_record_found _ _ _ _ _ _ F). unfold Record_.add_birthday.
  destruct (Birthday_init_cases raw) as [[E (date & S)] | [E (msg & S)]];
    rewrite E, S; cbn [fst snd]; [reflexivity|].
  rewrite (setitem_get_same _ _ _ F). reflexivity.
Qed.

Lemma add_birthday_short {D : Type} `{UserDisplay D} args (st : AddressBook.t * D) :
  (List.length args < 2)%nat ->
  add_birthday args st = (Done (Some VALUE_ERROR_TEXT), st).
Proof.
  intros L. destruct args as [|a [|b args]]; cbn in L; try lia; reflexivity.
Qed.

Lemma report_only_ValueError records days today acc e :
  AddressBook.report records days today acc = Raise e ->
  exists msg, e = ValueError msg.
Proof.
  revert acc. induction records as [|record records IH]; intros acc;
    [discriminate|].
  rewrite report_step.
  destruct (Record_.birthday record) as [b|]; [|apply IH].
  destruct (AddressBook.birthday_this_year today b) as [d|e'] eqn:T.
  - destruct (in_window days today record); [|apply IH].
    destruct (birthday_this_year_Return _ _ _ T) as (Vd & _).
    destruct (adjust_for_weekend_total d Vd) as (c & A & _). rewrite A. apply IH.
  - intros E. inversion E. subst. exact (birthday_this_year_Raise _ _ _ T).
Qed.

Lemma show_phone_num_spec {D : Type} `{UserDisplay D} name rest book (d : D) :
  show_phone_num (name :: rest) (book, d)
  = (Done None,
     (book,
      match AddressBook.find book name with
      | Some record =>
          show_message (str_join (pystr ", ")
                          (map Phone.value (Record_.phones record))) d
      | None => show_error (pystr "Contact not found.") d
      end)).
Proof.
  unfold show_phone_num, input_error, and_then, book_find, display.
  cbn [fst snd]. destruct (AddressBook.find book name); reflexivity.
Qed.

Lemma show_birthday_spec {D : Type} `{UserDisplay D} name rest book (d : D) :
  show_birthday (name :: rest) (book, d)
  = (Done None,
     (book,
      match AddressBook.find book name with
      | Some (Record_.mk _ _ (Some birthday)) =>
          show_message (Birthday.value birthday) d
      | _ => show_error (pystr "No birthday found for this contact.") d
      end)).
Proof.
  unfold show_birthday, input_error, and_then, book_find, display.
  cbn [fst snd].
  destruct (AddressBook.find book name) as [[n p [b|]]|]; reflexivity.
Qed.

Lemma birthdays_spec {D : Type} `{UserDisplay D} today book (d : D) :
  birthdays today (book, d)
  = match AddressBook.get_upcoming_birthdays book 7 today with
    | Return [] =>
        (Done None,
         (book, show_message (pystr "No birthdays in the next 7 days.") d))
    | Return upcoming_birthdays =>
        (Done None,
         (book,
          show_message
            (str_join NEWLINE
               (map (fun b => AddressBook.name b ++ pystr ": "
                              ++ AddressBook.congratulation_date b)
                    upcoming_birthdays)) d))
    | Raise _ => (Done (Some VALUE_ERROR_TEXT), (book, d))
    end.
Proof.
  unfold birthdays, input_error, display. cbn [fst snd].
  destruct (AddressBook.get_upcoming_birthdays book 7 today) as [[|e L]|e] eqn:R;
    try reflexivity.
  destruct (report_only_ValueError _ _ _ _ _ R) as (msg & ->). reflexivity.
Qed.

Lemma handle_outcome {D : Type} `{UserDisplay D}
        (h : handler) (args : list str) (st : AddressBook.t * D) :
  exists v st',
    handle h args st = (Done v, st')
    /\ v <> Some KEY_ERROR_TEXT
    /\ (v = None
        \/ (v = Some VALUE_ERROR_TEXT /\ snd st' = snd st
            /\ (h <> AddContact -> st' = st))
        \/ (v = Some INDEX_ERROR_TEXT /\ st' = st /\ args = []
            /\ (h = ShowPhoneNum \/ h = ShowBirthday))).
Proof.
  assert (K1 : @None str <> Some KEY_ERROR_TEXT) by discriminate.
  assert (K2 : Some VALUE_ERROR_TEXT <> Some KEY_ERROR_TEXT)
    by (vm_compute; discriminate).
  assert (K3 : Some INDEX_ERROR_TEXT <> Some KEY_ERROR_TEXT)
    by (vm_compute; discriminate).
  destruct st as [book d]. destruct h; cbn [handle].
  - destruct args as [|name [|phone rest]];
      [rewrite add_contact_short by (cbn; lia); do 2 eexists;
       split; [reflexivity|]; split; [exact K2|]; right; left; auto .. |].
    rewrite add_contact_spec. cbv zeta.
    destruct (nonempty phone);
      [destruct (isdigit phone && (len phone =? 10))|];
      do 2 eexists; (split; [reflexivity|]); auto.
    split; [exact K2|]. right. left. repeat split. intros N. congruence.
  - destruct (Nat.eq_dec (List.length args) 3) as [E|N].
    + destruct args as [|name [|old [|new [|x args]]]]; try discriminate E.
      rewrite change_contact_spec.
      destruct (AddressBook.find book name) as [record|];
        [|do 2 eexists; (split; [reflexivity|]); auto].
      destruct (Record_.edit_phone old new record) as [[[]|e] record'] eqn:Ed;
        [do 2 eexists; (split; [reflexivity|]); auto|].
      destruct (edit_phone_only_ValueError _ _ _ _ _ Ed) as (msg & ->).
      do 2 eexists. split; [reflexivity|]. split; [exact K2|]. right. left. auto.
    + rewrite change_contact_wrong_count by exact N.
      do 2 eexists. split; [reflexivity|]. split; [exact K2|]. right. left. auto.
  - destruct args as [|name rest].
    + do 2 eexists. split; [reflexivity|]. split; [exact K3|]. right. right. auto.
    + rewrite show_phone_num_spec. do 2 eexists. split; [reflexivity|]. auto.
  - destruct args as [|name [|raw rest]];
      [rewrite add_birthday_short by (cbn; lia); do 2 eexists;
       split; [reflexivity|]; split; [exact K2|]; right; left; auto .. |].
    rewrite add_birthday_spec.
    destruct (AddressBook.find book name) as [record|];
      [destruct (datetime.strptime_dmY raw)|];
      do 2 eexists; (split; [reflexivity|]); auto.
    split; [exact K2|]. right. left. auto.
  - destruct args as [|name rest].
    + do 2 eexists. split; [reflexivity|]. split; [exact K3|]. right. right. auto.
    + rewrite show_birthday_spec. do 2 eexists. split; [reflexivity|]. auto.
  - rewrite birthdays_spec.
    destruct (AddressBook.get_upcoming_birthdays book 7 today) as [[|e L]|e];
      do 2 eexists; (split; [reflexivity|]); auto.
    split; [exact K2|]. right. left. auto.
Qed.

(** X9: no exception leaves a decorated handler, whatever its arguments
    and the directory.  A handler returns [None], or the text for
    [ValueError] with nothing shown on the display, or, for [phone] and
    [show-birthday] without an argument, the text for [IndexError] with
    nothing changed; the text for [KeyError] is never returned.  When a
    handler other than [add_contact] returns a text, the directory is as
    it was. *)
Theorem handlers_never_raise {D : Type} `{UserDisplay D}
        (h : handler) (args : list str) (st : AddressBook.t * D) :
  exists v st',
    handle h args st = (Done v, st')
    /\ v <> Some KEY_ERROR_TEXT
    /\ (v = None
        \/ (v = Some VALUE_ERROR_TEXT /\ snd st' = snd st
            /\ (h <> AddContact -> st' = st))
        \/ (v = Some INDEX_ERROR_TEXT /\ st' = st /\ args = []
            /\ (h = ShowPhoneNum \/ h = ShowBirthday))).
Proof. exact (handle_outcome h args st). Qed.

Lemma setitem_absent (d : AddressBook.t) key v :
  AddressBook.get d key = None -> AddressBook.setitem d key v = d ++ [(key, v)].
Proof.
  induction d as [|[k w] d IH]; cbn; [reflexivity|].
  destruct (str_eqb k key); [discriminate|]. intros G. rewrite (IH G). reflexivity.
Qed.

(** X10: [add] with a name and a number of ten digits returns [None],
    shows "Contact added." for a new name and "Contact updated." for one
    the directory has, and leaves every other name as it was; a [phone]
    for that name then shows the numbers the contact had, in order, with
    the new one last, joined by a comma and a blank. *)
Theorem add_then_phone {D : Type} `{UserDisplay D}
        (name phone : str) (rest rest' : list str) (book : AddressBook.t) (d : D) :
  isdigit phone = true -> len phone = 10 ->
  let numbers :=
      match AddressBook.find book name with
      | Some record => map Phone.value (Record_.phones record)
      | None => []
      end in
  let message :=
      match AddressBook.find book name with
      | Some _ => pystr "Contact updated."
      | None => pystr "Contact added."
      end in
  exists book',
    add_contact (name :: phone :: rest) (book, d)
    = (Done None, (book', show_message message d))
    /\ (forall other, other <> name ->
          AddressBook.find book' other = AddressBook.find book other)
    /\ forall d', show_phone_num (name :: rest') (book', d')
                  = (Done None,
                     (book',
                      show_message
                        (str_join (pystr ", ") (numbers ++ [phone])) d')).
Proof.
  intros Dg Ln. cbv zeta. rewrite add_contact_spec. cbv zeta.
  assert (N : nonempty phone = true).
  { destruct phone; [discriminate Ln | reflexivity]. }
  rewrite N, Dg, Ln, add_phone_outcome, Dg, Ln.
  cbn [andb Z.eqb Pos.eqb snd].
  eexists. split; [reflexivity|]. split.
  - intros other O. unfold AddressBook.find. apply setitem_other, O.
  - intros d'. rewrite show_phone_num_spec. unfold AddressBook.find.
    rewrite get_setitem_same. cbn [Record_.phones]. rewrite map_app.
    destruct (AddressBook.get book name); reflexivity.
Qed.

Lemma add_then_phone_witness :
  exists book',
    add_contact [pystr "Ann"; pystr "0671112233"] ([(pystr "Ann", ann')], [])
    = (Done None, (book', [pystr "Contact updated." ++ NEWLINE]))
    /\ show_phone_num [pystr "Ann"] (book', [])
       = (Done None, (book', [pystr "0501234567, 0671112233" ++ NEWLINE])).
Proof.
  destruct (add_then_phone (pystr "Ann") (pystr "0671112233") [] []
              [(pystr "Ann", ann')] ([] : stdout)) as (book' & A & _ & P);
    [vm_compute; reflexivity | reflexivity |].
  exists book'. split; [exact A | exact (P [])].
Defined.

(** X11: [add] with a new name and a number that is not ten digits
    returns the text for [ValueError] and shows nothing, yet the directory
    has gained a record of that name with no phone: the record is stored
    before the number is checked. *)
Theorem add_contact_invalid_phone_keeps_record {D : Type} `{UserDisplay D}
        (name phone : str) (rest : list str) (book : AddressBook.t) (d : D) :
  AddressBook.find book name = None ->
  nonempty phone = true ->
  isdigit phone && (len phone =? 10) = false ->
  add_contact (name :: phone :: rest) (book, d)
  = (Done (Some VALUE_ERROR_TEXT), (book ++ [(name, Record_.init name)], d))
  /\ AddressBook.find (book ++ [(name, Record_.init name)]) name
     = Some (Record_.init name).
Proof.
  intros F N V. rewrite add_contact_spec. cbv zeta. rewrite N, V, F.
  rewrite (setitem_absent _ _ _ F). split; [reflexivity|].
  rewrite <- (setitem_absent _ _ (Record_.init name) F).
  apply get_setitem_same.
Qed.

Lemma add_contact_invalid_phone_keeps_record_witness :
  add_contact [pystr "Ann"; pystr "12345"] ([], ([] : stdout))
  = (Done (Some VALUE_ERROR_TEXT), ([(pystr "Ann", Record_.init (pystr "Ann"))], [])).
Proof.
  apply (add_contact_invalid_phone_keeps_record (pystr "Ann") (pystr "12345") []
           [] ([] : stdout)); reflexivity.
Defined.

(** X12: [change] for a name the directory has not shows the error
    "Contact not found." and changes nothing; for a contact on which
    [edit_phone] succeeds it stores the edited record under the name,
    shows "Contact changed." and leaves every other name as it was, and a
    [phone] for the name then shows the numbers of the edited record. *)
Theorem change_then_phone {D : Type} `{UserDisplay D}
        (name old_phone new_phone : str) (book : AddressBook.t) (d : D) :
  (AddressBook.find book name = None ->
   change_contact [name; old_phone; new_phone] (book, d)
   = (Done None, (book, show_error (pystr "Contact not found.") d)))
  /\ (forall record record',
         AddressBook.find book name = Some record ->
         Record_.edit_phone old_phone new_phone record = (Return tt, record') ->
         exists book',
           change_contact [name; old_phone; new_phone] (book, d)
           = (Done None, (book', show_message (pystr "Contact changed.") d))
           /\ AddressBook.find book' name = Some record'
           /\ (forall other, other <> name ->
                 AddressBook.find book' other = AddressBook.find book other)
           /\ forall rest d',
                show_phone_num (name :: rest) (book', d')
                = (Done None,
                   (book',
                    show_message
                      (str_join (pystr ", ")
                         (map Phone.value (Record_.phones record'))) d'))).
Proof.
  split.
  - intros F. rewrite change_contact_spec, F. reflexivity.
  - intros record record' F E. rewrite change_contact_spec, F, E.
    eexists. split; [reflexivity|].
    assert (G : AddressBook.find (AddressBook.setitem book name record') name
                = Some record') by apply get_setitem_same.
    split; [exact G|]. split.
    + intros other O. apply setitem_other, O.
    + intros rest d'. rewrite show_phone_num_spec, G. reflexivity.
Qed.

Lemma change_then_phone_witness :
  exists book',
    change_contact [pystr "Ann"; pystr "0501234567"; pystr "0930000000"]
                   ([(pystr "Ann", two_same)], ([] : stdout))
    = (Done None, (book', [pystr "Contact changed." ++ NEWLINE]))
    /\ show_phone_num [pystr "Ann"] (book', [])
       = (Done None,
          (book', [pystr "0671112233, 0501234567, 0930000000" ++ NEWLINE])).
Proof.
  destruct (change_then_phone (pystr "Ann") (pystr "0501234567")
              (pystr "0930000000") [(pystr "Ann", two_same)] ([] : stdout))
    as (_ & C).
  destruct (C two_same _ eq_refl eq_refl) as (book' & E & _ & _ & P).
  exists book'. split; [exact E | exact (P [] [])].
Defined.

(** X13: [add-birthday] for a contact of the directory, with a text the
    validator accepts, shows "Birthday added.", and [show-birthday] for
    that name then shows the text as it was typed; for a name the
    directory has not, or a contact without a birthday, [show-birthday]
    shows the error "No birthday found for this contact.". *)
Theorem add_then_show_birthday {D : Type} `{UserDisplay D}
        (name raw : str) (rest : list str) (book : AddressBook.t) (d : D) :
  (forall record date,
      AddressBook.find book name = Some record ->
      datetime.strptime_dmY raw = Return date ->
      exists book',
        add_birthday (name :: raw :: rest) (book, d)
        = (Done None, (book', show_message (pystr "Birthday added.") d))
        /\ (forall other, other <> name ->
              AddressBook.find book' other = AddressBook.find book other)
        /\ forall rest' d',
             show_birthday (name :: rest') (book', d')
             = (Done None, (book', show_message raw d')))
  /\ ((AddressBook.find book name = None
       \/ exists record, AddressBook.find book name = Some record
                         /\ Record_.birthday record = None) ->
      show_birthday (name :: rest) (book, d)
      = (Done None,
         (book, show_error (pystr "No birthday found for this contact.") d))).
Proof.
  split.
  - intros record date F S. rewrite add_birthday_spec, F, S.
    eexists. split; [reflexivity|]. split.
    + intros other O. apply setitem_other, O.
    + intros rest' d'. rewrite show_birthday_spec. unfold AddressBook.find.
      rewrite get_setitem_same. reflexivity.
  - intros [F | (record & F & B)]; rewrite show_birthday_spec, F;
      [reflexivity|].
    destruct record as [n p b]. cbn in B. subst b. reflexivity.
Qed.

Lemma add_then_show_birthday_witness :
  exists book',
    add_birthday [pystr "Ann"; pystr "1.2.2024"] ([(pystr "Ann", ann)], ([] : stdout))
    = (Done None, (book', [pystr "Birthday added." ++ NEWLINE]))
    /\ show_birthday [pystr "Ann"] (book', [])
       = (Done None, (book', [pystr "1.2.2024" ++ NEWLINE])).
Proof.
  destruct (add_then_show_birthday (pystr "Ann") (pystr "1.2.2024") []
              [(pystr "Ann", ann)] ([] : stdout)) as (A & _).
  destruct (A ann (datetime.mkdate 2024 2 1) eq_refl ltac:(vm_compute; reflexivity))
    as (book' & E & _ & P).
  exists book'. split; [exact E | exact (P [] [])].
Defined.

(** X14: one contact born on 29 February is enough to silence
    [birthdays] for the whole directory: when this year is no leap year,
    or its 29 February is past, the handler shows nothing, whoever else
    has a birthday in the week, and returns the text for [ValueError]. *)
Theorem leap_day_silences_birthdays {D : Type} `{UserDisplay D}
        (today : datetime.date) (book : AddressBook.t) (d : D)
        (record : Record_.t) (b : Birthday.t) (y : Z) :
  valid_date today = true ->
  In record (AddressBook.values book) ->
  Record_.birthday record = Some b ->
  datetime.strptime_dmY (Birthday.value b) = Return (datetime.mkdate y 2 29) ->
  datetime._is_leap (datetime.year today) = false
  \/ datetime.lt (datetime.mkdate (datetime.year today) 2 29) today = true ->
  birthdays today (book, d) = (Done (Some VALUE_ERROR_TEXT), (book, d)).
Proof.
  intros V I B S L. rewrite birthdays_spec.
  destruct (leap_day_projection_raises today b y V S L) as (msg & T).
  destruct (report_raises _ 7 _ _ _ _ I B T []) as (msg' & R).
  unfold AddressBook.get_upcoming_birthdays. rewrite R. reflexivity.
Qed.

Lemma leap_day_silences_birthdays_witness :
  birthdays (datetime.mkdate 2025 6 10) (leap_book, ([] : stdout))
  = (Done (Some VALUE_ERROR_TEXT), (leap_book, [])).
Proof.
  apply (leap_day_silences_birthdays (datetime.mkdate 2025 6 10) leap_book []
           leap_ann (Birthday.mk (pystr "29.02.2020")) 2020).
  - reflexivity.
  - left. reflexivity.
  - reflexivity.
  - vm_compute. reflexivity.
  - left. reflexivity.
Defined.

Lemma well_formed_setitem book key record :
  well_formed book -> record_name record = key ->
  well_formed (AddressBook.setitem book key record).
Proof.
  intros [N F] E. split; [apply NoDup_keys_setitem, N|].
  apply Forall_setitem; [exact F | exact E].
Qed.

Lemma well_formed_find book key record :
  well_formed book -> AddressBook.find book key = Some record ->
  record_name record = key.
Proof.
  intros [_ F] G. apply get_Some_In in G. rewrite Forall_forall in F.
  exact (F _ G).
Qed.

Lemma Forall_values_find (P : Record_.t -> Prop) book key record :
  Forall P (AddressBook.values book) -> AddressBook.find book key = Some record ->
  P record.
Proof.
  intros F G. rewrite Forall_forall in F. exact (F _ (get_Some_values _ _ _ G)).
Qed.

Lemma Forall_forallb {A : Type} (f : A -> bool) (l : list A) :
  forallb f l = true -> Forall (fun x => f x = true) l.
Proof. intros F. apply Forall_forall. apply forallb_forall, F. Qed.

(** X15: the handlers keep the directory in order: after any handler,
    with any arguments, the directory still has one entry per name and
    every record under its own name, every phone stored is ten digits and
    every birthday stored is a text the validator accepts. *)
Theorem handlers_keep_directory {D : Type} `{UserDisplay D}
        (h : handler) (args : list str) (st : AddressBook.t * D) :
  well_formed (fst st) ->
  Forall (fun r => valid_record r = true) (AddressBook.values (fst st)) ->
  well_formed (fst (snd (handle h args st)))
  /\ Forall (fun r => valid_record r = true)
            (AddressBook.values (fst (snd (handle h args st)))).
Proof.
  destruct st as [book d]. cbn [fst]. intros W V.
  destruct h; cbn [handle].
  - destruct args as [|name [|phone rest]];
      [rewrite add_contact_short by (cbn; lia); cbn [fst snd]; auto .. |].
    rewrite add_contact_spec. cbv zeta.
    assert (Wr : record_name match AddressBook.find book name with
                             | Some record => record
                             | None => Record_.init name
                             end = name).
    { destruct (AddressBook.find book name) eqn:F;
        [exact (well_formed_find _ _ _ W F) | reflexivity]. }
    assert (Vr : valid_record match AddressBook.find book name with
                              | Some record => record
                              | None => Record_.init name
                              end = true).
    { destruct (AddressBook.find book name) eqn:F;
        [exact (Forall_values_find _ _ _ _ V F) | reflexivity]. }
    set (record := match AddressBook.find book name with
                   | Some record => record
                   | None => Record_.init name
                   end) in *.
    destruct (nonempty phone);
      [destruct (isdigit phone && (len phone =? 10))|]; cbn [fst snd];
      (split; [apply well_formed_setitem; [exact W|]
              | apply Forall_values_setitem; [exact V|]]);
      try assumption.
    + destruct (Record_.add_phone phone record) as [o record'] eqn:A.
      cbn [snd]. unfold record_name in *. rewrite <- Wr. f_equal.
      apply (method_keeps_name record record' o). left. eauto.
    + destruct (Record_.add_phone phone record) as [o record'] eqn:A.
      exact (add_phone_valid _ _ _ _ A Vr).
  - destruct (Nat.eq_dec (List.length args) 3) as [E|N];
      [|rewrite change_contact_wrong_count by exact N; cbn [fst snd]; auto].
    destruct args as [|name [|old [|new [|x args]]]]; try discriminate E.
    rewrite change_contact_spec.
    destruct (AddressBook.find book name) as [record|] eqn:F;
      [|cbn [fst snd]; auto].
    destruct (Record_.edit_phone old new record) as [[[]|e] record'] eqn:Ed;
      [|destruct e; cbn [fst snd]; auto].
    cbn [fst snd]. split.
    + apply well_formed_setitem; [exact W|].
      unfold record_name. rewrite <- (well_formed_find _ _ _ W F).
      unfold record_name. f_equal.
      apply (method_keeps_name record record' (Return tt)). right. right. left.
      eauto.
    + apply Forall_values_setitem; [exact V|].
      exact (edit_phone_valid _ _ _ _ _ Ed (Forall_values_find _ _ _ _ V F)).
  - destruct args as [|name rest]; [cbn [fst snd]; auto|].
    rewrite show_phone_num_spec. cbn [fst snd]. auto.
  - destruct args as [|name [|raw rest]];
      [rewrite add_birthday_short by (cbn; lia); cbn [fst snd]; auto .. |].
    rewrite add_birthday_spec.
    destruct (AddressBook.find book name) as [record|] eqn:F;
      [|cbn [fst snd]; auto].
    destruct (datetime.strptime_dmY raw) as [date|e] eqn:S;
      [|cbn [fst snd]; auto].
    cbn [fst snd]. split.
    + apply well_formed_setitem; [exact W|].
      exact (well_formed_find _ _ _ W F).
    + apply Forall_values_setitem; [exact V|].
      pose proof (Forall_values_find _ _ _ _ V F) as Vr.
      unfold valid_record in *. cbn [Record_.phones Record_.birthday].
      apply andb_true_iff in Vr. destruct Vr as [Vp _]. rewrite Vp.
      unfold valid_birthday. cbn [Birthday.value]. rewrite S. reflexivity.
  - destruct args as [|name rest]; [cbn [fst snd]; auto|].
    rewrite show_birthday_spec. cbn [fst snd]. auto.
  - rewrite birthdays_spec.
    destruct (AddressBook.get_upcoming_birthdays book 7 today) as [[|e L]|e];
      cbn [fst snd]; auto.
Qed.

Lemma handlers_keep_directory_witness :
  well_formed
    (fst (snd (handle AddContact [pystr "Dan"; pystr "0501234567"]
                      (june_book, ([] : stdout)))))
  /\ Forall (fun r => valid_record r = true)
       (AddressBook.values
          (fst (snd (handle AddContact [pystr "Dan"; pystr "0501234567"]
                            (june_book, ([] : stdout)))))).
Proof.
  apply (handlers_keep_directory AddContact [pystr "Dan"; pystr "0501234567"]
           (june_book, ([] : stdout))).
  - split.
    + vm_compute. repeat constructor; cbn; intuition discriminate.
    + repeat constructor.
  - apply Forall_forallb. vm_compute. reflexivity.
Defined.

(** ** Command lines and the main loop *)

Lemma split_from_word (t s word : str) :
  forallb (fun c => negb (isspace_char c)) t = true ->
  split_from (t ++ s) word = split_from s (word ++ t).
Proof.
  revert word. induction t as [|c t IH]; intros word T; cbn [app].
  - rewrite app_nil_r. reflexivity.
  - cbn [forallb] in T. apply andb_true_iff in T. destruct T as [Tc Tt].
    cbn [split_from]. destruct (isspace_char c); [discriminate|].
    rewrite (IH _ Tt), <- app_assoc. reflexivity.
Qed.

Lemma split_from_tokens (s word : str) :
  forallb (fun c => negb (isspace_char c)) word = true ->
  Forall (fun t => is_token t = true) (split_from s word).
Proof.
  revert word. induction s as [|c s IH]; intros word W; cbn [split_from].
  - destruct word; [constructor|]. constructor; [|constructor].
    unfold is_token. rewrite W. reflexivity.
  - destruct (isspace_char c) eqn:C.
    + destruct word; [apply IH; reflexivity|].
      constructor; [|apply IH; reflexivity].
      unfold is_token. rewrite W. reflexivity.
    + apply IH. rewrite forallb_app, W. cbn [forallb andb]. rewrite C. reflexivity.
Qed.

Lemma split_join (tokens : list str) :
  Forall (fun t => is_token t = true) tokens ->
  str_split (str_join [SPACE] tokens) = tokens.
Proof.
  unfold str_split. induction 1 as [|t tokens T F IH]; [reflexivity|].
  unfold is_token in T. apply andb_true_iff in T. destruct T as [Tn Tw].
  cbn [str_join]. destruct tokens as [|t' tokens].
  - pose proof (split_from_word t [] [] Tw) as E. rewrite app_nil_r in E.
    rewrite E. destruct t; [discriminate | reflexivity].
  - rewrite (split_from_word _ _ _ Tw). cbn [app split_from].
    change (isspace_char SPACE) with true. cbv iota.
    destruct t; [discriminate|]. rewrite IH. reflexivity.
Qed.

Lemma lstrip_space_token (s : str) :
  is_token s = true -> lstrip_space s = s.
Proof.
  unfold is_token. destruct s as [|c s]; [reflexivity|].
  cbn [nonempty forallb lstrip_space andb].
  destruct (isspace_char c); [discriminate | reflexivity].
Qed.

Lemma str_strip_token (s : str) : is_token s = true -> str_strip s = s.
Proof.
  intros T. unfold str_strip. rewrite (lstrip_space_token s T).
  rewrite lstrip_space_token; [apply rev_involutive|].
  unfold is_token in *. apply andb_true_iff in T. destruct T as [Tn Tw].
  apply andb_true_iff. split.
  - destruct s as [|c s]; [discriminate|]. cbn. destruct (rev s); reflexivity.
  - apply forallb_forall. intros x I. apply in_rev in I.
    rewrite forallb_forall in Tw. exact (Tw x I).
Qed.

Lemma split_blank (s : str) :
  str_split s = [] <-> forallb isspace_char s = true.
Proof.
  unfold str_split. split.
  - induction s as [|c s IH]; [reflexivity|]. cbn [split_from forallb].
    destruct (isspace_char c) eqn:C; [exact IH|].
    intros E. exfalso. clear IH. cbn [app] in E.
    assert (G : forall s word, word <> [] -> split_from s word <> []).
    { clear. induction s as [|c s IH]; intros word W; cbn [split_from].
      - destruct word; [contradiction | discriminate].
      - destruct (isspace_char c);
          [destruct word; [contradiction | discriminate]|].
        apply IH. destruct word; discriminate. }
    exact (G s [c] ltac:(discriminate) E).
  - induction s as [|c s IH]; [reflexivity|]. cbn [split_from forallb].
    destruct (isspace_char c); [exact IH | discriminate].
Qed.

Lemma parse_input_split unicode_lower (s : str) :
  parse_input unicode_lower s
  = match str_split s with
    | cmd :: args => Done (str_lower unicode_lower cmd, args)
    | [] => Thrown BLANK_LINE_ERROR
    end.
Proof.
  unfold parse_input.
  pose proof (split_from_tokens s [] eq_refl) as F. fold (str_split s) in F.
  destruct (str_split s) as [|cmd args]; [reflexivity|].
  inversion F; subst. rewrite str_strip_token by assumption. reflexivity.
Qed.

(** X16: the words of a command line are never empty and hold no white
    space, so [strip] changes nothing and the number an [add] gets from
    the loop is never the empty text; words joined by single blanks
    split back into the same words, and [parse_input] gives the first in
    lower case and the others as they are. *)
Theorem parse_input_words (unicode_lower : str -> str) (s cmd : str)
        (args : list str) :
  Forall (fun t => is_token t = true /\ str_strip t = t /\ nonempty t = true)
         (str_split s)
  /\ (Forall (fun t => is_token t = true) (cmd :: args) ->
      str_split (str_join [SPACE] (cmd :: args)) = cmd :: args
      /\ parse_input unicode_lower (str_join [SPACE] (cmd :: args))
         = Done (str_lower unicode_lower cmd, args)).
Proof.
  split.
  - pose proof (split_from_tokens s [] eq_refl) as F. fold (str_split s) in F.
    apply Forall_forall. intros t I. rewrite Forall_forall in F.
    pose proof (F t I) as T. split; [exact T|]. split.
    + apply str_strip_token, T.
    + unfold is_token in T. apply andb_true_iff in T. apply T.
  - intros F. rewrite parse_input_split, (split_join _ F). split; reflexivity.
Qed.

Lemma parse_input_words_witness :
  parse_input (fun s => s) (pystr "ADD Ann 0501234567")
  = Done (pystr "add", [pystr "Ann"; pystr "0501234567"]).
Proof.
  destruct (parse_input_words (fun s => s) [] (pystr "ADD")
              [pystr "Ann"; pystr "0501234567"]) as (_ & P).
  destruct P as (_ & P); [repeat constructor | exact P].
Defined.

Lemma loop_step unicode_lower line today inputs st :
  loop unicode_lower ((line, today) :: inputs) st
  = match parse_input unicode_lower line with
    | Thrown e => (Aborted e (fst st), snd st ++ [PROMPT])
    | Done (command, args) =>
        match dispatch command args today (fst st, snd st ++ [PROMPT]) with
        | (Some e, st') => (e, snd st')
        | (None, st') => loop unicode_lower inputs st'
        end
    end.
Proof. reflexivity. Qed.

(** X17: a line that is empty or all white space ends the program: the
    unpacking in [parse_input] raises [ValueError] outside every handler,
    nothing but the prompt has been written, and the directory, with
    what the session changed, is not saved. *)
Theorem blank_line_aborts (unicode_lower : str -> str) (line : str)
        (today : datetime.date) (inputs : list (str * datetime.date))
        (st : AddressBook.t * stdout) :
  forallb isspace_char line = true ->
  parse_input unicode_lower line = Thrown BLANK_LINE_ERROR
  /\ loop unicode_lower ((line, today) :: inputs) st
     = (Aborted BLANK_LINE_ERROR (fst st), snd st ++ [PROMPT]).
Proof.
  intros B. apply split_blank in B.
  assert (P : parse_input unicode_lower line = Thrown BLANK_LINE_ERROR).
  { rewrite parse_input_split, B. reflexivity. }
  split; [exact P|]. rewrite loop_step, P. reflexivity.
Qed.

Lemma blank_line_aborts_witness :
  main (fun s => s) None
       [(pystr "add Ann 0501234567", datetime.mkdate 2024 6 10);
        (pystr "  ", datetime.mkdate 2024 6 10);
        (pystr "exit", datetime.mkdate 2024 6 10)]
  = (Aborted BLANK_LINE_ERROR [(pystr "Ann", ann')],
     [pystr "Welcome to the assistant bot!" ++ NEWLINE; PROMPT;
      pystr "Contact added." ++ NEWLINE; PROMPT]).
Proof.
  unfold main. rewrite loop_step.
  change (parse_input (fun s => s) (pystr "add Ann 0501234567"))
    with (@Done (str * list str) (pystr "add", [pystr "Ann"; pystr "0501234567"])).
  cbv iota beta.
  match goal with |- context [dispatch ?c ?a ?t ?s] =>
    let r := eval vm_compute in (dispatch c a t s) in
    change (dispatch c a t s) with r end.
  cbv iota beta.
  apply (blank_line_aborts (fun s => s) (pystr "  ")). reflexivity.
Defined.

Lemma dispatch_outcome command args today (st : AddressBook.t * stdout) :
  (str_eqb command (pystr "close") || str_eqb command (pystr "exit") = true
   /\ dispatch command args today st
      = (Some (Saved (fst st)),
         (fst st, print (pystr "Good bye!") (snd st))))
  \/ (str_eqb command (pystr "close") || str_eqb command (pystr "exit") = false
      /\ exists st', dispatch command args today st = (None, st')).
Proof.
  unfold dispatch.
  destruct (str_eqb command (pystr "close") || str_eqb command (pystr "exit"));
    [left; split; reflexivity | right; split; [reflexivity|]].
  assert (Hh : forall h, exists st', carry_on (handle h args st) = (None, st')).
  { intros h. destruct (handle_outcome h args st) as (v & st' & E & _).
    rewrite E. eexists. reflexivity. }
  repeat match goal with
         | |- context [if ?b then _ else _] => destruct b
         end; try (eexists; reflexivity).
  - exact (Hh AddContact).
  - exact (Hh ChangeContact).
  - exact (Hh ShowPhoneNum).
  - exact (Hh AddBirthday).
  - exact (Hh ShowBirthday).
  - exact (Hh (Birthdays today)).
Qed.



(** X19: the command word is recognised in any letter case: a line of
    words whose first, in ASCII, is [exit] or [close] up to the case of
    its letters ends the loop with "Good bye!" and the directory saved
    as it stands; the words after it and the lines after it are ignored. *)
Theorem exit_in_any_case (unicode_lower : str -> str) (cmd : str)
        (args : list str) (today : datetime.date)
        (inputs : list (str * datetime.date)) (st : AddressBook.t * stdout) :
  Forall (fun t => is_token t = true) (cmd :: args) ->
  forallb is_ascii cmd = true ->
  map ascii_lower_char cmd = pystr "exit"
  \/ map ascii_lower_char cmd = pystr "close" ->
  loop unicode_lower ((str_join [SPACE] (cmd :: args), today) :: inputs) st
  = (Saved (fst st), snd st ++ [PROMPT; pystr "Good bye!" ++ NEWLINE]).
Proof.
  intros T A L. rewrite loop_step, parse_input_split, (split_join _ T).
  unfold str_lower. rewrite A.
  destruct (dispatch_outcome (map ascii_lower_char cmd) args today
              (fst st, snd st ++ [PROMPT])) as [[C E] | [C _]].
  - rewrite E. cbn [fst snd]. unfold print. rewrite <- app_assoc. reflexivity.
  - destruct L as [L|L]; rewrite L in C; discriminate C.
Qed.

Lemma exit_in_any_case_witness :
  main (fun s => s) (Some june_book)
       [(pystr "Exit now", datetime.mkdate 2024 6 10);
        (pystr "add Ann 0501234567", datetime.mkdate 2024 6 10)]
  = (Saved june_book,
     [pystr "Welcome to the assistant bot!" ++ NEWLINE; PROMPT;
      pystr "Good bye!" ++ NEWLINE]).
Proof.
  apply (exit_in_any_case (fun s => s) (pystr "Exit") [pystr "now"]).
  - repeat constructor.
  - reflexivity.
  - left. reflexivity.
Defined.

(** X20: what [input_error] returns is never shown: the loop drops the
    value of a handler, so a command with too few arguments, or [change]
    with other than three, leaves the directory as it was and writes
    nothing at all. *)
Theorem errors_are_silent (command : str) (args : list str)
        (today : datetime.date) (st : AddressBook.t * stdout) :
  ((command = pystr "add" \/ command = pystr "add-birthday")
   /\ (List.length args < 2)%nat)
  \/ (command = pystr "change" /\ List.length args <> 3%nat)
  \/ ((command = pystr "phone" \/ command = pystr "show-birthday")
      /\ args = []) ->
  dispatch command args today st = (None, st).
Proof.
  intros [[[-> | ->] L] | [[-> N] | [[-> | ->] ->]]].
  - change (dispatch (pystr "add") args today st)
      with (carry_on (add_contact args st)).
    rewrite (add_contact_short _ _ L). reflexivity.
  - change (dispatch (pystr "add-birthday") args today st)
      with (carry_on (add_birthday args st)).
    rewrite (add_birthday_short _ _ L). reflexivity.
  - change (dispatch (pystr "change") args today st)
      with (carry_on (change_contact args st)).
    rewrite (change_contact_wrong_count _ _ N). reflexivity.
  - reflexivity.
  - reflexivity.
Qed.

Lemma errors_are_silent_witness :
  dispatch (pystr "add") [pystr "Ann"] (datetime.mkdate 2024 6 10) (june_book, [PROMPT])
  = (None, (june_book, [PROMPT])).
Proof.
  apply errors_are_silent. left. split; [left; reflexivity | cbn; lia].
Defined.

Lemma fold_left_print (records : list Record_.t) (out : stdout) :
  fold_left (fun out record => console_show_contact record out) records out
  = out ++ map (fun record => Record_str record ++ NEWLINE) records.
Proof.
  revert out. induction records as [|record records IH]; intros out; cbn.
  - rewrite app_nil_r. reflexivity.
  - rewrite IH. unfold console_show_contact, print, Record_str.
    rewrite <- app_assoc. reflexivity.
Qed.

Lemma concat_lines (lines : list str) :
  lines <> [] ->
  concat (map (fun line => line ++ NEWLINE) lines) = str_join NEWLINE lines ++ NEWLINE.
Proof.
  induction lines as [|x lines IH]; [congruence|]. intros _.
  cbn [map concat str_join]. destruct lines as [|y lines].
  - cbn. rewrite app_nil_r. reflexivity.
  - rewrite IH by discriminate. rewrite <- !app_assoc. reflexivity.
Qed.

(** X21: [all] on the console writes one line for each contact, in the
    order the names came into the directory, each the text of
    [Record.__str__]; the lines together are the text of
    [AddressBook.__str__] and a line end.  For an empty directory it
    writes "No contacts found.", where [AddressBook.__str__] is empty. *)
Theorem all_lists_every_contact (book : AddressBook.t) (out : stdout) :
  show_contacts (book, out)
  = (Done tt,
     (book,
      out ++ match book with
             | [] => [pystr "No contacts found." ++ NEWLINE]
             | _ :: _ =>
                 map (fun record => Record_str record ++ NEWLINE)
                     (AddressBook.values book)
             end))
  /\ (book <> [] ->
      concat (map (fun record => Record_str record ++ NEWLINE)
                  (AddressBook.values book))
      = AddressBook_str book ++ NEWLINE)
  /\ AddressBook_str [] = [].
Proof.
  split; [|split].
  - unfold show_contacts, display. cbn [fst snd show_all_contacts ConsoleDisplay].
    unfold console_show_all_contacts. destruct book as [|kv book];
      [reflexivity|].
    rewrite fold_left_print. reflexivity.
  - intros N. unfold AddressBook_str. rewrite <- concat_lines.
    + rewrite map_map. reflexivity.
    + destruct book; [congruence | discriminate].
  - reflexivity.
Qed.

Lemma all_lists_every_contact_witness :
  show_contacts ([(pystr "Ann", ann'); (pystr "Bob", bob)], ([] : stdout))
  = (Done tt,
     ([(pystr "Ann", ann'); (pystr "Bob", bob)],
      [pystr "Contact name: Ann, phones: 0501234567, birthday: None."
       ++ NEWLINE;
       pystr "Contact name: Bob, phones: , birthday: 12.06.1990." ++ NEWLINE])).
Proof.
  destruct (all_lists_every_contact [(pystr "Ann", ann'); (pystr "Bob", bob)] [])
    as (S & _).
  exact S.
Defined.
